(** * genai-validators: the folder evaluator of [CodeEvaluatorService.py]

    A shallow embedding of [AICodeEvaluator] (file selection, content
    loading, response parsing, bounded fan-out and score aggregation) and
    the properties its specification states about it.

    Conventions.  The library functions are those of CPython 3.11 on
    POSIX.  Python [int] is [Z]; Python [str] is [string], one [ascii]
    per character, read as the code point of that number (the text
    handled here has no character above U+00FF); a Python [float] is a
    binary64 value kept as mantissa and exponent, with the rounding of
    every operation written out over [Z].  A raised exception
    is an instance of [Exception], carried with its class name and
    message; code that may raise returns a [result].  What the program
    reads from outside (file contents, the completion service,
    [json.loads]) is a parameter of the definitions that use it, and the
    concurrent part of [evaluate_folder] is a step relation over the
    states of its semaphore-guarded wrappers. *)

From Stdlib Require Import ZArith List String Ascii Bool Lia Arith Permutation.
From Stdlib Require Import DecimalString Sorted.
Import ListNotations.
Open Scope string_scope.
Open Scope Z_scope.

(** ** Python exceptions and results *)

(** An instance of Python's [Exception]: the class name and [str(e)]. *)
Record exn : Type := mk_exn { exn_class : string; exn_str : string }.

Inductive result (A : Type) : Type :=
| Ok (a : A)
| Raise (e : exn).
Arguments Ok {A} a.
Arguments Raise {A} e.

Definition bind {A B : Type} (r : result A) (k : A -> result B) : result B :=
  match r with
  | Ok a => k a
  | Raise e => Raise e
  end.

Notation "x <- r ;; k" := (bind r (fun x => k))
  (at level 61, r at next level, right associativity).

(** ** Binary64 arithmetic *)

Module Float64.

(** A float is finite ([fm * 2^fe]), infinite or not a number. *)
Inductive float : Type :=
| FFinite (fm fe : Z)
| FInf (negative : bool)
| FNaN.

(** [a / b] rounded to the nearest integer, ties to the even one
    ([0 < b]). *)
Definition rne_div (a b : Z) : Z :=
  let q := a / b in
  let r := a mod b in
  if 2 * r <? b then q
  else if b <? 2 * r then q + 1
  else if Z.even q then q else q + 1.

(** [2^d * q <= p], for either sign of [d]. *)
Definition ge_pow2 (p q d : Z) : bool :=
  if 0 <=? d then q * 2 ^ d <=? p else q <=? p * 2 ^ (- d).

(** [floor (log2 (p / q))] for positive [p] and [q]. *)
Definition ilog2_ratio (p q : Z) : Z :=
  let d := Z.log2 p - Z.log2 q in
  if ge_pow2 p q d then d else d - 1.

(** [p / (q * 2^e)] rounded to the nearest integer, ties to even. *)
Definition scaled (p q e : Z) : Z :=
  if 0 <=? e then rne_div p (q * 2 ^ e) else rne_div (p * 2 ^ (- e)) q.

(** Round-to-nearest-even of the positive rational [p / q]: 53
    significant bits, exponents down to the subnormal [-1074], infinity
    from [2^1024] on. *)
Definition round_pos (p q : Z) : float :=
  let e := Z.max (ilog2_ratio p q - 52) (-1074) in
  let m := scaled p q e in
  if 1024 <=? e + Z.log2 m then FInf false else FFinite m e.

Definition fneg (f : float) : float :=
  match f with
  | FFinite m e => FFinite (- m) e
  | FInf s => FInf (negb s)
  | FNaN => FNaN
  end.

(** Round-to-nearest-even of the rational [p / q], [0 < q]. *)
Definition round_q (p q : Z) : float :=
  if p =? 0 then FFinite 0 0
  else if 0 <? p then round_pos p q
  else fneg (round_pos (- p) q).

(** The rational [m * 2^e] as numerator and denominator. *)
Definition num_den (m e : Z) : Z * Z :=
  if 0 <=? e then (m * 2 ^ e, 1) else (m, 2 ^ (- e)).

(** [float(n)] for an [int]. *)
Definition of_int (n : Z) : result float :=
  match round_q n 1 with
  | FInf _ => Raise (mk_exn "OverflowError" "int too large to convert to float")
  | f => Ok f
  end.

(** [a / b] on two [int]s: the correctly rounded quotient. *)
Definition true_div (a b : Z) : result float :=
  if b =? 0 then Raise (mk_exn "ZeroDivisionError" "division by zero")
  else
    match (if 0 <? b then round_q a b else round_q (- a) (- b)) with
    | FInf _ => Raise (mk_exn "OverflowError"
                         "integer division result too large for a float")
    | f => Ok f
    end.

Definition is_zero (f : float) : bool :=
  match f with FFinite m _ => m =? 0 | _ => false end.

Definition is_negative (f : float) : bool :=
  match f with FFinite m _ => m <? 0 | FInf s => s | FNaN => false end.

(** [f * g] on two floats. *)
Definition mul (f g : float) : float :=
  match f, g with
  | FNaN, _ | _, FNaN => FNaN
  | FInf _, _ | _, FInf _ =>
      if is_zero f || is_zero g then FNaN
      else FInf (xorb (is_negative f) (is_negative g))
  | FFinite m1 e1, FFinite m2 e2 =>
      let (p, q) := num_den (m1 * m2) (e1 + e2) in round_q p q
  end.

(** [n > f] for an [int] and a float: Python compares the exact values. *)
Definition int_gt (n : Z) (f : float) : bool :=
  match f with
  | FFinite m e => if 0 <=? e then m * 2 ^ e <? n else m <? n * 2 ^ (- e)
  | FInf s => s
  | FNaN => false
  end.

(** [round(f)] with one argument: nearest [int], ties to even. *)
Definition py_round (f : float) : result Z :=
  match f with
  | FFinite m e => Ok (if 0 <=? e then m * 2 ^ e else rne_div m (2 ^ (- e)))
  | FInf _ => Raise (mk_exn "OverflowError"
                       "cannot convert float infinity to integer")
  | FNaN => Raise (mk_exn "ValueError" "cannot convert float NaN to integer")
  end.

(** [int(f)]: truncation toward zero. *)
Definition py_trunc (f : float) : result Z :=
  match f with
  | FFinite m e => Ok (if 0 <=? e then m * 2 ^ e else Z.quot m (2 ^ (- e)))
  | FInf _ => Raise (mk_exn "OverflowError"
                       "cannot convert float infinity to integer")
  | FNaN => Raise (mk_exn "ValueError" "cannot convert float NaN to integer")
  end.

(** The mantissa of [0.6]: [5 * c06 = 3 * 2^53 - 1]. *)
Definition c06 : Z := 5404319552844595.

(** The literal [0.6]: the binary64 value nearest to 6/10. *)
Definition lit_0_6 : float := Eval vm_compute in round_q 6 10.

End Float64.

(** ** Python values *)

(** What [json.loads] can return (and what a field of a dataclass can
    hold, since dataclasses do not check their annotations). *)
#[warnings="-register-all"]
Inductive py_value : Type :=
| PyNone
| PyBool (b : bool)
| PyInt (z : Z)
| PyFloat (f : Float64.float)
| PyStr (s : string)
| PyList (l : list py_value)
| PyDict (d : list (string * py_value)).

(** [str(n)] for an [int]. *)
Definition str_of_int (n : Z) : string :=
  DecimalString.NilZero.string_of_int (Z.to_int n).

(** ** The two dataclasses *)

Module FileEvaluation.
Record t : Type := mk
  { filename : string;
    score : Z;
    reason : py_value;
    file_type : string }.
End FileEvaluation.

Module OverallEvaluation.
Record t : Type := mk
  { score : Z;
    reason : string;
    total_files : Z;
    file_evaluations : list FileEvaluation.t }.
End OverallEvaluation.

(** ** Aggregation: [calculate_overall_score] *)

(** [sum(...)] over a generator of [int]s. *)
Definition sum (l : list Z) : Z := fold_left Z.add l 0.

(** [sum(1 for eval in evals if p(eval))]. *)
Definition count_if {A : Type} (p : A -> bool) (l : list A) : Z :=
  sum (map (fun _ => 1) (filter p l)).

Definition len {A : Type} (l : list A) : Z := Z.of_nat (List.length l).

Definition is_high (e : FileEvaluation.t) : bool := 7 <=? FileEvaluation.score e.
Definition is_medium (e : FileEvaluation.t) : bool :=
  (4 <=? FileEvaluation.score e) && (FileEvaluation.score e <=? 6).
Definition is_low (e : FileEvaluation.t) : bool := FileEvaluation.score e <=? 3.

Definition reason_high (high total : Z) : string :=
  ("Most files (" ++ str_of_int high ++ "/" ++ str_of_int total
   ++ ") show strong indicators of AI generation")%string.

Definition reason_low (low total : Z) : string :=
  ("Most files (" ++ str_of_int low ++ "/" ++ str_of_int total
   ++ ") appear to be human-written")%string.

Definition reason_mixed (high medium low : Z) : string :=
  ("Mixed results: " ++ str_of_int high ++ " likely AI-generated, "
   ++ str_of_int medium ++ " uncertain, "
   ++ str_of_int low ++ " likely human-written")%string.

(** [n * 0.6] for an [int] [n]: the int is converted, then multiplied. *)
Definition times_0_6 (n : Z) : result Float64.float :=
  f <- Float64.of_int n ;; Ok (Float64.mul f Float64.lit_0_6).

Definition calculate_overall_score (file_evaluations : list FileEvaluation.t)
  : result OverallEvaluation.t :=
  match file_evaluations with
  | [] =>
      Ok {| OverallEvaluation.score := 1;
            OverallEvaluation.reason := "No code files found to evaluate";
            OverallEvaluation.total_files := 0;
            OverallEvaluation.file_evaluations := [] |}
  | _ :: _ =>
      let total_score := sum (map FileEvaluation.score file_evaluations) in
      average_score <- Float64.true_div total_score (len file_evaluations) ;;
      rounded <- Float64.py_round average_score ;;
      let overall_score := Z.max 1 (Z.min 10 rounded) in
      let high_scores := count_if is_high file_evaluations in
      let medium_scores := count_if is_medium file_evaluations in
      let low_scores := count_if is_low file_evaluations in
      threshold <- times_0_6 (len file_evaluations) ;;
      let reason :=
        if Float64.int_gt high_scores threshold then
          reason_high high_scores (len file_evaluations)
        else if Float64.int_gt low_scores threshold then
          reason_low low_scores (len file_evaluations)
        else reason_mixed high_scores medium_scores low_scores in
      Ok {| OverallEvaluation.score := overall_score;
            OverallEvaluation.reason := reason;
            OverallEvaluation.total_files := len file_evaluations;
            OverallEvaluation.file_evaluations := file_evaluations |}
  end.

(** *** The aggregate in the specification's words *)

(** Scores as the data model bounds them. *)
Definition in_range (e : FileEvaluation.t) : Prop :=
  1 <= FileEvaluation.score e <= 10.

(** Scores whose mean a float can hold. *)
Definition bounded (e : FileEvaluation.t) : Prop :=
  Z.abs (FileEvaluation.score e) <= 2 ^ 1000.

Definition total (evs : list FileEvaluation.t) : Z :=
  sum (map FileEvaluation.score evs).

(** The reason as the specification words it: exact three-fifths
    thresholds, first matching rule. *)
Definition spec_reason (evs : list FileEvaluation.t) : string :=
  let n := len evs in
  let high := len (filter is_high evs) in
  let medium := len (filter is_medium evs) in
  let low := len (filter is_low evs) in
  if 3 * n <? 5 * high then reason_high high n
  else if 3 * n <? 5 * low then reason_low low n
  else reason_mixed high medium low.

(** The overall score as the specification words it: the mean rounded to
    the nearest integer (ties to even), clamped. *)
Definition spec_score (evs : list FileEvaluation.t) : Z :=
  Z.max 1 (Z.min 10 (Float64.rne_div (total evs) (len evs))).

(** ** Text helpers *)

Definition nl : string := String "010"%char EmptyString.

(** [c.lower()] on one character: the letters A to Z, and the upper-case
    letters of U+00C0 to U+00DE (U+00D7 is the multiplication sign). *)
Definition lower_ascii (c : ascii) : ascii :=
  let n := nat_of_ascii c in
  if (((65 <=? n) && (n <=? 90))
      || ((192 <=? n) && (n <=? 222) && negb (n =? 215)))%nat
  then ascii_of_nat (n + 32) else c.

(** [s.lower()]. *)
Fixpoint lower (s : string) : string :=
  match s with
  | EmptyString => EmptyString
  | String c s' => String (lower_ascii c) (lower s')
  end.

(** [s.startswith('.')]. *)
Definition startswith_dot (s : string) : bool :=
  match s with
  | String "."%char _ => true
  | _ => false
  end.

(** [s[:k]]. *)
Definition slice_to (k : Z) (s : string) : string :=
  substring 0 (Z.to_nat k) s.

(** [x in xs] for a set of strings. *)
Definition mem (x : string) (xs : list string) : bool :=
  existsb (String.eqb x) xs.

(** Index of the last ['.'] of [s] ([s.rfind('.')]), if any. *)
Fixpoint rfind_dot (s : string) : option nat :=
  match s with
  | EmptyString => None
  | String c s' =>
      match rfind_dot s' with
      | Some i => Some (S i)
      | None => if Ascii.eqb c "."%char then Some O else None
      end
  end.

(** [s[i:]]. *)
Fixpoint slice_from (i : nat) (s : string) : string :=
  match i, s with
  | O, _ => s
  | S i', String _ s' => slice_from i' s'
  | S _, EmptyString => EmptyString
  end.

(** ** Paths ([pathlib.Path], POSIX flavour) *)

(** A path is its tuple of [parts]; an absolute path starts with ["/"]. *)
Definition Path : Type := list string.

Definition parts (p : Path) : list string := p.

(** [p.name]: the last part, unless it is the anchor. *)
Definition name (p : Path) : string :=
  match rev p with
  | [] => ""
  | n :: rest => if (n =? "/")%string && match rest with [] => true | _ => false end
                 then "" else n
  end.

(** [p.suffix]: from the last dot of the name, when that dot is neither
    the first nor the last character. *)
Definition suffix (p : Path) : string :=
  let n := name p in
  match rfind_dot n with
  | Some i =>
      if ((0 <? i) && (i <? String.length n - 1))%nat then slice_from i n
      else ""
  | None => ""
  end.

(** [p.parent]. *)
Definition parent (p : Path) : Path :=
  match p with
  | [a] => if (a =? "/")%string then p else []
  | _ => removelast p
  end.

(** [p / rel] for a relative [rel]. *)
Definition joinpath (p rel : Path) : Path := (p ++ rel)%list.

Fixpoint strip_prefix (base p : Path) : option Path :=
  match base, p with
  | [], _ => Some p
  | b :: base', x :: p' => if (b =? x)%string then strip_prefix base' p' else None
  | _ :: _, [] => None
  end.

(** [str(p)]. *)
Definition str_of_path (p : Path) : string :=
  match p with
  | [] => "."
  | first :: rest =>
      if (first =? "/")%string then ("/" ++ String.concat "/" rest)%string
      else String.concat "/" p
  end.

(** [p.is_absolute()]. *)
Definition is_absolute (p : Path) : bool :=
  match p with
  | first :: _ => (first =? "/")%string
  | [] => false
  end.

(** ** The file system under the scan root *)

#[warnings="-register-all"]
Inductive node : Type :=
| File (st_size : Z)
| Special
| Dir (entries : list (string * node)).

Definition is_file (n : node) : bool :=
  match n with File _ => true | _ => false end.

Definition st_size (n : node) : Z :=
  match n with File sz => sz | _ => 0 end.

(** The names a directory can hold: not empty, not the dot entries, and
    without a slash or a NUL. *)
Definition is_entry_name (nm : string) : bool :=
  negb ((nm =? "") || (nm =? ".") || (nm =? ".."))%string
  && forallb (fun c => negb (Ascii.eqb c "/"%char || Ascii.eqb c "000"%char))
       (list_ascii_of_string nm).

(** [os.scandir]: the entries of a directory, in the order of the
    listing. *)
Definition scandir (n : node) : list (string * node) :=
  match n with
  | Dir entries => filter (fun e => is_entry_name (fst e)) entries
  | _ => []
  end.

(** [folder_path.rglob('*')]: every entry below the folder, at any depth,
    hidden ones included, each as the folder's path extended by the
    entry's relative parts; the entries of a directory come first, then
    what is below each of its subdirectories in turn. *)
Fixpoint rglob (folder_path : Path) (n : node) : list (Path * node) :=
  match n with
  | Dir entries =>
      (map (fun e => (joinpath folder_path [fst e], snd e)) (scandir n)
       ++ (fix below (es : list (string * node)) : list (Path * node) :=
             match es with
             | [] => []
             | (nm, child) :: rest =>
                 ((if is_entry_name nm
                   then rglob (joinpath folder_path [nm]) child else [])
                  ++ below rest)%list
             end) entries)%list
  | _ => []
  end.

(** ** File selection: [is_code_file], [should_exclude_folder],
       [get_code_files] *)

Definition CODE_EXTENSIONS : list string :=
  [".py"; ".js"; ".ts"; ".jsx"; ".tsx"; ".java"; ".cpp"; ".c"; ".cs";
   ".go"; ".rs"; ".php"; ".rb"; ".swift"; ".kt"; ".scala"; ".sh";
   ".ps1"; ".sql"; ".html"; ".css"; ".vue"; ".dart"; ".r"; ".m"].

(** An optional set argument ([Set[str] = None]) and its truth value:
    [None] and the empty set are both false. *)
Definition truthy (o : option (list string)) : bool :=
  match o with
  | Some (_ :: _) => true
  | _ => false
  end.

Definition elements (o : option (list string)) : list string :=
  match o with Some l => l | None => [] end.

Definition is_code_file (file_path : Path) (exclude_extensions : option (list string))
  : bool :=
  if truthy exclude_extensions
     && mem (lower (suffix file_path)) (elements exclude_extensions)
  then false
  else mem (lower (suffix file_path)) CODE_EXTENSIONS.

Definition should_exclude_folder (folder_path : Path)
    (exclude_folders : option (list string)) : bool :=
  if truthy exclude_folders
  then existsb (fun part => mem part (elements exclude_folders)) (parts folder_path)
  else false.

Definition default_exclusions : list string :=
  [".git"; "node_modules"; "__pycache__"; "venv"; "env"; ".venv"].

Definition all_excluded_folders (exclude_folders : option (list string))
  : list string :=
  if truthy exclude_folders
  then (default_exclusions ++ elements exclude_folders)%list
  else default_exclusions.

(** The body of the loop of [get_code_files]: is this entry appended? *)
Definition selected (exclude_extensions exclude_folders : option (list string))
    (entry : Path * node) : bool :=
  let (file_path, n) := entry in
  if existsb (fun part => startswith_dot part
                          || mem part (all_excluded_folders exclude_folders))
       (parts file_path)
  then false
  else if should_exclude_folder (parent file_path) exclude_folders then false
  else is_file n && is_code_file file_path exclude_extensions && (0 <? st_size n).

Definition get_code_files (fs : node) (folder_path : Path)
    (exclude_extensions exclude_folders : option (list string)) : list Path :=
  map fst (filter (selected exclude_extensions exclude_folders)
             (rglob folder_path fs)).

(** The test of the loop of [get_code_files] as a proposition: the
    lower-cased suffix is looked up in the caller's set as it is. *)
Definition spec_selected (ee ef : option (list string)) (p : Path) (n : node)
  : Prop :=
  (exists sz, n = File sz /\ 0 < sz) /\
  In (lower (suffix p)) CODE_EXTENSIONS /\
  ~ In (lower (suffix p)) (elements ee) /\
  forall seg, In seg (parts p) ->
    startswith_dot seg = false /\
    ~ In seg default_exclusions /\ ~ In seg (elements ef).

(** ** Exceptions handled locally *)

(** [try: body / except Exception as e: handler(e)]. *)
Definition try_except {A : Type} (body : result A) (handler : exn -> result A)
  : result A :=
  match body with
  | Ok a => Ok a
  | Raise e => handler e
  end.

(** [try: body / except cls as e: handler(e)] for one exception class. *)
Definition try_except_class {A : Type} (cls : string) (body : result A)
    (handler : exn -> result A) : result A :=
  match body with
  | Ok a => Ok a
  | Raise e => if (exn_class e =? cls)%string then handler e else Raise e
  end.

(** ** More of Python's [str] and [int] *)

Definition dq : string := String "034"%char EmptyString.

(** Single quotes turned into double quotes, to write JSON text. *)
Fixpoint q (s : string) : string :=
  match s with
  | EmptyString => EmptyString
  | String c s' => String (if Ascii.eqb c "'"%char then "034"%char else c) (q s')
  end.

(** [c.isspace()]. *)
Definition isspace (c : ascii) : bool :=
  let n := nat_of_ascii c in
  (((9 <=? n) && (n <=? 13)) || ((28 <=? n) && (n <=? 32))
   || (n =? 133) || (n =? 160))%nat.

Fixpoint lstrip_chars (l : list ascii) : list ascii :=
  match l with
  | c :: l' => if isspace c then lstrip_chars l' else l
  | [] => []
  end.

(** [s.strip()]. *)
Definition strip (s : string) : string :=
  string_of_list_ascii
    (rev (lstrip_chars (rev (lstrip_chars (list_ascii_of_string s))))).

Definition is_digit (c : ascii) : bool :=
  let n := nat_of_ascii c in ((48 <=? n) && (n <=? 57))%nat.

Definition digit_value (c : ascii) : Z := Z.of_nat (nat_of_ascii c) - 48.

(** The blanks [int] skips around a literal: the ASCII ones, and U+0085
    and U+00A0, which it turns into spaces first.  The separators U+001C
    to U+001F are blanks for [str.strip] but not for [int]. *)
Definition int_space (c : ascii) : bool :=
  let n := nat_of_ascii c in
  (((9 <=? n) && (n <=? 13)) || (n =? 32) || (n =? 133) || (n =? 160))%nat.

Fixpoint skip_int_space (l : list ascii) : list ascii :=
  match l with
  | c :: l' => if int_space c then skip_int_space l' else l
  | [] => []
  end.

(** The run of digits and underscores at the head of [l]: its value, the
    number of its digits and what follows it; nothing when two
    underscores meet or an underscore ends the run. *)
Fixpoint scan_digits (acc count : Z) (after_underscore : bool) (l : list ascii)
  : option (Z * Z * list ascii) :=
  match l with
  | c :: l' =>
      if is_digit c then scan_digits (10 * acc + digit_value c) (count + 1) false l'
      else if Ascii.eqb c "_"%char
           then (if after_underscore then None else scan_digits acc count true l')
           else if after_underscore then None else Some (acc, count, l)
  | [] => if after_underscore then None else Some (acc, count, [])
  end.

(** [sys.get_int_max_str_digits()], as the interpreter starts. *)
Definition int_max_str_digits : Z := 4300.

(** The sign of a literal and what follows the sign. *)
Definition int_sign (l : list ascii) : Z * list ascii :=
  match l with
  | c :: l' =>
      if Ascii.eqb c "-"%char then (-1, l')
      else if Ascii.eqb c "+"%char then (1, l')
      else (1, l)
  | [] => (1, [])
  end.

Definition head_is (c : ascii) (l : list ascii) : bool :=
  match l with
  | a :: _ => Ascii.eqb a c
  | [] => false
  end.

Definition hex_digit (n : nat) : ascii :=
  if (n <? 10)%nat then ascii_of_nat (48 + n) else ascii_of_nat (87 + n).

Definition repr_char (quote c : ascii) : string :=
  let n := nat_of_ascii c in
  if Ascii.eqb c "\"%char then "\\"
  else if Ascii.eqb c quote then String "\"%char (String c EmptyString)
  else if (n =? 9)%nat then "\t"
  else if (n =? 10)%nat then "\n"
  else if (n =? 13)%nat then "\r"
  else if ((n <? 32) || ((127 <=? n) && (n <=? 160)) || (n =? 173))%nat
       then String "\"%char (String "x"%char
              (String (hex_digit (n / 16)) (String (hex_digit (n mod 16)) EmptyString)))
  else String c EmptyString.

Definition contains_char (c : ascii) (s : string) : bool :=
  existsb (Ascii.eqb c) (list_ascii_of_string s).

(** [repr(s)]. *)
Definition repr (s : string) : string :=
  let quote := if contains_char "'"%char s && negb (contains_char "034"%char s)
               then "034"%char else "'"%char in
  (String quote EmptyString
   ++ String.concat "" (map (repr_char quote) (list_ascii_of_string s))
   ++ String quote EmptyString)%string.

(** The base path as [relative_to] names it in its message: nothing for
    the empty path, which [str] shows as a dot. *)
Definition format_parsed_parts (p : Path) : string :=
  match p with
  | [] => ""
  | _ :: _ => str_of_path p
  end.

(** [p.relative_to(base)]: what is left of [p] after the parts of
    [base]; under the empty base a relative path is left as it is and an
    absolute one is refused. *)
Definition relative_to (p base : Path) : result Path :=
  let outside :=
    Raise (mk_exn "ValueError"
             (repr (str_of_path p) ++ " is not in the subpath of "
              ++ repr (format_parsed_parts base)
              ++ " OR one path is relative and the other is absolute.")%string) in
  match base with
  | [] => if is_absolute p then outside else Ok p
  | _ :: _ =>
      match strip_prefix base p with
      | Some rel => Ok rel
      | None => outside
      end
  end.

(** [int(s)] for a [str]: blanks, a sign, digits with single underscores
    between them, blanks.  A run of more digits than the limit is refused
    before what follows it is looked at; the literal is quoted in the
    message up to 200 characters of its [repr]. *)
Definition int_of_str (s : string) : result Z :=
  let bad := Raise (mk_exn "ValueError"
                      ("invalid literal for int() with base 10: "
                       ++ slice_to 200 (repr s))%string) in
  let signed := int_sign (skip_int_space (list_ascii_of_string s)) in
  if head_is "_"%char (snd signed) then bad
  else
    match scan_digits 0 0 false (snd signed) with
    | None => bad
    | Some (value, count, rest) =>
        if int_max_str_digits <? count
        then Raise (mk_exn "ValueError"
                      ("Exceeds the limit (" ++ str_of_int int_max_str_digits
                       ++ " digits) for integer string conversion: value has "
                       ++ str_of_int count
                       ++ " digits; use sys.set_int_max_str_digits() to increase the limit")%string)
        else if count =? 0 then bad
        else match skip_int_space rest with
             | [] => Ok (fst signed * value)
             | _ :: _ => bad
             end
    end.

(** [type(v).__name__]. *)
Definition type_name (v : py_value) : string :=
  match v with
  | PyNone => "NoneType"
  | PyBool _ => "bool"
  | PyInt _ => "int"
  | PyFloat _ => "float"
  | PyStr _ => "str"
  | PyList _ => "list"
  | PyDict _ => "dict"
  end.

(** [int(v)]. *)
Definition py_int (v : py_value) : result Z :=
  match v with
  | PyInt z => Ok z
  | PyBool b => Ok (if b then 1 else 0)
  | PyFloat f => Float64.py_trunc f
  | PyStr s => int_of_str s
  | _ => Raise (mk_exn "TypeError"
           ("int() argument must be a string, a bytes-like object or a real number, not '"
            ++ type_name v ++ "'")%string)
  end.

(** [d.get(key, default)] on the items of a dict. *)
Fixpoint dict_get (d : list (string * py_value)) (key : string)
    (default : py_value) : py_value :=
  match d with
  | [] => default
  | (k, v) :: d' => if (k =? key)%string then v else dict_get d' key default
  end.

(** [v.get(key, default)]: only a dict has the method. *)
Definition py_get (v : py_value) (key : string) (default : py_value)
  : result py_value :=
  match v with
  | PyDict d => Ok (dict_get d key default)
  | _ => Raise (mk_exn "AttributeError"
           ("'" ++ type_name v ++ "' object has no attribute 'get'")%string)
  end.

(** [d[key]] when the key is there: what [dict_get] looks up. *)
Fixpoint dict_lookup (d : list (string * py_value)) (key : string)
  : option py_value :=
  match d with
  | [] => None
  | (k, v) :: d' => if (k =? key)%string then Some v else dict_lookup d' key
  end.

(** [max(1, min(10, z))]. *)
Definition clamp (z : Z) : Z := Z.max 1 (Z.min 10 z).

(** ** Content loading and scoring: [read_file_content], [evaluate_file] *)

(** What the completion service hands back: the [message.content] of each
    of [response.choices]. *)
Record response : Type := mk_response { choices : list (option string) }.

Definition system_message : string :=
  "You are an expert code analyst specializing in identifying AI-generated code. Always respond with valid JSON only.".

Definition prompt_for (file_name file_suffix content : string) : string :=
  String.concat nl
    (["";
     "        Analyze the following code and determine how likely it is that this code was generated by an AI code generation tool (like GitHub Copilot, ChatGPT, Claude, etc.).";
     "";
     "        Consider these factors:";
     "        1. Code style and patterns (AI often generates very consistent, sometimes overly structured code)";
     "        2. Comments (AI tends to generate comprehensive comments, sometimes overly detailed)";
     "        3. Variable and function naming (AI often uses very descriptive, sometimes verbose names)";
     "        4. Code structure (AI tends to follow best practices rigidly)";
     "        5. Error handling (AI often includes comprehensive error handling)";
     "        6. Documentation strings and type hints (AI frequently includes these)";
     "        7. Coding patterns that are typical of AI generation";
     "        8. Lack of personal coding quirks or shortcuts that human developers often use";
     "";
     ("        File: " ++ file_name)%string;
     ("        File type: " ++ file_suffix)%string;
     "";
     "        Code:";
     "        ```";
     ("        " ++ content)%string;
     "        ```";
     "";
     "        Provide a score from 1 to 10 where:";
     "        - 1-2: Very unlikely to be AI-generated (clearly human-written)";
     "        - 3-4: Probably human-written with some AI assistance possible";
     "        - 5-6: Could be either human or AI-written";
     "        - 7-8: Likely AI-generated with possible human modifications";
     "        - 9-10: Very likely AI-generated";
     "";
     "        Respond with only a JSON object in this format:";
     ("        {" ++ dq ++ "score" ++ dq ++ ": <number>, " ++ dq ++ "reason" ++ dq
      ++ ": " ++ dq ++ "<detailed explanation of your reasoning>" ++ dq ++ "}")%string;
     "        "])%list.

Definition parse_fallback_prefix : string := "Unable to parse AI response: ".
Definition evaluation_error_prefix : string := "Error during evaluation: ".
Definition read_error_prefix : string := "Error reading file: ".
Definition truncation_marker : string := (nl ++ "... (truncated)")%string.
Definition default_reason : string := "No reason provided".

Section Evaluator.

(** The world outside: reading a file as text ([aiofiles.open] with
    [errors='ignore'], then [read]), the completion request issued for a
    file (deployment, messages), and [json.loads]. *)
Variable read_text : Path -> result string.
Variable chat_completions_create :
  Path -> string -> list (string * string) -> result response.
Variable json_loads : string -> result py_value.

Definition read_file_content (file_path : Path) : result string :=
  try_except
    (content <- read_text file_path ;;
     Ok (if 8000 <? Z.of_nat (String.length content)
         then (slice_to 8000 content ++ truncation_marker)%string
         else content))
    (fun e => Ok (read_error_prefix ++ exn_str e)%string).

(** [response.choices[0].message.content.strip()]. *)
Definition result_text_of (r : response) : result string :=
  match choices r with
  | [] => Raise (mk_exn "IndexError" "list index out of range")
  | None :: _ =>
      Raise (mk_exn "AttributeError" "'NoneType' object has no attribute 'strip'")
  | Some content :: _ => Ok (strip content)
  end.

(** The inner [try]: decode, read the two fields, clamp. *)
Definition parse_result (result_text : string) : result (Z * py_value) :=
  try_except_class "JSONDecodeError"
    (result <- json_loads result_text ;;
     raw <- py_get result "score" (PyInt 5) ;;
     n <- py_int raw ;;
     let score := Z.max 1 (Z.min 10 n) in
     reason <- py_get result "reason" (PyStr default_reason) ;;
     Ok (score, reason))
    (fun _ =>
       Ok (5, PyStr (parse_fallback_prefix ++ slice_to 200 result_text)%string)).

Definition evaluate_file (file_path : Path) (deployment_name : string)
    (base_path : Path) : result FileEvaluation.t :=
  content <- read_file_content file_path ;;
  let prompt := prompt_for (name file_path) (suffix file_path) content in
  try_except
    (response <- chat_completions_create file_path deployment_name
                   [("system", system_message); ("user", prompt)] ;;
     result_text <- result_text_of response ;;
     sr <- parse_result result_text ;;
     rel <- relative_to file_path base_path ;;
     Ok {| FileEvaluation.filename := str_of_path rel;
           FileEvaluation.score := fst sr;
           FileEvaluation.reason := snd sr;
           FileEvaluation.file_type := suffix file_path |})
    (fun e =>
       rel <- relative_to file_path base_path ;;
       Ok {| FileEvaluation.filename := str_of_path rel;
             FileEvaluation.score := 5;
             FileEvaluation.reason := PyStr (evaluation_error_prefix ++ exn_str e)%string;
             FileEvaluation.file_type := suffix file_path |}).

(** *** What [evaluate_file] sees of the world *)

(** The string [read_file_content] hands to its caller. *)
Definition content_of (file_path : Path) : string :=
  match read_text file_path with
  | Ok content =>
      if 8000 <? Z.of_nat (String.length content)
      then (slice_to 8000 content ++ truncation_marker)%string
      else content
  | Raise e => (read_error_prefix ++ exn_str e)%string
  end.

(** The reply to the request [evaluate_file] issues for a file. *)
Definition reply (file_path : Path) (deployment_name : string) : result response :=
  chat_completions_create file_path deployment_name
    [("system", system_message);
     ("user", prompt_for (name file_path) (suffix file_path)
                (content_of file_path))].

(** The evaluation of the [except Exception] branch. *)
Definition fallback (rel : Path) (file_path : Path) (e : exn) : FileEvaluation.t :=
  {| FileEvaluation.filename := str_of_path rel;
     FileEvaluation.score := 5;
     FileEvaluation.reason := PyStr (evaluation_error_prefix ++ exn_str e)%string;
     FileEvaluation.file_type := suffix file_path |}.

(** The text the parsing step works on. *)
Definition reply_text (file_path : Path) (deployment_name : string) : result string :=
  response <- reply file_path deployment_name ;; result_text_of response.

(** *** Bounded fan-out: [evaluate_folder]

    One coroutine per file is created but not started; each is wrapped
    so that it runs only between the acquisition and the release of one
    of the permits of [asyncio.Semaphore(5)].  A wrapper is either
    waiting for a permit or running (it holds a permit and its
    [evaluate_file] is in flight); when it completes, its result is
    appended to [file_evaluations]. *)

Record sched : Type := mk_sched
  { waiting : list Path;
    running : list Path;
    permits : Z;
    file_evaluations : list FileEvaluation.t }.

Definition semaphore_limit : Z := 5.

Definition start (tasks : list Path) : sched :=
  {| waiting := tasks; running := []; permits := semaphore_limit;
     file_evaluations := [] |}.

Variable deployment_name : string.
Variable folder_path : Path.

Inductive step : sched -> sched -> Prop :=
| step_acquire (w1 w2 r : list Path) (t : Path) (k : Z)
    (evs : list FileEvaluation.t) :
    0 < k ->
    step (mk_sched (w1 ++ t :: w2)%list r k evs)
         (mk_sched (w1 ++ w2)%list (r ++ [t])%list (k - 1) evs)
| step_complete (w r1 r2 : list Path) (t : Path) (k : Z)
    (evs : list FileEvaluation.t) (evaluation : FileEvaluation.t) :
    evaluate_file t deployment_name folder_path = Ok evaluation ->
    step (mk_sched w (r1 ++ t :: r2)%list k evs)
         (mk_sched w (r1 ++ r2)%list (k + 1) (evs ++ [evaluation])%list).

Inductive steps : sched -> sched -> Prop :=
| steps_refl (s : sched) : steps s s
| steps_step (s1 s2 s3 : sched) : step s1 s2 -> steps s2 s3 -> steps s1 s3.

Definition finished (s : sched) : Prop := waiting s = [] /\ running s = [].

(** What the loop over [asyncio.as_completed] ends with: the collected
    evaluations once every wrapper is done, or the exception of a
    coroutine that raised. *)
Inductive gathers : sched -> result (list FileEvaluation.t) -> Prop :=
| gathers_done (s : sched) :
    finished s -> gathers s (Ok (file_evaluations s))
| gathers_raise (s : sched) (r1 r2 : list Path) (t : Path) (e : exn) :
    running s = (r1 ++ t :: r2)%list ->
    evaluate_file t deployment_name folder_path = Raise e ->
    gathers s (Raise e)
| gathers_step (s s' : sched) (out : result (list FileEvaluation.t)) :
    step s s' -> gathers s' out -> gathers s out.

(** The files of a run all have an evaluation. *)
Definition all_evaluate (files : list Path) : Prop :=
  forall t, In t files -> exists evaluation,
      evaluate_file t deployment_name folder_path = Ok evaluation.

(** What holds of every state of a run over [files]: the permits and the
    running wrappers add up to the limit, and the files split into those
    waiting, those running and those done, the latter with their
    evaluations collected in order of completion. *)
Definition invariant (files : list Path) (s : sched) : Prop :=
  permits s + len (running s) = semaphore_limit /\
  0 <= permits s /\
  exists done,
    Permutation (waiting s ++ running s ++ done)%list files /\
    Forall2 (fun t evaluation =>
               evaluate_file t deployment_name folder_path = Ok evaluation)
      done (file_evaluations s).

(** One schedule, to run the model: admit while a permit is free, else
    complete the wrapper that has been running the longest. *)
Fixpoint run_fifo (fuel : nat) (s : sched) : result (list FileEvaluation.t) :=
  match fuel with
  | O => Ok (file_evaluations s)
  | S fuel' =>
      match waiting s, 0 <? permits s with
      | t :: w, true =>
          run_fifo fuel' (mk_sched w (running s ++ [t])%list (permits s - 1)
                            (file_evaluations s))
      | _, _ =>
          match running s with
          | t :: r =>
              evaluation <- evaluate_file t deployment_name folder_path ;;
              run_fifo fuel' (mk_sched (waiting s) r (permits s + 1)
                                (file_evaluations s ++ [evaluation])%list)
          | [] => Ok (file_evaluations s)
          end
      end
  end.

Definition no_files : OverallEvaluation.t :=
  {| OverallEvaluation.score := 1;
     OverallEvaluation.reason := "No code files found to evaluate";
     OverallEvaluation.total_files := 0;
     OverallEvaluation.file_evaluations := [] |}.

(** [evaluate_folder], as the relation between the folder and what a run
    over it may return. *)
Definition evaluate_folder (fs : node)
    (exclude_extensions exclude_folders : option (list string))
    (out : result OverallEvaluation.t) : Prop :=
  let code_files := get_code_files fs folder_path exclude_extensions exclude_folders in
  match code_files with
  | [] => out = Ok no_files
  | _ :: _ =>
      exists collected,
        gathers (start code_files) collected /\
        out = (evs <- collected ;; calculate_overall_score evs)
  end.

(** The same with the schedule of [run_fifo]. *)
Definition evaluate_folder_fifo (fs : node)
    (exclude_extensions exclude_folders : option (list string))
  : result OverallEvaluation.t :=
  let code_files := get_code_files fs folder_path exclude_extensions exclude_folders in
  match code_files with
  | [] => Ok no_files
  | _ :: _ =>
      evs <- run_fifo (2 * List.length code_files) (start code_files) ;;
      calculate_overall_score evs
  end.

End Evaluator.

(** ** A decoder for ASCII JSON text

    [json.loads] is a parameter of the evaluator.  This is the decoder
    used to run it: the grammar of Python's [json] module on ASCII text
    (messages of [JSONDecodeError] carry no position here).  An escape
    [\uXXXX] above [007F] is not decoded. *)

Module Json.

Definition chars : Type := list ascii.

Definition decode_error (msg : string) : exn := mk_exn "JSONDecodeError" msg.

Definition is_ws (c : ascii) : bool :=
  let n := nat_of_ascii c in
  ((n =? 32) || (n =? 9) || (n =? 10) || (n =? 13))%nat.

Fixpoint skip_ws (l : chars) : chars :=
  match l with
  | c :: l' => if is_ws c then skip_ws l' else l
  | [] => []
  end.

Fixpoint take_digits (l : chars) : chars * chars :=
  match l with
  | c :: l' =>
      if is_digit c then let (d, r) := take_digits l' in (c :: d, r)
      else ([], l)
  | [] => ([], [])
  end.

Definition digits_to_Z (d : chars) : Z :=
  fold_left (fun acc c => 10 * acc + digit_value c) d 0.

(** The integer part: [0] or a digit sequence without leading zero. *)
Definition take_int_part (l : chars) : option (chars * chars) :=
  match l with
  | "0"%char :: r => Some (["0"%char], r)
  | c :: _ =>
      if is_digit c then Some (take_digits l) else None
  | [] => None
  end.

(** [(\.\d+)?] *)
Definition take_frac (l : chars) : option chars * chars :=
  match l with
  | "."%char :: r =>
      match take_digits r with
      | ([], _) => (None, l)
      | (d, r') => (Some d, r')
      end
  | _ => (None, l)
  end.

(** [([eE][-+]?\d+)?] *)
Definition take_exp (l : chars) : option Z * chars :=
  match l with
  | c :: r =>
      if Ascii.eqb c "e"%char || Ascii.eqb c "E"%char then
        match r with
        | "-"%char :: r1 =>
            match take_digits r1 with
            | ([], _) => (None, l)
            | (d, r') => (Some (- digits_to_Z d), r')
            end
        | "+"%char :: r1 =>
            match take_digits r1 with
            | ([], _) => (None, l)
            | (d, r') => (Some (digits_to_Z d), r')
            end
        | _ =>
            match take_digits r with
            | ([], _) => (None, l)
            | (d, r') => (Some (digits_to_Z d), r')
            end
        end
      else (None, l)
  | [] => (None, l)
  end.

(** [float(text)] for digits [d], a fraction of [k] digits already
    folded into [d], and a decimal exponent. *)
Definition float_of_decimal (negative : bool) (d : Z) (k : Z) (ex : Z)
  : Float64.float :=
  let e10 := ex - k in
  let f := if 0 <=? e10 then Float64.round_q (d * 10 ^ e10) 1
           else Float64.round_q d (10 ^ (- e10)) in
  if negative then Float64.fneg f else f.

Definition parse_number (l : chars) : option (result py_value * chars) :=
  let (negative, l1) :=
    match l with
    | "-"%char :: r => (true, r)
    | _ => (false, l)
    end in
  match take_int_part l1 with
  | None => None
  | Some (ip, r1) =>
      let (frac, r2) := take_frac r1 in
      let (ex, r3) := take_exp r2 in
      match frac, ex with
      | None, None =>
          (* [int(text)], with its limit on the number of digits *)
          Some (z <- int_of_str (string_of_list_ascii
                                   (if negative then "-"%char :: ip else ip)) ;;
                Ok (PyInt z),
                r3)
      | _, _ =>
          let fd := match frac with Some d => d | None => [] end in
          let e := match ex with Some e => e | None => 0 end in
          Some (Ok (PyFloat (float_of_decimal negative
                               (digits_to_Z (ip ++ fd)%list) (len fd) e)), r3)
      end
  end.

Definition hex_value (c : ascii) : option nat :=
  let n := nat_of_ascii c in
  if ((48 <=? n) && (n <=? 57))%nat then Some (n - 48)%nat
  else if ((97 <=? n) && (n <=? 102))%nat then Some (n - 87)%nat
  else if ((65 <=? n) && (n <=? 70))%nat then Some (n - 55)%nat
  else None.

(** The characters of a string, after the opening quote. *)
Fixpoint parse_string (fuel : nat) (l : chars) : result (string * chars) :=
  match fuel with
  | O => Raise (decode_error "Unterminated string")
  | S fuel' =>
      match l with
      | [] => Raise (decode_error "Unterminated string starting at")
      | "034"%char :: r => Ok (EmptyString, r)
      | "\"%char :: e :: r =>
          let continue (c : ascii) (rest : chars) :=
            sr <- parse_string fuel' rest ;; Ok (String c (fst sr), snd sr) in
          if Ascii.eqb e "034"%char then continue "034"%char r
          else if Ascii.eqb e "\"%char then continue "\"%char r
          else if Ascii.eqb e "/"%char then continue "/"%char r
          else if Ascii.eqb e "b"%char then continue "008"%char r
          else if Ascii.eqb e "f"%char then continue "012"%char r
          else if Ascii.eqb e "n"%char then continue "010"%char r
          else if Ascii.eqb e "r"%char then continue "013"%char r
          else if Ascii.eqb e "t"%char then continue "009"%char r
          else if Ascii.eqb e "u"%char then
            match r with
            | h1 :: h2 :: h3 :: h4 :: r' =>
                match hex_value h1, hex_value h2, hex_value h3, hex_value h4 with
                | Some a, Some b, Some c, Some d =>
                    let code := (((a * 16 + b) * 16 + c) * 16 + d)%nat in
                    if (code <? 256)%nat then continue (ascii_of_nat code) r'
                    else Raise (mk_exn "NotImplementedError"
                                  "escape above 00FF")
                | _, _, _, _ => Raise (decode_error "Invalid \uXXXX escape")
                end
            | _ => Raise (decode_error "Invalid \uXXXX escape")
            end
          else Raise (decode_error "Invalid \escape")
      | "\"%char :: [] => Raise (decode_error "Unterminated string starting at")
      | c :: r =>
          if (nat_of_ascii c <? 32)%nat
          then Raise (decode_error "Invalid control character at")
          else sr <- parse_string fuel' r ;; Ok (String c (fst sr), snd sr)
      end
  end.

(** [d[k] = v] on the items of a dict: a key keeps its first position. *)
Fixpoint dict_set (d : list (string * py_value)) (k : string) (v : py_value)
  : list (string * py_value) :=
  match d with
  | [] => [(k, v)]
  | (k', v') :: d' =>
      if (k' =? k)%string then (k, v) :: d' else (k', v') :: dict_set d' k v
  end.

Definition starts_with (p : string) (l : chars) : option chars :=
  let pl := list_ascii_of_string p in
  if String.eqb (string_of_list_ascii (firstn (List.length pl) l)) p
  then Some (skipn (List.length pl) l) else None.

Fixpoint parse_value (fuel : nat) (l : chars) : result (py_value * chars) :=
  match fuel with
  | O => Raise (mk_exn "RecursionError" "maximum recursion depth exceeded")
  | S fuel' =>
      match l with
      | "034"%char :: r =>
          sr <- parse_string (S (List.length r)) r ;; Ok (PyStr (fst sr), snd sr)
      | "{"%char :: r =>
          match skip_ws r with
          | "}"%char :: r' => Ok (PyDict [], r')
          | r' => parse_members fuel' r' []
          end
      | "["%char :: r =>
          match skip_ws r with
          | "]"%char :: r' => Ok (PyList [], r')
          | r' => parse_elements fuel' r' []
          end
      | _ =>
          match starts_with "null" l, starts_with "true" l, starts_with "false" l with
          | Some r, _, _ => Ok (PyNone, r)
          | _, Some r, _ => Ok (PyBool true, r)
          | _, _, Some r => Ok (PyBool false, r)
          | _, _, _ =>
              match parse_number l with
              | Some (number, r) => v <- number ;; Ok (v, r)
              | None =>
                  match starts_with "NaN" l, starts_with "Infinity" l,
                        starts_with "-Infinity" l with
                  | Some r, _, _ => Ok (PyFloat Float64.FNaN, r)
                  | _, Some r, _ => Ok (PyFloat (Float64.FInf false), r)
                  | _, _, Some r => Ok (PyFloat (Float64.FInf true), r)
                  | _, _, _ => Raise (decode_error "Expecting value")
                  end
              end
          end
      end
  end
with parse_elements (fuel : nat) (l : chars) (acc : list py_value)
  : result (py_value * chars) :=
  match fuel with
  | O => Raise (mk_exn "RecursionError" "maximum recursion depth exceeded")
  | S fuel' =>
      vr <- parse_value fuel' l ;;
      match skip_ws (snd vr) with
      | "]"%char :: r => Ok (PyList (acc ++ [fst vr])%list, r)
      | ","%char :: r => parse_elements fuel' (skip_ws r) (acc ++ [fst vr])%list
      | _ => Raise (decode_error "Expecting ',' delimiter")
      end
  end
with parse_members (fuel : nat) (l : chars) (acc : list (string * py_value))
  : result (py_value * chars) :=
  match fuel with
  | O => Raise (mk_exn "RecursionError" "maximum recursion depth exceeded")
  | S fuel' =>
      match l with
      | "034"%char :: r =>
          kr <- parse_string (S (List.length r)) r ;;
          match skip_ws (snd kr) with
          | ":"%char :: r1 =>
              vr <- parse_value fuel' (skip_ws r1) ;;
              let acc' := dict_set acc (fst kr) (fst vr) in
              match skip_ws (snd vr) with
              | "}"%char :: r2 => Ok (PyDict acc', r2)
              | ","%char :: r2 => parse_members fuel' (skip_ws r2) acc'
              | _ => Raise (decode_error "Expecting ',' delimiter")
              end
          | _ => Raise (decode_error "Expecting ':' delimiter")
          end
      | _ => Raise (decode_error
                      "Expecting property name enclosed in double quotes")
      end
  end.

(** [json.loads(text)]. *)
Definition loads (text : string) : result py_value :=
  let l := skip_ws (list_ascii_of_string text) in
  vr <- parse_value (3 * List.length l + 3) l ;;
  match skip_ws (snd vr) with
  | [] => Ok (fst vr)
  | _ => Raise (decode_error "Extra data")
  end.

End Json.

(** ** A sample world *)

(** A small world to run the definitions in: one file system, a reader
    that always succeeds, a completion service with a fixed answer. *)
Definition sample_fs : node :=
  Dir [ (".env", File 10); ("a.py", File 0); ("a.txt", File 5);
        ("b.PY", File 3);
        ("node_modules", Dir [("x.js", File 9)]);
        ("src", Dir [("main.rs", File 7);
                     ("lib", Dir [("u.ts", File 1); ("sock", Special)])]) ].

Definition sample_read_text (_ : Path) : result string := Ok "print(1)".

Definition answering (text : string)
  : Path -> string -> list (string * string) -> result response :=
  fun _ _ _ => Ok (mk_response [Some text]).

Definition failing (e : exn)
  : Path -> string -> list (string * string) -> result response :=
  fun _ _ _ => Raise e.

(** A service that scores Rust files 9, TypeScript files 2 and every
    other file 6. *)
Definition answering_by_suffix
  : Path -> string -> list (string * string) -> result response :=
  fun file_path _ _ =>
    Ok (mk_response
          [Some (if (suffix file_path =? ".rs")%string then q "{'score': 9}"
                 else if (suffix file_path =? ".ts")%string then q "{'score': 2}"
                 else q "{'score': 6}")]).

(** The evaluation of a sample file with the placeholder reason. *)
Definition scored (filename : string) (score : Z) (file_type : string)
  : FileEvaluation.t :=
  {| FileEvaluation.filename := filename; FileEvaluation.score := score;
     FileEvaluation.reason := PyStr "No reason provided";
     FileEvaluation.file_type := file_type |}.

Definition sample_evaluation (s : Z) : FileEvaluation.t :=
  {| FileEvaluation.filename := "f.py"; FileEvaluation.score := s;
     FileEvaluation.reason := PyStr "r"; FileEvaluation.file_type := ".py" |}.

(** The parse-failure fallback as the specification states it (C1): whenever the reply does not
    decode to a JSON object, the evaluation has score 5 and a reason made
    of the parse-failure indicator and a prefix of the reply. *)
Definition object_shaped (r : result py_value) : Prop :=
  exists d, r = Ok (PyDict d).

Definition parse_failure_as_stated : Prop :=
  forall (read_text : Path -> result string)
         (chat : Path -> string -> list (string * string) -> result response)
         (json_loads : string -> result py_value)
         (file_path : Path) (deployment_name : string) (base_path rel : Path)
         (text : string),
    relative_to file_path base_path = Ok rel ->
    reply_text read_text chat file_path deployment_name = Ok text ->
    ~ object_shaped (json_loads text) ->
    exists evaluation,
      evaluate_file read_text chat json_loads file_path deployment_name base_path
      = Ok evaluation /\
      FileEvaluation.score evaluation = 5 /\
      exists k, FileEvaluation.reason evaluation
                = PyStr (parse_fallback_prefix ++ slice_to k text)%string.

(** The selection rule as the specification states it (C6): the
    extension is compared without regard to case, with the allow-list
    and with the caller's exclusion set alike. *)
Definition same_ignoring_case (a b : string) : Prop := lower a = lower b.

Definition stated_selected (ee ef : option (list string)) (p : Path) (n : node)
  : Prop :=
  (exists sz, n = File sz /\ 0 < sz) /\
  (exists x, In x CODE_EXTENSIONS /\ same_ignoring_case (suffix p) x) /\
  ~ (exists x, In x (elements ee) /\ same_ignoring_case (suffix p) x) /\
  forall seg, In seg (parts p) ->
    startswith_dot seg = false /\
    ~ In seg default_exclusions /\ ~ In seg (elements ef).

Definition selection_as_stated : Prop :=
  forall (fs : node) (folder_path : Path)
         (exclude_extensions exclude_folders : option (list string))
         (p : Path),
    In p (get_code_files fs folder_path exclude_extensions exclude_folders) <->
    exists n, In (p, n) (rglob folder_path fs) /\
              stated_selected exclude_extensions exclude_folders p n.

(** The clamping of a parsed score as the specification states it (C4):
    whenever the reply decodes to an object whose score is a number, the
    recorded score is that number pulled to the nearest bound of
    [1, 10].  A number is given by a numerator and a positive
    denominator, so that "the score [s] is the number [num / den]
    clamped" reads [s * den = max (1 * den) (min (10 * den) num)]. *)
Definition number_value (v : py_value) : option (Z * Z) :=
  match v with
  | PyInt z => Some (z, 1)
  | PyFloat (Float64.FFinite m e) => Some (Float64.num_den m e)
  | _ => None
  end.

Definition parsed_score_as_stated : Prop :=
  forall (read_text : Path -> result string)
         (chat : Path -> string -> list (string * string) -> result response)
         (json_loads : string -> result py_value)
         (file_path : Path) (deployment_name : string) (base_path rel : Path)
         (text : string) (d : list (string * py_value)) (v : py_value)
         (num den : Z),
    relative_to file_path base_path = Ok rel ->
    reply_text read_text chat file_path deployment_name = Ok text ->
    json_loads text = Ok (PyDict d) ->
    dict_lookup d "score" = Some v ->
    number_value v = Some (num, den) ->
    exists evaluation,
      evaluate_file read_text chat json_loads file_path deployment_name base_path
      = Ok evaluation /\
      FileEvaluation.score evaluation * den
      = Z.max (1 * den) (Z.min (10 * den) num).

(** [p.absolute()] for a process whose working directory is [cwd]. *)
Definition absolute (cwd p : Path) : Path :=
  if is_absolute p then p else joinpath cwd p.

(** The emptiness under a hidden root as the specification states it
    (C10): in terms of the root's absolute path. *)
Definition hidden_root_as_stated : Prop :=
  forall (cwd : Path) (fs : node) (folder_path : Path)
         (exclude_extensions exclude_folders : option (list string))
         (seg : string),
    In seg (parts (absolute cwd folder_path)) ->
    startswith_dot seg = true \/ In seg default_exclusions ->
    get_code_files fs folder_path exclude_extensions exclude_folders = [].

(** ** What a run reports of an overall evaluation *)

(** The three fields of an overall evaluation that do not depend on the
    order in which the evaluations were collected. *)
Definition summary (o : OverallEvaluation.t) : Z * string * Z :=
  (OverallEvaluation.score o, OverallEvaluation.reason o,
   OverallEvaluation.total_files o).

(** ** Reporting: [print_results] *)

(** [sorted(l, key=lambda x: x.score, reverse=True)].  The sort is
    stable, also when reversed: evaluations of equal score keep the
    order they had. *)
Fixpoint insert_by_score (e : FileEvaluation.t) (l : list FileEvaluation.t)
  : list FileEvaluation.t :=
  match l with
  | [] => [e]
  | x :: l' =>
      if FileEvaluation.score x <=? FileEvaluation.score e then e :: l
      else x :: insert_by_score e l'
  end.

Definition sorted_by_score (l : list FileEvaluation.t) : list FileEvaluation.t :=
  fold_right insert_by_score [] l.

(** [c * n] for a string [c]. *)
Definition times (c : string) (n : nat) : string := String.concat "" (repeat c n).

Section Reporting.

(** What an f-string inserts for a reason: [format(v, '')], for a [str]
    the string itself. *)
Variable format_value : py_value -> string.

(** The lines echoed before the individual scores. *)
Definition report_header (evaluation : OverallEvaluation.t) : list string :=
  [ (nl ++ times "=" 80)%string;
    "AI CODE GENERATION EVALUATION RESULTS";
    times "=" 80;
    (nl ++ "OVERALL SCORE: " ++ str_of_int (OverallEvaluation.score evaluation)
     ++ "/10")%string;
    ("REASON: " ++ OverallEvaluation.reason evaluation)%string;
    ("TOTAL FILES ANALYZED: "
     ++ str_of_int (OverallEvaluation.total_files evaluation))%string ].

(** The lines echoed for one file. *)
Definition file_lines (e : FileEvaluation.t) : list string :=
  [ (nl ++ "File: " ++ FileEvaluation.filename e)%string;
    ("Score: " ++ str_of_int (FileEvaluation.score e) ++ "/10")%string;
    ("Type: " ++ FileEvaluation.file_type e)%string;
    ("Reason: " ++ format_value (FileEvaluation.reason e))%string;
    times "-" 40 ].

(** [print_results]: the lines it echoes, in order. *)
Definition print_results (evaluation : OverallEvaluation.t) : list string :=
  (report_header evaluation
   ++ match OverallEvaluation.file_evaluations evaluation with
      | [] => []
      | _ :: _ =>
          [ (nl ++ "INDIVIDUAL FILE SCORES:")%string; times "-" 80 ]
          ++ flat_map file_lines
               (sorted_by_score (OverallEvaluation.file_evaluations evaluation))
      end)%list.

End Reporting.

(** ** Pull-request download: the coordinates and the target paths of
       [download_pr_changes] *)

Module ADOService.

Fixpoint lstrip_char (c : ascii) (l : list ascii) : list ascii :=
  match l with
  | x :: l' => if Ascii.eqb x c then lstrip_char c l' else l
  | [] => []
  end.

(** [s.lstrip(c)] and [s.strip(c)] for a one-character [c]. *)
Definition lstrip (c : ascii) (s : string) : string :=
  string_of_list_ascii (lstrip_char c (list_ascii_of_string s)).

Definition strip (c : ascii) (s : string) : string :=
  string_of_list_ascii
    (rev (lstrip_char c (rev (lstrip_char c (list_ascii_of_string s))))).

(** [s.split(c)] for a one-character [c]: never empty. *)
Fixpoint str_split (c : ascii) (s : string) : list string :=
  match s with
  | EmptyString => [EmptyString]
  | String a s' =>
      if Ascii.eqb a c then EmptyString :: str_split c s'
      else match str_split c s' with
           | h :: t => String a h :: t
           | [] => [String a EmptyString]
           end
  end.

(** [l[i]] for an index that is not negative. *)
Definition item (l : list string) (i : nat) : result string :=
  match nth_error l i with
  | Some x => Ok x
  | None => Raise (mk_exn "IndexError" "list index out of range")
  end.

(** The two fields of [urlparse(pr_url)] the function reads. *)
Record ParseResult : Type := mk_ParseResult { netloc : string; path : string }.

(** The first lines of [download_pr_changes]: organization, project,
    repository and pull-request id, read off the parsed URL. *)
Definition pr_coordinates (parsed_url : ParseResult)
  : result (string * string * string * Z) :=
  let path_parts := str_split "/" (strip "/" (path parsed_url)) in
  organization <- item (str_split "." (netloc parsed_url)) 0 ;;
  project <- item path_parts 0 ;;
  repo_name <- item path_parts 2 ;;
  pr_id_text <- item path_parts 4 ;;
  pr_id <- int_of_str pr_id_text ;;
  Ok (organization, project, repo_name, pr_id).

Definition startswith (c : ascii) (s : string) : bool :=
  match s with
  | String a _ => Ascii.eqb a c
  | EmptyString => false
  end.

Definition endswith (c : ascii) (s : string) : bool :=
  match rev (list_ascii_of_string s) with
  | a :: _ => Ascii.eqb a c
  | [] => false
  end.

(** [os.path.join(a, b)] of [posixpath]. *)
Definition os_path_join (a b : string) : string :=
  if startswith "/" b then b
  else if (a =? "")%string || endswith "/" a then (a ++ b)%string
  else (a ++ "/" ++ b)%string.

(** Where a changed file is written:
    [os.path.join(temp_dir, file_path.lstrip('/'))]. *)
Definition full_path (temp_dir file_path : string) : string :=
  os_path_join temp_dir (lstrip "/" file_path).

End ADOService.

(** * Properties *)

(** ** Rounding facts *)

Module Float64Facts.
Import Float64.

Lemma rne_div_bounds (a b : Z) :
  0 < b -> 2 * rne_div a b * b - b <= 2 * a <= 2 * rne_div a b * b + b.
Proof.
  intros Hb. unfold rne_div.
  pose proof (Z.div_mod a b ltac:(lia)) as Hdm.
  pose proof (Z.mod_pos_bound a b Hb) as Hr.
  destruct (2 * (a mod b) <? b) eqn:E1; [apply Z.ltb_lt in E1; nia|].
  apply Z.ltb_ge in E1.
  destruct (b <? 2 * (a mod b)) eqn:E2; [apply Z.ltb_lt in E2; nia|].
  apply Z.ltb_ge in E2.
  destruct (Z.even (a / b)); nia.
Qed.

(** Strictly inside a rounding interval there is no choice. *)
Lemma rne_div_unique (a b m : Z) :
  0 < b -> 2 * m * b - b < 2 * a < 2 * m * b + b -> rne_div a b = m.
Proof.
  intros Hb H. pose proof (rne_div_bounds a b Hb) as Hs.
  set (r := rne_div a b) in *.
  assert (r < m + 1) by nia. assert (m - 1 < r) by nia. lia.
Qed.

Lemma rne_div_exact (m b : Z) : 0 < b -> rne_div (m * b) b = m.
Proof. intros Hb. apply rne_div_unique; [assumption|nia]. Qed.

(** On a tie the even neighbour is taken. *)
Lemma rne_div_tie (a b k : Z) :
  0 < b -> 2 * a = (2 * k + 1) * b ->
  rne_div a b = if Z.even k then k else k + 1.
Proof.
  intros Hb H. unfold rne_div.
  assert (Hq : a / b = k).
  { symmetry. apply (Z.div_unique_pos a b k (a - k * b)); nia. }
  assert (Hr : a mod b = a - k * b).
  { symmetry. apply (Z.mod_unique_pos a b k (a - k * b)); nia. }
  rewrite Hq, Hr.
  destruct (2 * (a - k * b) <? b) eqn:E1; [apply Z.ltb_lt in E1; nia|].
  destruct (b <? 2 * (a - k * b)) eqn:E2; [apply Z.ltb_lt in E2; nia|].
  reflexivity.
Qed.

Lemma rne_div_mono (a a' b : Z) :
  0 < b -> a <= a' -> rne_div a b <= rne_div a' b.
Proof.
  intros Hb Hle.
  destruct (Z.le_gt_cases (rne_div a b) (rne_div a' b)) as [|Hgt]; [assumption|].
  exfalso.
  pose proof (rne_div_bounds a b Hb) as H1.
  pose proof (rne_div_bounds a' b Hb) as H2.
  set (r := rne_div a b) in *. set (r' := rne_div a' b) in *.
  assert (Hr : r = r' + 1) by nia.
  assert (Ha : a = a') by nia.
  subst r r'. rewrite Ha in Hr. lia.
Qed.

(** [ge_pow2] with both sides scaled by a common power of two. *)
Lemma ge_pow2_shift (p q d N : Z) :
  0 <= N -> 0 <= d + N ->
  ge_pow2 p q d = true <-> q * 2 ^ (d + N) <= p * 2 ^ N.
Proof.
  intros HN HdN. unfold ge_pow2.
  assert (HpN : 0 < 2 ^ N) by (apply Z.pow_pos_nonneg; lia).
  destruct (0 <=? d) eqn:E.
  - apply Z.leb_le in E. rewrite Z.leb_le, (Z.pow_add_r 2 d N) by lia.
    assert (0 < 2 ^ d) by (apply Z.pow_pos_nonneg; lia).
    split; intros; nia.
  - apply Z.leb_gt in E. rewrite Z.leb_le.
    assert (HN' : 2 ^ N = 2 ^ (- d) * 2 ^ (d + N)).
    { rewrite <- Z.pow_add_r by lia. f_equal. lia. }
    rewrite HN'.
    assert (0 < 2 ^ (d + N)) by (apply Z.pow_pos_nonneg; lia).
    assert (0 < 2 ^ (- d)) by (apply Z.pow_pos_nonneg; lia).
    split; intros; nia.
Qed.

Lemma ge_pow2_antitone (p q d d' : Z) :
  0 < q -> d <= d' -> ge_pow2 p q d' = true -> ge_pow2 p q d = true.
Proof.
  intros Hq Hle H.
  set (N := Z.abs d + Z.abs d').
  apply (ge_pow2_shift p q d' N) in H; [|lia|lia].
  apply (ge_pow2_shift p q d N); [lia|lia|].
  assert (2 ^ (d + N) <= 2 ^ (d' + N)) by (apply Z.pow_le_mono_r; lia).
  nia.
Qed.

Lemma ge_pow2_log2 (p q : Z) :
  0 < p -> 0 < q ->
  ge_pow2 p q (Z.log2 p - Z.log2 q - 1) = true /\
  ge_pow2 p q (Z.log2 p - Z.log2 q + 1) = false.
Proof.
  intros Hp Hq.
  pose proof (Z.log2_spec p Hp) as [Hp1 Hp2].
  pose proof (Z.log2_spec q Hq) as [Hq1 Hq2].
  pose proof (Z.log2_nonneg p) as Hlp. pose proof (Z.log2_nonneg q) as Hlq.
  set (lp := Z.log2 p) in *. set (lq := Z.log2 q) in *.
  rewrite Z.pow_succ_r in Hp2, Hq2 by lia.
  assert (0 < 2 ^ lp) by (apply Z.pow_pos_nonneg; lia).
  assert (0 < 2 ^ lq) by (apply Z.pow_pos_nonneg; lia).
  split.
  - apply (ge_pow2_shift p q _ (lq + 1)); [lia|lia|].
    replace (lp - lq - 1 + (lq + 1)) with lp by lia.
    rewrite Z.pow_add_r by lia. change (2 ^ 1) with 2. nia.
  - destruct (ge_pow2 p q (lp - lq + 1)) eqn:E; [|reflexivity]. exfalso.
    apply (ge_pow2_shift p q _ lq) in E; [|lia|lia].
    replace (lp - lq + 1 + lq) with (lp + 1) in E by lia.
    rewrite Z.pow_add_r in E by lia. change (2 ^ 1) with 2 in E. nia.
Qed.

(** [ilog2_ratio] is the exponent of the binade that holds [p / q]. *)
Lemma ilog2_ratio_unique (p q L : Z) :
  0 < p -> 0 < q ->
  ge_pow2 p q L = true -> ge_pow2 p q (L + 1) = false ->
  ilog2_ratio p q = L.
Proof.
  intros Hp Hq HL HL1.
  destruct (ge_pow2_log2 p q Hp Hq) as [Hlo Hhi].
  unfold ilog2_ratio. set (d := Z.log2 p - Z.log2 q) in *.
  assert (L <= d).
  { destruct (Z.le_gt_cases L d); [assumption|]. exfalso.
    rewrite (ge_pow2_antitone p q (d + 1) L Hq ltac:(lia) HL) in Hhi.
    discriminate. }
  assert (d - 1 <= L).
  { destruct (Z.le_gt_cases (d - 1) L); [assumption|]. exfalso.
    rewrite (ge_pow2_antitone p q (L + 1) (d - 1) Hq ltac:(lia) Hlo) in HL1.
    discriminate. }
  destruct (ge_pow2 p q d) eqn:E.
  - destruct (Z.eq_dec L d) as [|Hne]; [congruence|].
    assert (L + 1 = d) by lia. congruence.
  - destruct (Z.eq_dec L d) as [He|Hne]; [congruence|lia].
Qed.

(** In a binade [2^L <= p/q < 2^(L+1)] with [-1022 <= L <= 51] the
    rounding keeps 53 bits: the result is
    [rne (p * 2^(52-L) / q) * 2^(L-52)]. *)
Lemma round_pos_binade (p q L : Z) :
  0 < p -> 0 < q -> -1022 <= L <= 51 ->
  q * 2 ^ 52 <= p * 2 ^ (52 - L) -> p * 2 ^ (52 - L) < q * 2 ^ 53 ->
  round_pos p q = FFinite (rne_div (p * 2 ^ (52 - L)) q) (L - 52).
Proof.
  intros Hp Hq HL Hlo Hhi.
  assert (HL0 : ge_pow2 p q L = true).
  { apply (ge_pow2_shift p q L (52 - L)); [lia|lia|].
    replace (L + (52 - L)) with 52 by lia. assumption. }
  assert (HL1 : ge_pow2 p q (L + 1) = false).
  { destruct (ge_pow2 p q (L + 1)) eqn:E; [|reflexivity]. exfalso.
    apply (ge_pow2_shift p q (L + 1) (52 - L)) in E; [|lia|lia].
    replace (L + 1 + (52 - L)) with 53 in E by lia. lia. }
  unfold round_pos. rewrite (ilog2_ratio_unique p q L Hp Hq HL0 HL1).
  rewrite Z.max_l by lia.
  unfold scaled. destruct (0 <=? L - 52) eqn:E; [apply Z.leb_le in E; lia|].
  replace (- (L - 52)) with (52 - L) by lia.
  set (m := rne_div (p * 2 ^ (52 - L)) q).
  assert (Hm : m <= 2 ^ 53).
  { pose proof (rne_div_bounds (p * 2 ^ (52 - L)) q Hq) as Hb. fold m in Hb. nia. }
  assert (Hlog : Z.log2 m <= 53).
  { change 53 with (Z.log2 (2 ^ 53)) at 1. apply Z.log2_le_mono. exact Hm. }
  destruct (1024 <=? L - 52 + Z.log2 m) eqn:E2; [apply Z.leb_le in E2; lia|].
  reflexivity.
Qed.


(** Rounding [a / n] to a multiple of [1 / K] first and to an integer next
    gives the integer nearest to [a / n], as long as the grid is finer
    than [1 / n]. *)
Lemma double_round (a n K' : Z) :
  0 < n -> n < 2 * K' ->
  rne_div (rne_div (a * (2 * K')) n) (2 * K') = rne_div a n.
Proof.
  intros Hn HK.
  pose proof (rne_div_bounds a n Hn) as Hr.
  pose proof (rne_div_bounds (a * (2 * K')) n Hn) as Hm.
  set (r := rne_div a n) in *.
  assert (Htie : forall k, 2 * a = (2 * k + 1) * n ->
            rne_div (rne_div (a * (2 * K')) n) (2 * K') = rne_div a n).
  { intros k Hk.
    rewrite (rne_div_tie a n k Hn Hk).
    replace (a * (2 * K')) with ((2 * k + 1) * K' * n) by nia.
    rewrite rne_div_exact by assumption.
    apply rne_div_tie; [lia|nia]. }
  destruct (Z.eq_dec (2 * a) (2 * r * n + n)) as [E1|N1].
  { apply (Htie r). lia. }
  destruct (Z.eq_dec (2 * a) (2 * r * n - n)) as [E2|N2].
  { apply (Htie (r - 1)). lia. }
  set (m := rne_div (a * (2 * K')) n) in *.
  apply rne_div_unique; [lia|]. nia.
Qed.

(** The quotient of two [int]s whose value lies in [[1, 16)], rounded by
    [round]: the float in between does not change the answer. *)
Lemma true_div_round (t n : Z) :
  0 < n < 2 ^ 48 -> n <= t < 16 * n ->
  exists f, true_div t n = Ok f /\ py_round f = Ok (rne_div t n).
Proof.
  intros Hn Ht.
  assert (HL : exists L, 0 <= L <= 3 /\ n * 2 ^ L <= t < n * 2 ^ (L + 1)).
  { destruct (Z_lt_le_dec t (2 * n)); [exists 0; simpl; lia|].
    destruct (Z_lt_le_dec t (4 * n)); [exists 1; simpl; lia|].
    destruct (Z_lt_le_dec t (8 * n)); [exists 2; simpl; lia|].
    exists 3; simpl; lia. }
  destruct HL as (L & HL & Hlo & Hhi).
  assert (HK : 2 ^ (52 - L) = 2 * 2 ^ (51 - L)).
  { rewrite <- Z.pow_succ_r by lia. f_equal. lia. }
  assert (H52 : 2 ^ 52 = 2 ^ L * 2 ^ (52 - L)).
  { rewrite <- Z.pow_add_r by lia. f_equal. lia. }
  assert (H53 : 2 ^ 53 = 2 ^ (L + 1) * 2 ^ (52 - L)).
  { rewrite <- Z.pow_add_r by lia. f_equal. lia. }
  assert (HKpos : 0 < 2 ^ (52 - L)) by (apply Z.pow_pos_nonneg; lia).
  assert (HKbig : 2 ^ 49 <= 2 ^ (52 - L)) by (apply Z.pow_le_mono_r; lia).
  assert (Hround : round_pos t n
            = FFinite (rne_div (t * 2 ^ (52 - L)) n) (L - 52)).
  { apply round_pos_binade; [lia|lia|lia| |].
    - rewrite H52. nia.
    - rewrite H53. nia. }
  exists (FFinite (rne_div (t * 2 ^ (52 - L)) n) (L - 52)). split.
  - unfold true_div.
    destruct (n =? 0) eqn:E0; [apply Z.eqb_eq in E0; lia|].
    destruct (0 <? n) eqn:E1; [|apply Z.ltb_ge in E1; lia].
    unfold round_q.
    destruct (t =? 0) eqn:E2; [apply Z.eqb_eq in E2; lia|].
    destruct (0 <? t) eqn:E3; [|apply Z.ltb_ge in E3; lia].
    rewrite Hround. reflexivity.
  - unfold py_round.
    destruct (0 <=? L - 52) eqn:E; [apply Z.leb_le in E; lia|].
    replace (- (L - 52)) with (52 - L) by lia.
    rewrite HK. rewrite double_round; [reflexivity|lia|].
    rewrite <- HK. change (2 ^ 48) with 281474976710656 in Hn.
    change (2 ^ 49) with 562949953421312 in HKbig. lia.
Qed.

Lemma rne_div_cancel (a b c : Z) :
  0 < b -> 0 < c -> rne_div (a * c) (b * c) = rne_div a b.
Proof.
  intros Hb Hc.
  pose proof (rne_div_bounds a b Hb) as Hr.
  set (r := rne_div a b) in *.
  assert (Htie : forall k, 2 * a = (2 * k + 1) * b ->
            rne_div (a * c) (b * c) = rne_div a b).
  { intros k Hk. rewrite (rne_div_tie a b k Hb Hk).
    apply rne_div_tie; nia. }
  destruct (Z.eq_dec (2 * a) (2 * r * b + b)) as [E1|N1].
  { apply (Htie r). lia. }
  destruct (Z.eq_dec (2 * a) (2 * r * b - b)) as [E2|N2].
  { apply (Htie (r - 1)). lia. }
  apply rne_div_unique; nia.
Qed.

Lemma lit_0_6_eq : lit_0_6 = FFinite c06 (-53).
Proof. reflexivity. Qed.

(** Comparing a count with the rounded product [n * 0.6] is comparing
    it with three fifths of [n]. *)
Lemma threshold_core (n h K m : Z) :
  0 < n < 2 ^ 53 -> 3 <= K -> n * c06 * K < 2 ^ 106 ->
  2 * m * 2 ^ 53 - 2 ^ 53 <= 2 * (n * c06 * K) <= 2 * m * 2 ^ 53 + 2 ^ 53 ->
  (m <? h * K) = (3 * n <? 5 * h).
Proof.
  unfold c06.
  change (2 ^ 53) with 9007199254740992.
  change (2 ^ 106) with 81129638414606681695789005144064.
  intros Hn HK Hhi Hm.
  set (X := n * K) in *.
  assert (HX : n * 5404319552844595 * K = 5404319552844595 * X)
    by (unfold X; ring).
  rewrite HX in *.
  assert (HXn : X < 9007199254740992 * K) by (unfold X; nia).
  assert (HXp : 0 < X) by (unfold X; nia).
  destruct (Z.ltb_spec (3 * n) (5 * h)) as [H|H].
  - assert (HY : 3 * X + K <= 5 * (h * K)) by (unfold X; nia).
    apply Z.ltb_lt. lia.
  - apply Z.ltb_ge.
    destruct (Z.eq_dec (3 * n) (5 * h)) as [E|N].
    + assert (HY : 3 * X = 5 * (h * K)) by (unfold X; nia). lia.
    + assert (HY : 5 * (h * K) + K <= 3 * X) by (unfold X; nia). lia.
Qed.

Lemma of_int_exact (n : Z) :
  0 < n < 2 ^ 52 ->
  of_int n = Ok (FFinite (n * 2 ^ (52 - Z.log2 n)) (Z.log2 n - 52)).
Proof.
  intros Hn.
  pose proof (Z.log2_spec n ltac:(lia)) as [Hl1 Hl2].
  pose proof (Z.log2_nonneg n) as Hl0.
  assert (Hl : Z.log2 n < 52).
  { apply Z.log2_lt_pow2; lia. }
  set (l := Z.log2 n) in *.
  assert (H52 : 2 ^ 52 = 2 ^ l * 2 ^ (52 - l)).
  { rewrite <- Z.pow_add_r by lia. f_equal. lia. }
  assert (H53 : 2 ^ 53 = 2 ^ (Z.succ l) * 2 ^ (52 - l)).
  { rewrite <- Z.pow_add_r by lia. f_equal. lia. }
  assert (HK : 0 < 2 ^ (52 - l)) by (apply Z.pow_pos_nonneg; lia).
  unfold of_int, round_q.
  destruct (n =? 0) eqn:E0; [apply Z.eqb_eq in E0; lia|].
  destruct (0 <? n) eqn:E1; [|apply Z.ltb_ge in E1; lia].
  rewrite (round_pos_binade n 1 l); [| lia | lia | lia | | ].
  - replace (n * 2 ^ (52 - l)) with (n * 2 ^ (52 - l) * 1) at 1 by ring.
    rewrite rne_div_exact by lia. reflexivity.
  - rewrite H52. nia.
  - rewrite H53. nia.
Qed.

Lemma times_0_6_threshold (n h : Z) :
  0 < n < 2 ^ 48 ->
  exists f, times_0_6 n = Ok f /\ int_gt h f = (3 * n <? 5 * h).
Proof.
  intros Hn.
  assert (Hn53 : 0 < n < 2 ^ 53).
  { change (2 ^ 48) with 281474976710656 in Hn.
    change (2 ^ 53) with 9007199254740992. lia. }
  assert (Hn52 : 0 < n < 2 ^ 52).
  { change (2 ^ 48) with 281474976710656 in Hn.
    change (2 ^ 52) with 4503599627370496. lia. }
  unfold times_0_6. rewrite (of_int_exact n Hn52). cbn [bind].
  rewrite lit_0_6_eq. unfold mul, num_den.
  pose proof (Z.log2_spec n ltac:(lia)) as [Hl1 Hl2].
  pose proof (Z.log2_nonneg n) as Hl0.
  assert (Hl : Z.log2 n < 48) by (apply Z.log2_lt_pow2; lia).
  set (l := Z.log2 n) in *.
  destruct (0 <=? l - 52 + -53) eqn:E; [apply Z.leb_le in E; lia|].
  replace (- (l - 52 + -53)) with (53 + (52 - l)) by lia.
  set (K1 := 2 ^ (52 - l)).
  assert (HK1 : 0 < K1) by (apply Z.pow_pos_nonneg; lia).
  rewrite Z.pow_add_r by lia. fold K1.
  (* the binade of n * c06 / 2^53 *)
  assert (Hc : 0 < n * c06) by (unfold c06; lia).
  pose proof (Z.log2_spec (n * c06) Hc) as [Hb1 Hb2].
  assert (Hlb : 52 <= Z.log2 (n * c06)).
  { apply Z.log2_le_pow2; [lia|]. unfold c06.
    change (2 ^ 52) with 4503599627370496. lia. }
  assert (Hub : Z.log2 (n * c06) < 101).
  { apply Z.log2_lt_pow2; [lia|]. unfold c06.
    change (2 ^ 48) with 281474976710656 in Hn.
    change (2 ^ 101) with 2535301200456458802993406410752. lia. }
  set (b := Z.log2 (n * c06)) in *.
  set (L := b - 53).
  set (K := 2 ^ (52 - L)).
  assert (HK : 0 < K) by (apply Z.pow_pos_nonneg; lia).
  assert (HK4 : 2 ^ 4 <= K) by (apply Z.pow_le_mono_r; lia).
  assert (H105 : 2 ^ 105 = 2 ^ b * K).
  { unfold K. rewrite <- Z.pow_add_r by lia. f_equal. lia. }
  assert (H106 : 2 ^ 106 = 2 ^ Z.succ b * K).
  { unfold K. rewrite <- Z.pow_add_r by lia. f_equal. lia. }
  assert (Hround : round_q (n * K1 * c06) (2 ^ 53 * K1)
            = FFinite (rne_div (n * c06 * K) (2 ^ 53)) (L - 52)).
  { unfold round_q.
    destruct (n * K1 * c06 =? 0) eqn:E0; [apply Z.eqb_eq in E0; nia|].
    destruct (0 <? n * K1 * c06) eqn:E1; [|apply Z.ltb_ge in E1; nia].
    rewrite (round_pos_binade _ _ L); [| nia | nia | lia | | ].
    - fold K. replace (n * K1 * c06 * K) with (n * c06 * K * K1) by ring.
      rewrite rne_div_cancel by lia. reflexivity.
    - fold K. replace (2 ^ 53 * K1 * 2 ^ 52) with (2 ^ 105 * K1)
        by (change (2 ^ 105) with (2 ^ 53 * 2 ^ 52); ring).
      rewrite H105. nia.
    - fold K. replace (2 ^ 53 * K1 * 2 ^ 53) with (2 ^ 106 * K1)
        by (change (2 ^ 106) with (2 ^ 53 * 2 ^ 53); ring).
      rewrite H106. nia. }
  rewrite Hround. eexists. split; [reflexivity|].
  unfold int_gt.
  destruct (0 <=? L - 52) eqn:E2; [apply Z.leb_le in E2; lia|].
  replace (- (L - 52)) with (52 - L) by lia. fold K.
  apply threshold_core.
  - exact Hn53.
  - change (2 ^ 4) with 16 in HK4. lia.
  - rewrite H106. nia.
  - apply rne_div_bounds. change (2 ^ 53) with 9007199254740992. lia.
Qed.

(** *** The quotient outside [[1, 16)] *)

Lemma ilog2_ratio_spec (p q : Z) :
  0 < p -> 0 < q ->
  ge_pow2 p q (ilog2_ratio p q) = true /\
  ge_pow2 p q (ilog2_ratio p q + 1) = false.
Proof.
  intros Hp Hq. destruct (ge_pow2_log2 p q Hp Hq) as [Hlo Hhi].
  unfold ilog2_ratio. set (d := Z.log2 p - Z.log2 q) in *.
  destruct (ge_pow2 p q d) eqn:E.
  - split; assumption.
  - split; [exact Hlo|]. replace (d - 1 + 1) with d by lia. exact E.
Qed.

Lemma ratio_lt_pow2 (p q d N : Z) :
  0 <= N -> 0 <= d + N -> ge_pow2 p q d = false ->
  p * 2 ^ N < q * 2 ^ (d + N).
Proof.
  intros HN HdN H.
  destruct (Z_lt_le_dec (p * 2 ^ N) (q * 2 ^ (d + N))) as [|Hle]; [assumption|].
  apply (ge_pow2_shift p q d N HN HdN) in Hle. congruence.
Qed.

Lemma ratio_ge_pow2 (p q d N : Z) :
  0 <= N -> 0 <= d + N -> ge_pow2 p q d = true ->
  q * 2 ^ (d + N) <= p * 2 ^ N.
Proof. intros HN HdN H. apply (ge_pow2_shift p q d N HN HdN). exact H. Qed.

Lemma rne_div_le (a b k : Z) : 0 < b -> a <= k * b -> rne_div a b <= k.
Proof.
  intros Hb H. rewrite <- (rne_div_exact k b Hb). apply rne_div_mono; assumption.
Qed.

Lemma rne_div_ge (a b k : Z) : 0 < b -> k * b <= a -> k <= rne_div a b.
Proof.
  intros Hb H. rewrite <- (rne_div_exact k b Hb). apply rne_div_mono; assumption.
Qed.

(** The mantissa has at most 53 bits (54 when it rounds up to [2^53]). *)
Lemma scaled_upper (p q e : Z) :
  0 < p -> 0 < q -> ilog2_ratio p q - 52 <= e -> scaled p q e <= 2 ^ 53.
Proof.
  intros Hp Hq He.
  destruct (ilog2_ratio_spec p q Hp Hq) as [_ Hhi].
  set (L := ilog2_ratio p q) in *.
  unfold scaled. destruct (Z.leb_spec 0 e) as [H0|H0].
  - set (M := Z.abs (L + 1)).
    pose proof (ratio_lt_pow2 p q (L + 1) M ltac:(lia) ltac:(lia) Hhi) as Hlt.
    assert (Hpow : 2 ^ (L + 1 + M) <= 2 ^ (e + 53 + M))
      by (apply Z.pow_le_mono_r; lia).
    rewrite (Z.pow_add_r 2 (e + 53) M), (Z.pow_add_r 2 e 53) in Hpow by lia.
    assert (0 < 2 ^ e) by (apply Z.pow_pos_nonneg; lia).
    assert (0 < 2 ^ M) by (apply Z.pow_pos_nonneg; lia).
    apply rne_div_le; [nia|]. nia.
  - set (M := Z.abs (L + 1)).
    pose proof (ratio_lt_pow2 p q (L + 1) (- e + M) ltac:(lia) ltac:(lia) Hhi)
      as Hlt.
    rewrite Z.pow_add_r in Hlt by lia.
    assert (Hpow : 2 ^ (L + 1 + (- e + M)) <= 2 ^ (53 + M))
      by (apply Z.pow_le_mono_r; lia).
    rewrite (Z.pow_add_r 2 53 M) in Hpow by lia.
    assert (0 < 2 ^ M) by (apply Z.pow_pos_nonneg; lia).
    assert (0 < 2 ^ (- e)) by (apply Z.pow_pos_nonneg; lia).
    apply rne_div_le; [lia|]. nia.
Qed.

Lemma scaled_nonneg (p q e : Z) : 0 < p -> 0 < q -> 0 <= scaled p q e.
Proof.
  intros Hp Hq. unfold scaled. destruct (Z.leb_spec 0 e).
  - assert (0 < 2 ^ e) by (apply Z.pow_pos_nonneg; lia).
    apply rne_div_ge; nia.
  - assert (0 < 2 ^ (- e)) by (apply Z.pow_pos_nonneg; lia).
    apply rne_div_ge; nia.
Qed.

(** A normal result has its leading bit set. *)
Lemma scaled_lower (p q : Z) :
  0 < p -> 0 < q -> 2 ^ 52 <= scaled p q (ilog2_ratio p q - 52).
Proof.
  intros Hp Hq.
  destruct (ilog2_ratio_spec p q Hp Hq) as [Hlo _].
  set (L := ilog2_ratio p q) in *.
  unfold scaled. destruct (Z.leb_spec 0 (L - 52)) as [H0|H0].
  - pose proof (ratio_ge_pow2 p q L 0 ltac:(lia) ltac:(lia) Hlo) as Hge.
    rewrite Z.add_0_r in Hge. change (2 ^ 0) with 1 in Hge.
    assert (Hpow : 2 ^ L = 2 ^ 52 * 2 ^ (L - 52)).
    { rewrite <- Z.pow_add_r by lia. f_equal. lia. }
    assert (0 < 2 ^ (L - 52)) by (apply Z.pow_pos_nonneg; lia).
    apply rne_div_ge; nia.
  - pose proof (ratio_ge_pow2 p q L (52 - L) ltac:(lia) ltac:(lia) Hlo) as Hge.
    replace (L + (52 - L)) with 52 in Hge by lia.
    replace (- (L - 52)) with (52 - L) by lia.
    apply rne_div_ge; lia.
Qed.

Lemma ilog2_ratio_upper (p q B : Z) :
  0 < p -> 0 < q -> 0 <= B -> p <= q * 2 ^ B -> ilog2_ratio p q <= B.
Proof.
  intros Hp Hq HB Hle.
  destruct (ilog2_ratio_spec p q Hp Hq) as [Hlo _].
  destruct (Z_le_gt_dec (ilog2_ratio p q) B) as [|Hgt]; [assumption|]. exfalso.
  pose proof (ge_pow2_antitone p q (B + 1) (ilog2_ratio p q) Hq ltac:(lia) Hlo)
    as H.
  pose proof (ratio_ge_pow2 p q (B + 1) 0 ltac:(lia) ltac:(lia) H) as Hge.
  rewrite Z.add_0_r in Hge. change (2 ^ 0) with 1 in Hge.
  rewrite Z.pow_add_r in Hge by lia. change (2 ^ 1) with 2 in Hge.
  assert (0 < 2 ^ B) by (apply Z.pow_pos_nonneg; lia). nia.
Qed.

Lemma log2_le_53 (m : Z) : m <= 2 ^ 53 -> Z.log2 m <= 53.
Proof.
  intros Hm. apply (Z.le_trans _ (Z.log2 (2 ^ 53))); [|reflexivity].
  apply Z.log2_le_mono. exact Hm.
Qed.

(** Below [2^1000] the rounding does not overflow. *)
Lemma round_pos_finite (p q : Z) :
  0 < p -> 0 < q -> p <= q * 2 ^ 1000 ->
  let e := Z.max (ilog2_ratio p q - 52) (-1074) in
  round_pos p q = FFinite (scaled p q e) e /\
  0 <= scaled p q e <= 2 ^ 53.
Proof.
  intros Hp Hq Hle e.
  pose proof (ilog2_ratio_upper p q 1000 Hp Hq ltac:(lia) Hle) as HL.
  assert (Hup : scaled p q e <= 2 ^ 53) by (apply scaled_upper; lia).
  pose proof (scaled_nonneg p q e Hp Hq) as Hnn.
  pose proof (log2_le_53 _ Hup) as Hlog.
  split; [|lia].
  unfold round_pos. fold e.
  destruct (Z.leb_spec 1024 (e + Z.log2 (scaled p q e))); [lia|reflexivity].
Qed.

(** A quotient of at least 16 stays at least 16 through the float and
    [round]. *)
Lemma round_pos_large (p q : Z) :
  0 < p -> 0 < q -> 16 * q <= p -> p <= q * 2 ^ 1000 ->
  exists m e r,
    round_pos p q = FFinite m e /\ py_round (FFinite m e) = Ok r /\ 16 <= r.
Proof.
  intros Hp Hq H16 Hle.
  destruct (round_pos_finite p q Hp Hq Hle) as [Hround [Hnn Hup]].
  destruct (ilog2_ratio_spec p q Hp Hq) as [_ Hhi].
  set (L := ilog2_ratio p q) in *.
  assert (HL : 4 <= L).
  { destruct (Z_le_gt_dec 4 L) as [|Hlt]; [assumption|]. exfalso.
    assert (H4 : ge_pow2 p q 4 = true).
    { unfold ge_pow2. simpl. apply Z.leb_le. lia. }
    pose proof (ge_pow2_antitone p q (L + 1) 4 Hq ltac:(lia) H4). congruence. }
  rewrite Z.max_l in * by lia.
  pose proof (scaled_lower p q Hp Hq) as Hlow. fold L in Hlow.
  set (m := scaled p q (L - 52)) in *.
  exists m, (L - 52). eexists. split; [exact Hround|]. split; [reflexivity|].
  destruct (Z.leb_spec 0 (L - 52)) as [H0|H0].
  - assert (1 <= 2 ^ (L - 52)).
    { assert (0 < 2 ^ (L - 52)) by (apply Z.pow_pos_nonneg; lia). lia. }
    change (2 ^ 52) with 4503599627370496 in Hlow. nia.
  - replace (- (L - 52)) with (52 - L) by lia.
    assert (Hpow : 2 ^ 52 = 2 ^ L * 2 ^ (52 - L)).
    { rewrite <- Z.pow_add_r by lia. f_equal. lia. }
    assert (HK : 0 < 2 ^ (52 - L)) by (apply Z.pow_pos_nonneg; lia).
    assert (H2L : 2 ^ 4 <= 2 ^ L) by (apply Z.pow_le_mono_r; lia).
    change (2 ^ 4) with 16 in H2L.
    apply rne_div_ge; [exact HK|]. nia.
Qed.

(** A quotient below 1 gives 0 or 1. *)
Lemma round_pos_small (p q : Z) :
  0 < p -> 0 < q -> p < q ->
  exists m e r,
    round_pos p q = FFinite m e /\ py_round (FFinite m e) = Ok r /\ 0 <= r <= 1.
Proof.
  intros Hp Hq Hlt.
  assert (Hle : p <= q * 2 ^ 1000).
  { assert (1 <= 2 ^ 1000) by (apply (Z.pow_le_mono_r 2 0 1000); lia). nia. }
  destruct (round_pos_finite p q Hp Hq Hle) as [Hround [Hnn Hup]].
  destruct (ilog2_ratio_spec p q Hp Hq) as [Hlo _].
  set (L := ilog2_ratio p q) in *.
  assert (HL : L < 0).
  { destruct (Z_lt_le_dec L 0) as [|Hge]; [assumption|]. exfalso.
    pose proof (ge_pow2_antitone p q 0 L Hq Hge Hlo) as H0.
    unfold ge_pow2 in H0. simpl in H0. apply Z.leb_le in H0. lia. }
  set (e := Z.max (L - 52) (-1074)) in *.
  assert (He : e <= -53) by lia.
  exists (scaled p q e), e. eexists.
  split; [exact Hround|]. split; [reflexivity|].
  destruct (Z.leb_spec 0 e) as [|_]; [lia|].
  assert (HK : 2 ^ 53 <= 2 ^ (- e)) by (apply Z.pow_le_mono_r; lia).
  assert (0 < 2 ^ (- e)) by (apply Z.pow_pos_nonneg; lia).
  split.
  - apply rne_div_ge; lia.
  - apply rne_div_le; lia.
Qed.

(** The quotient of two [int]s through the float, [round] and the clamp
    of [calculate_overall_score]: the float changes nothing. *)
Lemma true_div_round_clamp (t n : Z) :
  0 < n < 2 ^ 48 -> Z.abs t <= n * 2 ^ 1000 ->
  exists f r,
    true_div t n = Ok f /\ py_round f = Ok r /\
    Z.max 1 (Z.min 10 r) = Z.max 1 (Z.min 10 (rne_div t n)).
Proof.
  intros Hn Ht.
  destruct (Z_lt_le_dec t n) as [Hsmall|Hge].
  - assert (Hexact : rne_div t n <= 1) by (apply rne_div_le; lia).
    unfold true_div.
    destruct (n =? 0) eqn:E0; [apply Z.eqb_eq in E0; lia|].
    destruct (0 <? n) eqn:E1; [|apply Z.ltb_ge in E1; lia].
    unfold round_q. destruct (Z.eqb_spec t 0) as [Hz|Hnz].
    + subst t. exists (FFinite 0 0). eexists.
      split; [reflexivity|]. split; [reflexivity|]. cbn. lia.
    + destruct (Z.ltb_spec 0 t) as [Hpos|Hneg].
      * destruct (round_pos_small t n Hpos ltac:(lia) Hsmall)
          as (m & e & r & Hround & Hr & Hrange).
        rewrite Hround. exists (FFinite m e), r.
        split; [reflexivity|]. split; [exact Hr|].
        assert (0 <= rne_div t n) by (apply rne_div_ge; lia). lia.
      * destruct (round_pos_finite (- t) n ltac:(lia) ltac:(lia) ltac:(lia))
          as [Hround [Hnn _]].
        rewrite Hround. cbn [fneg].
        set (e := Z.max (ilog2_ratio (- t) n - 52) (-1074)) in *.
        set (m := scaled (- t) n e) in *.
        exists (FFinite (- m) e). eexists.
        split; [reflexivity|]. split; [reflexivity|].
        assert (Hexact0 : rne_div t n <= 0) by (apply rne_div_le; lia).
        assert (Hr : (if 0 <=? e then - m * 2 ^ e
                      else rne_div (- m) (2 ^ (- e))) <= 0).
        { destruct (Z.leb_spec 0 e).
          - assert (0 < 2 ^ e) by (apply Z.pow_pos_nonneg; lia). nia.
          - assert (0 < 2 ^ (- e)) by (apply Z.pow_pos_nonneg; lia).
            apply rne_div_le; lia. }
        lia.
  - destruct (Z_lt_le_dec t (16 * n)) as [Hmid|Hbig].
    + destruct (true_div_round t n Hn ltac:(lia)) as (f & Hdiv & Hr).
      exists f, (rne_div t n). repeat split; assumption.
    + assert (Hexact : 16 <= rne_div t n) by (apply rne_div_ge; lia).
      unfold true_div.
      destruct (n =? 0) eqn:E0; [apply Z.eqb_eq in E0; lia|].
      destruct (0 <? n) eqn:E1; [|apply Z.ltb_ge in E1; lia].
      unfold round_q.
      destruct (t =? 0) eqn:E2; [apply Z.eqb_eq in E2; lia|].
      destruct (0 <? t) eqn:E3; [|apply Z.ltb_ge in E3; lia].
      destruct (round_pos_large t n ltac:(lia) ltac:(lia) ltac:(lia) ltac:(lia))
        as (m & e & r & Hround & Hr & Hrange).
      rewrite Hround. exists (FFinite m e), r.
      split; [reflexivity|]. split; [exact Hr|]. lia.
Qed.

End Float64Facts.

(** ** Aggregation *)

Section Aggregation.

Import Float64 Float64Facts.

Lemma fold_left_add_shift (l : list Z) (a : Z) :
  fold_left Z.add l a = a + sum l.
Proof.
  unfold sum. revert a. induction l as [|x l IH]; intros a; simpl.
  - lia.
  - rewrite (IH (a + x)), (IH x). lia.
Qed.

Lemma sum_cons (x : Z) (l : list Z) : sum (x :: l) = x + sum l.
Proof. unfold sum at 1. simpl. apply fold_left_add_shift. Qed.

Lemma len_cons {A : Type} (x : A) (l : list A) : len (x :: l) = 1 + len l.
Proof. unfold len. simpl List.length. lia. Qed.

Lemma len_nonneg {A : Type} (l : list A) : 0 <= len l.
Proof. unfold len. lia. Qed.

(** The generator expression counts the elements that pass the test. *)
Lemma count_if_filter {A : Type} (p : A -> bool) (l : list A) :
  count_if p l = len (filter p l).
Proof.
  unfold count_if. induction (filter p l) as [|x f IH].
  - reflexivity.
  - simpl map. rewrite sum_cons, len_cons, IH. reflexivity.
Qed.

Lemma len_filter_le {A : Type} (p : A -> bool) (l : list A) :
  0 <= len (filter p l) <= len l.
Proof.
  unfold len. pose proof (filter_length_le p l). lia.
Qed.

Lemma total_bounds (evs : list FileEvaluation.t) :
  Forall in_range evs -> len evs <= total evs <= 10 * len evs.
Proof.
  unfold total. induction 1 as [|e evs He _ IH].
  - cbn. lia.
  - simpl map. rewrite sum_cons, len_cons. unfold in_range in He. lia.
Qed.

Lemma in_range_bounded (e : FileEvaluation.t) : in_range e -> bounded e.
Proof.
  unfold in_range, bounded. intros H.
  assert (2 ^ 4 <= 2 ^ 1000) by (apply Z.pow_le_mono_r; lia).
  change (2 ^ 4) with 16 in *. lia.
Qed.

Lemma total_abs_bound (evs : list FileEvaluation.t) :
  Forall bounded evs -> Z.abs (total evs) <= len evs * 2 ^ 1000.
Proof.
  unfold total. induction 1 as [|e evs He _ IH].
  - cbn. lia.
  - simpl map. rewrite sum_cons, len_cons. unfold bounded in He. lia.
Qed.

(** What [calculate_overall_score] returns on a non-empty list of
    evaluations: the floats in between change nothing. *)
Lemma calculate_overall_score_spec (evs : list FileEvaluation.t) :
  evs <> [] -> Forall bounded evs -> len evs < 2 ^ 48 ->
  calculate_overall_score evs
  = Ok {| OverallEvaluation.score := spec_score evs;
          OverallEvaluation.reason := spec_reason evs;
          OverallEvaluation.total_files := len evs;
          OverallEvaluation.file_evaluations := evs |}.
Proof.
  intros Hne Hr Hlen.
  destruct evs as [|e0 evs0]; [congruence|].
  set (evs := e0 :: evs0) in *.
  assert (Hn : 0 < len evs < 2 ^ 48).
  { split; [|assumption]. unfold evs. rewrite len_cons.
    pose proof (len_nonneg evs0). lia. }
  pose proof (total_abs_bound evs Hr) as Ht.
  destruct (true_div_round_clamp (total evs) (len evs) Hn Ht)
    as (f & r & Hdiv & Hround & Hclamp).
  destruct (times_0_6_threshold (len evs) (count_if is_high evs) Hn)
    as (th & Hth & Hhigh).
  destruct (times_0_6_threshold (len evs) (count_if is_low evs) Hn)
    as (th' & Hth' & Hlow).
  assert (th' = th) by congruence. subst th'.
  unfold calculate_overall_score. fold evs. fold (total evs).
  rewrite Hdiv. cbn [bind]. rewrite Hround. cbn [bind].
  rewrite Hth. cbn [bind]. rewrite Hhigh, Hlow, Hclamp.
  unfold spec_score, spec_reason. rewrite !count_if_filter. reflexivity.
Qed.

End Aggregation.

(** ** Content loading and scoring *)

Lemma dict_get_lookup (d : list (string * py_value)) (key : string)
    (default : py_value) :
  dict_get d key default
  = match dict_lookup d key with Some v => v | None => default end.
Proof.
  induction d as [|[k v] d IH]; simpl; [reflexivity|].
  destruct (k =? key)%string; [reflexivity|exact IH].
Qed.

Lemma clamp_range (z : Z) : 1 <= clamp z <= 10.
Proof. unfold clamp. lia. Qed.

Section EvaluatorFacts.

Variable read_text : Path -> result string.
Variable chat_completions_create :
  Path -> string -> list (string * string) -> result response.
Variable json_loads : string -> result py_value.

Local Abbreviation load := (read_file_content read_text).
Local Abbreviation parse := (parse_result json_loads).
Local Abbreviation evaluate :=
  (evaluate_file read_text chat_completions_create json_loads).
Local Abbreviation Content := (content_of read_text).
Local Abbreviation Reply := (reply read_text chat_completions_create).
Local Abbreviation ReplyText := (reply_text read_text chat_completions_create).

Lemma read_file_content_total (file_path : Path) :
  load file_path = Ok (Content file_path).
Proof.
  unfold read_file_content, content_of, try_except.
  destruct (read_text file_path); reflexivity.
Qed.

Lemma evaluate_file_cases (file_path : Path) (deployment_name : string)
    (base_path rel : Path) :
  relative_to file_path base_path = Ok rel ->
  evaluate file_path deployment_name base_path
  = Ok match ReplyText file_path deployment_name with
       | Raise e => fallback rel file_path e
       | Ok result_text =>
           match parse result_text with
           | Raise e => fallback rel file_path e
           | Ok sr =>
               {| FileEvaluation.filename := str_of_path rel;
                  FileEvaluation.score := fst sr;
                  FileEvaluation.reason := snd sr;
                  FileEvaluation.file_type := suffix file_path |}
           end
       end.
Proof.
  intros Hrel. unfold evaluate_file, reply_text, reply.
  rewrite read_file_content_total. cbn [bind].
  destruct (chat_completions_create _ _ _) as [resp|e]; cbn [bind try_except].
  - destruct (result_text_of resp) as [text|e]; cbn [bind try_except].
    + destruct (parse text) as [sr|e]; cbn [bind try_except];
        rewrite Hrel; reflexivity.
    + rewrite Hrel. reflexivity.
  - rewrite Hrel. reflexivity.
Qed.

(** Outside the base path nothing is returned: [relative_to] raises in
    the body and again in the handler. *)
Lemma evaluate_file_outside (file_path : Path) (deployment_name : string)
    (base_path : Path) (e : exn) :
  relative_to file_path base_path = Raise e ->
  evaluate file_path deployment_name base_path = Raise e.
Proof.
  intros Hrel. unfold evaluate_file.
  rewrite read_file_content_total. cbn [bind].
  destruct (chat_completions_create _ _ _) as [resp|e1]; cbn [bind try_except].
  - destruct (result_text_of resp) as [text|e2]; cbn [bind try_except].
    + destruct (parse text) as [sr|e3]; cbn [bind try_except];
        rewrite Hrel; reflexivity.
    + rewrite Hrel. reflexivity.
  - rewrite Hrel. reflexivity.
Qed.

Lemma py_get_not_JSONDecodeError (v : py_value) (key : string)
    (default : py_value) (e : exn) :
  py_get v key default = Raise e -> exn_class e = "AttributeError".
Proof. destruct v; simpl; intros H; inversion H; reflexivity. Qed.

Lemma py_int_not_JSONDecodeError (v : py_value) (e : exn) :
  py_int v = Raise e -> (exn_class e =? "JSONDecodeError")%string = false.
Proof.
  destruct v as [| b | z | f | s | l | d]; simpl; intros H;
    try (inversion H; reflexivity).
  - destruct f; simpl in H; inversion H; reflexivity.
  - unfold int_of_str in H.
    destruct (head_is _ _); [inversion H; reflexivity|].
    destruct (scan_digits _ _ _ _) as [[[value count] rest]|];
      [|inversion H; reflexivity].
    destruct (int_max_str_digits <? count); [inversion H; reflexivity|].
    destruct (count =? 0); [inversion H; reflexivity|].
    destruct (skip_int_space rest); [discriminate|inversion H; reflexivity].
Qed.

(** Text that is not JSON: the inner handler. *)
Lemma parse_result_not_json (text : string) (e : exn) :
  json_loads text = Raise e -> exn_class e = "JSONDecodeError" ->
  parse text
  = Ok (5, PyStr (parse_fallback_prefix ++ slice_to 200 text)%string).
Proof.
  intros H Hc. unfold parse_result, try_except_class.
  rewrite H. cbn [bind]. rewrite Hc. reflexivity.
Qed.

(** JSON that is not an object: [get] is missing, and the inner handler
    does not apply. *)
Lemma parse_result_not_dict (text : string) (v : py_value) :
  json_loads text = Ok v -> (forall d, v <> PyDict d) ->
  parse text
  = Raise (mk_exn "AttributeError"
             ("'" ++ type_name v ++ "' object has no attribute 'get'")%string).
Proof.
  intros H Hv. unfold parse_result, try_except_class.
  rewrite H. cbn [bind].
  destruct v; try reflexivity. exfalso. eapply Hv. reflexivity.
Qed.

(** A JSON object whose score [int] accepts. *)
Lemma parse_result_dict (text : string) (d : list (string * py_value)) (z : Z) :
  json_loads text = Ok (PyDict d) ->
  py_int (dict_get d "score" (PyInt 5)) = Ok z ->
  parse text = Ok (clamp z, dict_get d "reason" (PyStr default_reason)).
Proof.
  intros H Hz. unfold parse_result, try_except_class.
  rewrite H. cbn [bind py_get]. rewrite Hz. reflexivity.
Qed.

(** A JSON object whose score [int] rejects: the exception leaves the
    inner [try]. *)
Lemma parse_result_bad_score (text : string) (d : list (string * py_value))
    (e : exn) :
  json_loads text = Ok (PyDict d) ->
  py_int (dict_get d "score" (PyInt 5)) = Raise e ->
  parse text = Raise e.
Proof.
  intros H He. unfold parse_result, try_except_class.
  rewrite H. cbn [bind py_get]. rewrite He. cbn [bind].
  rewrite (py_int_not_JSONDecodeError _ _ He). reflexivity.
Qed.

Lemma parse_result_range (text : string) (sr : Z * py_value) :
  parse text = Ok sr -> 1 <= fst sr <= 10.
Proof.
  unfold parse_result, try_except_class.
  destruct (json_loads text) as [v|e]; cbn [bind].
  - destruct (py_get v "score" (PyInt 5)) as [raw|e]; cbn [bind].
    + destruct (py_int raw) as [n|e]; cbn [bind].
      * destruct (py_get v "reason" (PyStr default_reason)) as [r|e]; cbn [bind].
        -- intros H. inversion H. simpl. lia.
        -- destruct (exn_class e =? "JSONDecodeError")%string;
             intros H; inversion H; simpl; lia.
      * destruct (exn_class e =? "JSONDecodeError")%string;
          intros H; inversion H; simpl; lia.
    + destruct (exn_class e =? "JSONDecodeError")%string;
        intros H; inversion H; simpl; lia.
  - destruct (exn_class e =? "JSONDecodeError")%string;
      intros H; inversion H; simpl; lia.
Qed.

(** Every evaluation [evaluate_file] returns has its score in range. *)
Lemma evaluate_file_in_range (file_path : Path) (deployment_name : string)
    (base_path : Path) (evaluation : FileEvaluation.t) :
  evaluate file_path deployment_name base_path = Ok evaluation ->
  in_range evaluation.
Proof.
  destruct (relative_to file_path base_path) as [rel|e] eqn:Hrel.
  - rewrite (evaluate_file_cases _ _ _ _ Hrel). intros H. inversion H.
    unfold in_range.
    destruct (ReplyText file_path deployment_name) as [text|e]; simpl; [|lia].
    destruct (parse text) as [sr|e] eqn:Hp; simpl; [|lia].
    exact (parse_result_range _ _ Hp).
  - rewrite (evaluate_file_outside _ _ _ _ Hrel). discriminate.
Qed.

End EvaluatorFacts.

(** ** File selection *)

Section Selection.

Lemma mem_In (x : string) (xs : list string) : mem x xs = true <-> In x xs.
Proof.
  unfold mem. rewrite existsb_exists. split.
  - intros (y & Hy & E). apply String.eqb_eq in E. subst y. exact Hy.
  - intros H. exists x. split; [exact H|apply String.eqb_refl].
Qed.

Lemma mem_false (x : string) (xs : list string) : mem x xs = false <-> ~ In x xs.
Proof.
  rewrite <- mem_In. destruct (mem x xs); split; intros; congruence.
Qed.

Lemma node_induction (P : node -> Prop) :
  (forall sz, P (File sz)) -> P Special ->
  (forall entries, Forall (fun e => P (snd e)) entries -> P (Dir entries)) ->
  forall n, P n.
Proof.
  intros HF HS HD. fix IH 1. intros [sz| |entries].
  - apply HF.
  - apply HS.
  - apply HD. induction entries as [|[nm c] rest IHr]; constructor.
    + apply IH.
    + exact IHr.
Qed.

Lemma rglob_Dir (folder_path : Path) (entries : list (string * node)) :
  rglob folder_path (Dir entries)
  = (map (fun e => (joinpath folder_path [fst e], snd e))
       (filter (fun e => is_entry_name (fst e)) entries)
     ++ flat_map (fun e => if is_entry_name (fst e)
                           then rglob (joinpath folder_path [fst e]) (snd e)
                           else [])
          entries)%list.
Proof.
  cbn [rglob scandir]. f_equal.
  induction entries as [|[nm c] rest IH]; [reflexivity|].
  cbn [flat_map fst snd]. rewrite IH. reflexivity.
Qed.

Lemma rglob_In (folder_path : Path) (entries : list (string * node))
    (p : Path) (m : node) :
  In (p, m) (rglob folder_path (Dir entries)) <->
  exists nm c,
    In (nm, c) entries /\ is_entry_name nm = true /\
    ((p, m) = (joinpath folder_path [nm], c)
     \/ In (p, m) (rglob (joinpath folder_path [nm]) c)).
Proof.
  rewrite rglob_Dir, in_app_iff, in_map_iff, in_flat_map. split.
  - intros [([nm c] & Heq & Hin)|([nm c] & Hin & Hbelow)].
    + apply filter_In in Hin. destruct Hin as [Hin Hname].
      exists nm, c. split; [exact Hin|]. split; [exact Hname|].
      left. symmetry. exact Heq.
    + cbn [fst snd] in Hbelow.
      destruct (is_entry_name nm) eqn:Hname; [|contradiction].
      exists nm, c. split; [exact Hin|]. split; [exact Hname|].
      right. exact Hbelow.
  - intros (nm & c & Hin & Hname & [Heq|Hbelow]).
    + left. exists (nm, c). split; [symmetry; exact Heq|].
      apply filter_In. split; [exact Hin|exact Hname].
    + right. exists (nm, c). split; [exact Hin|].
      cbn [fst snd]. rewrite Hname. exact Hbelow.
Qed.

Lemma is_entry_name_not_root (nm : string) :
  is_entry_name nm = true -> (nm =? "/")%string = false.
Proof.
  destruct (String.eqb_spec nm "/") as [->|]; [discriminate|reflexivity].
Qed.

(** Every path [rglob] yields is the folder's path extended by at least
    one part, the first of them the name of an entry. *)
Lemma rglob_below_names (n : node) :
  forall (folder_path p : Path) (m : node),
    In (p, m) (rglob folder_path n) ->
    exists rel, rel <> [] /\ is_absolute rel = false
                /\ p = joinpath folder_path rel.
Proof.
  induction n as [sz| |entries IH] using node_induction;
    intros folder_path p m H; try (simpl in H; contradiction).
  apply rglob_In in H. destruct H as (nm & c & Hin & Hname & [H|H]).
  - inversion H. exists [nm]. split; [discriminate|].
    split; [apply is_entry_name_not_root, Hname|reflexivity].
  - rewrite Forall_forall in IH. specialize (IH _ Hin). simpl in IH.
    destruct (IH _ _ _ H) as (rel & _ & _ & Hrel).
    exists (nm :: rel). split; [discriminate|].
    split; [apply is_entry_name_not_root, Hname|].
    rewrite Hrel. unfold joinpath. rewrite <- app_assoc. reflexivity.
Qed.

Lemma rglob_below (n : node) :
  forall (folder_path p : Path) (m : node),
    In (p, m) (rglob folder_path n) ->
    exists rel, rel <> [] /\ p = joinpath folder_path rel.
Proof.
  intros folder_path p m H.
  destruct (rglob_below_names _ _ _ _ H) as (rel & Hne & _ & Hrel).
  exists rel. split; assumption.
Qed.

Lemma strip_prefix_app (base rel : Path) :
  strip_prefix base (base ++ rel)%list = Some rel.
Proof.
  induction base as [|b base IH]; simpl; [reflexivity|].
  rewrite String.eqb_refl. exact IH.
Qed.

Lemma relative_to_below (folder_path rel : Path) :
  is_absolute rel = false ->
  relative_to (joinpath folder_path rel) folder_path = Ok rel.
Proof.
  intros Hrel. unfold relative_to, joinpath. destruct folder_path as [|a base].
  - cbn [app]. rewrite Hrel. reflexivity.
  - rewrite strip_prefix_app. reflexivity.
Qed.

Lemma get_code_files_In (fs : node) (folder_path : Path)
    (ee ef : option (list string)) (p : Path) :
  In p (get_code_files fs folder_path ee ef) <->
  exists n, In (p, n) (rglob folder_path fs) /\ selected ee ef (p, n) = true.
Proof.
  unfold get_code_files. rewrite in_map_iff. split.
  - intros ([p' n] & E & H). simpl in E. subst p'.
    apply filter_In in H. exists n. exact H.
  - intros (n & H1 & H2). exists (p, n). split; [reflexivity|].
    apply filter_In. split; assumption.
Qed.

Lemma get_code_files_below (fs : node) (folder_path : Path)
    (ee ef : option (list string)) (p : Path) :
  In p (get_code_files fs folder_path ee ef) ->
  exists rel, relative_to p folder_path = Ok rel.
Proof.
  intros H. apply get_code_files_In in H. destruct H as (n & H & _).
  destruct (rglob_below_names _ _ _ _ H) as (rel & _ & Habs & E). subst p.
  exists rel. apply relative_to_below, Habs.
Qed.

Lemma truthy_false_elements (o : option (list string)) :
  truthy o = false -> elements o = [].
Proof. destruct o as [[|x l]|]; simpl; intros H; congruence. Qed.

Lemma in_all_excluded (ef : option (list string)) (seg : string) :
  In seg (all_excluded_folders ef) <->
  In seg default_exclusions \/ In seg (elements ef).
Proof.
  unfold all_excluded_folders. destruct (truthy ef) eqn:E.
  - apply in_app_iff.
  - rewrite (truthy_false_elements _ E). simpl. tauto.
Qed.

(** The hidden-or-excluded test over the parts of a path. *)
Lemma segments_clear (ef : option (list string)) (p : Path) :
  existsb (fun part => startswith_dot part || mem part (all_excluded_folders ef))
    (parts p) = false <->
  forall seg, In seg (parts p) ->
    startswith_dot seg = false /\
    ~ In seg default_exclusions /\ ~ In seg (elements ef).
Proof.
  split.
  - intros H seg Hin.
    assert (Hs : startswith_dot seg || mem seg (all_excluded_folders ef) = false).
    { destruct (startswith_dot seg || mem seg (all_excluded_folders ef)) eqn:E;
        [|reflexivity].
      assert (Hex : existsb (fun part => startswith_dot part
                       || mem part (all_excluded_folders ef)) (parts p) = true).
      { apply existsb_exists. exists seg. split; assumption. }
      congruence. }
    apply orb_false_iff in Hs. destruct Hs as [Hd Hm].
    apply mem_false in Hm. rewrite in_all_excluded in Hm. tauto.
  - intros H.
    destruct (existsb _ (parts p)) eqn:E; [|reflexivity].
    apply existsb_exists in E. destruct E as (seg & Hin & Hs).
    destruct (H seg Hin) as (Hd & H1 & H2).
    rewrite Hd in Hs. simpl in Hs. apply mem_In in Hs.
    apply in_all_excluded in Hs. tauto.
Qed.

Lemma In_removelast {A : Type} (x : A) (l : list A) :
  In x (removelast l) -> In x l.
Proof.
  induction l as [|y l IH]; simpl; [tauto|].
  destruct l as [|z l]; [simpl; tauto|].
  intros [H|H]; [left; exact H|right; apply IH; exact H].
Qed.

Lemma In_parent (x : string) (p : Path) : In x (parts (parent p)) -> In x (parts p).
Proof.
  unfold parent, parts.
  destruct p as [|a [|b l]]; try (apply In_removelast).
  destruct (a =? "/")%string; simpl; tauto.
Qed.

(** The second test of the loop never fires once the first has passed. *)
Lemma should_exclude_folder_redundant (ef : option (list string)) (p : Path) :
  existsb (fun part => startswith_dot part || mem part (all_excluded_folders ef))
    (parts p) = false ->
  should_exclude_folder (parent p) ef = false.
Proof.
  intros H0. pose proof (proj1 (segments_clear ef p) H0) as H.
  unfold should_exclude_folder. destruct (truthy ef); [|reflexivity].
  destruct (existsb _ (parts (parent p))) eqn:E; [|reflexivity].
  apply existsb_exists in E. destruct E as (seg & Hin & Hm).
  apply mem_In in Hm. apply In_parent in Hin.
  destruct (H seg Hin) as (_ & _ & Hno). contradiction.
Qed.

Lemma is_code_file_spec (p : Path) (ee : option (list string)) :
  is_code_file p ee = true <->
  In (lower (suffix p)) CODE_EXTENSIONS /\ ~ In (lower (suffix p)) (elements ee).
Proof.
  unfold is_code_file.
  pose proof (mem_In (lower (suffix p)) CODE_EXTENSIONS) as Hc.
  destruct (truthy ee) eqn:Et; cbn [andb].
  - destruct (mem (lower (suffix p)) (elements ee)) eqn:Em.
    + apply mem_In in Em. split; [discriminate|tauto].
    + apply mem_false in Em. tauto.
  - rewrite (truthy_false_elements _ Et). cbn [In]. tauto.
Qed.

Lemma selected_spec (ee ef : option (list string)) (p : Path) (n : node) :
  selected ee ef (p, n) = true <-> spec_selected ee ef p n.
Proof.
  unfold selected, spec_selected.
  destruct (existsb _ (parts p)) eqn:E.
  - split; [discriminate|]. intros (_ & _ & _ & H).
    pose proof (proj2 (segments_clear ef p) H). congruence.
  - rewrite (should_exclude_folder_redundant ef p E).
    rewrite !andb_true_iff, is_code_file_spec, Z.ltb_lt.
    pose proof (proj1 (segments_clear ef p) E) as Hclear.
    split.
    + intros ((Hf & Hc) & Hs). split; [|tauto].
      destruct n as [sz| |]; try discriminate. exists sz. simpl in Hs. tauto.
    + intros ((sz & Hn & Hsz) & Hc1 & Hc2 & _). subst n. simpl. tauto.
Qed.

End Selection.

(** ** Bounded fan-out *)

Section SchedulerFacts.

Variable read_text : Path -> result string.
Variable chat_completions_create :
  Path -> string -> list (string * string) -> result response.
Variable json_loads : string -> result py_value.
Variable deployment_name : string.
Variable folder_path : Path.

Local Abbreviation evaluate :=
  (fun t => evaluate_file read_text chat_completions_create json_loads t
              deployment_name folder_path).
Local Abbreviation Step :=
  (step read_text chat_completions_create json_loads deployment_name folder_path).
Local Abbreviation Steps :=
  (steps read_text chat_completions_create json_loads deployment_name folder_path).
Local Abbreviation Inv :=
  (invariant read_text chat_completions_create json_loads deployment_name
     folder_path).
Local Abbreviation AllEvaluate :=
  (all_evaluate read_text chat_completions_create json_loads deployment_name
     folder_path).
Local Abbreviation Gathers :=
  (gathers read_text chat_completions_create json_loads deployment_name
     folder_path).

Lemma invariant_start (files : list Path) : Inv files (start files).
Proof.
  unfold invariant, start, semaphore_limit. simpl. repeat split; try lia.
  exists []. split; [rewrite app_nil_r; apply Permutation_refl|constructor].
Qed.

Lemma invariant_step (files : list Path) (s s' : sched) :
  Inv files s -> Step s s' -> Inv files s'.
Proof.
  intros (Hp & H0 & done & Hperm & Hdone) Hstep.
  destruct Hstep as [w1 w2 r t k evs Hk | w r1 r2 t k evs evaluation Hev];
    unfold invariant; cbn [waiting running permits file_evaluations] in *.
  - assert (Hlen : len (r ++ [t])%list = 1 + len r).
    { unfold len. rewrite length_app. cbn [List.length]. lia. }
    repeat split.
    + lia.
    + lia.
    + exists done. split; [|exact Hdone].
      eapply Permutation_trans; [|exact Hperm].
      rewrite <- !app_assoc. cbn [app]. apply Permutation_app_head.
      apply Permutation_sym. rewrite !app_assoc. apply Permutation_middle.
  - assert (Hlen : len (r1 ++ t :: r2)%list = 1 + len (r1 ++ r2)%list).
    { unfold len. rewrite !length_app. cbn [List.length]. lia. }
    repeat split.
    + lia.
    + lia.
    + exists (done ++ [t])%list. split.
      * eapply Permutation_trans; [|exact Hperm].
        apply Permutation_app_head.
        rewrite <- !app_assoc. cbn [app]. apply Permutation_app_head.
        rewrite app_assoc. apply Permutation_sym, Permutation_cons_append.
      * apply Forall2_app; [exact Hdone|]. constructor; [exact Hev|constructor].
Qed.

Lemma invariant_steps (files : list Path) (s s' : sched) :
  Steps s s' -> Inv files s -> Inv files s'.
Proof.
  induction 1 as [s|s1 s2 s3 H12 _ IH]; intros Hinv; [exact Hinv|].
  apply IH. eapply invariant_step; eassumption.
Qed.


Lemma invariant_finished (files : list Path) (s : sched) :
  Inv files s -> finished s ->
  exists order,
    Permutation order files /\
    Forall2 (fun t evaluation => evaluate t = Ok evaluation)
      order (file_evaluations s).
Proof.
  intros (_ & _ & done & Hperm & Hdone) (Hw & Hr).
  rewrite Hw, Hr in Hperm. simpl in Hperm. exists done. split; assumption.
Qed.

Lemma steps_trans (s1 s2 s3 : sched) : Steps s1 s2 -> Steps s2 s3 -> Steps s1 s3.
Proof.
  induction 1 as [s|a b c Hab _ IH]; intros H; [exact H|].
  eapply steps_step; [exact Hab|apply IH; exact H].
Qed.

Lemma steps_gathers (s s' : sched) (out : result (list FileEvaluation.t)) :
  Steps s s' -> Gathers s' out -> Gathers s out.
Proof.
  induction 1 as [s|a b c Hab _ IH]; intros H; [exact H|].
  eapply gathers_step; [exact Hab|apply IH; exact H].
Qed.

(** A run never stalls and ends: from every state of a run the loop
    reaches the state where every wrapper is done. *)
Lemma run_completes (files : list Path) :
  AllEvaluate files ->
  forall (m : nat) (s : sched),
    (2 * List.length (waiting s) + List.length (running s) <= m)%nat ->
    Inv files s ->
    exists s', Steps s s' /\ finished s'.
Proof.
  intros Hall. induction m as [|m IH]; intros s Hm Hinv.
  - exists s. split; [apply steps_refl|].
    destruct s as [w r k evs]. unfold finished.
    cbn [waiting running] in *.
    destruct w; destruct r; cbn [List.length] in Hm; try lia.
    split; reflexivity.
  - destruct s as [w r k evs].
    destruct r as [|t r].
    + destruct w as [|t w].
      * exists (mk_sched [] [] k evs). split; [apply steps_refl|].
        split; reflexivity.
      * assert (Hk : 0 < k).
        { destruct Hinv as (Hp & _). cbn [permits running] in Hp.
          unfold semaphore_limit, len in Hp. cbn [List.length] in Hp. lia. }
        pose proof (step_acquire read_text chat_completions_create json_loads
                      deployment_name folder_path [] w [] t k evs Hk) as Hs.
        cbn [app] in Hs.
        assert (Hm' : (2 * List.length (waiting (mk_sched w [t] (k - 1) evs))
                       + List.length (running (mk_sched w [t] (k - 1) evs))
                       <= m)%nat).
        { cbn [waiting running List.length] in *. lia. }
        destruct (IH _ Hm' (invariant_step _ _ _ Hinv Hs))
          as (s' & Hsteps & Hfin).
        exists s'. split; [|exact Hfin].
        eapply steps_step; eassumption.
    + assert (Hin : In t files).
      { destruct Hinv as (_ & _ & done & Hperm & _).
        cbn [waiting running] in Hperm.
        eapply Permutation_in; [exact Hperm|].
        apply in_or_app. right. left. reflexivity. }
      destruct (Hall t Hin) as (evaluation & Hev).
      pose proof (step_complete read_text chat_completions_create json_loads
                    deployment_name folder_path w [] r t k evs evaluation Hev)
        as Hs.
      cbn [app] in Hs.
      assert (Hm' : (2 * List.length (waiting (mk_sched w r (k + 1)
                                                 (evs ++ [evaluation])%list))
                     + List.length (running (mk_sched w r (k + 1)
                                               (evs ++ [evaluation])%list))
                     <= m)%nat).
      { cbn [waiting running List.length] in *. lia. }
      destruct (IH _ Hm' (invariant_step _ _ _ Hinv Hs))
        as (s' & Hsteps & Hfin).
      exists s'. split; [|exact Hfin].
      eapply steps_step; eassumption.
Qed.

(** Whatever the schedule, the loop ends with one evaluation per file and
    never with an exception. *)
Lemma gathers_all (files : list Path) (s : sched)
    (out : result (list FileEvaluation.t)) :
  AllEvaluate files -> Gathers s out -> Inv files s ->
  exists evs order,
    out = Ok evs /\ Permutation order files /\
    Forall2 (fun t evaluation => evaluate t = Ok evaluation) order evs.
Proof.
  intros Hall. induction 1 as [s Hfin|s r1 r2 t e Hrun Hraise|s s' out Hs _ IH];
    intros Hinv.
  - destruct (invariant_finished _ _ Hinv Hfin) as (order & H1 & H2).
    exists (file_evaluations s), order. repeat split; assumption.
  - exfalso.
    assert (Hin : In t files).
    { destruct Hinv as (_ & _ & done & Hperm & _).
      eapply Permutation_in; [exact Hperm|].
      apply in_or_app. right. apply in_or_app. left.
      rewrite Hrun. apply in_or_app. right. left. reflexivity. }
    destruct (Hall t Hin) as (evaluation & Hev). congruence.
  - apply IH. eapply invariant_step; eassumption.
Qed.

Lemma gathers_exists (files : list Path) :
  AllEvaluate files ->
  exists evs, Gathers (start files) (Ok evs).
Proof.
  intros Hall.
  destruct (run_completes files Hall _ (start files) (Nat.le_refl _)
              (invariant_start files)) as (s' & Hsteps & Hfin).
  exists (file_evaluations s').
  eapply steps_gathers; [exact Hsteps|]. apply gathers_done. exact Hfin.
Qed.

(** The files [get_code_files] selects lie below the folder, so each has
    an evaluation. *)
Lemma selected_files_evaluate (fs : node) (ee ef : option (list string)) :
  AllEvaluate (get_code_files fs folder_path ee ef).
Proof.
  intros t Hin. destruct (get_code_files_below _ _ _ _ _ Hin) as (rel & Hrel).
  eexists. apply (evaluate_file_cases _ _ _ _ _ _ _ Hrel).
Qed.

Lemma Forall2_in_range (order : list Path) (evs : list FileEvaluation.t) :
  Forall2 (fun t evaluation => evaluate t = Ok evaluation) order evs ->
  Forall in_range evs.
Proof.
  induction 1 as [|t ev order evs H _ IH]; constructor; [|exact IH].
  eapply evaluate_file_in_range. exact H.
Qed.

Local Abbreviation Run :=
  (run_fifo read_text chat_completions_create json_loads deployment_name
     folder_path).
Local Abbreviation Folder :=
  (evaluate_folder read_text chat_completions_create json_loads deployment_name
     folder_path).

(** The schedule of [run_fifo] is one of the runs. *)
Lemma run_fifo_gathers (files : list Path) :
  forall (fuel : nat) (s : sched),
    (2 * List.length (waiting s) + List.length (running s) <= fuel)%nat ->
    Inv files s ->
    Gathers s (Run fuel s).
Proof.
  induction fuel as [|fuel IH]; intros s Hm Hinv.
  - destruct s as [w r k evs]. cbn [waiting running] in Hm.
    destruct w; destruct r; cbn [List.length] in Hm; try lia.
    apply gathers_done. split; reflexivity.
  - destruct s as [w r k evs]. cbn [run_fifo waiting running permits
                                    file_evaluations].
    assert (Hacq : forall t w', w = t :: w' -> 0 < k ->
              Gathers (mk_sched w r k evs)
                (Run fuel (mk_sched w' (r ++ [t])%list (k - 1) evs))).
    { intros t w' Hw Hk. subst w.
      pose proof (step_acquire read_text chat_completions_create json_loads
                    deployment_name folder_path [] w' r t k evs Hk) as Hs.
      cbn [app] in Hs.
      eapply gathers_step; [exact Hs|]. apply IH.
      - cbn [waiting running List.length] in *. rewrite length_app.
        cbn [List.length]. lia.
      - eapply invariant_step; eassumption. }
    assert (Hcomp : (w = [] \/ k <= 0) ->
              Gathers (mk_sched w r k evs)
                match r with
                | t :: r' =>
                    evaluation <- evaluate t ;;
                    Run fuel (mk_sched w r' (k + 1) (evs ++ [evaluation])%list)
                | [] => Ok evs
                end).
    { intros Hcase. destruct r as [|t r'].
      - assert (Hw : w = []).
        { destruct Hcase as [Hw|Hk]; [exact Hw|].
          destruct Hinv as (Hp & _). cbn [permits running] in Hp.
          unfold semaphore_limit, len in Hp. cbn [List.length] in Hp. lia. }
        subst w. apply gathers_done. split; reflexivity.
      - destruct (evaluate t) as [evaluation|e] eqn:Hev; cbn [bind].
        + pose proof (step_complete read_text chat_completions_create
                        json_loads deployment_name folder_path w [] r' t k evs
                        evaluation Hev) as Hs.
          cbn [app] in Hs.
          eapply gathers_step; [exact Hs|]. apply IH.
          * cbn [waiting running List.length] in *. lia.
          * eapply invariant_step; eassumption.
        + eapply (gathers_raise _ _ _ _ _ _ [] r' t e); [reflexivity|exact Hev]. }
    destruct w as [|t w'].
    + apply Hcomp. left. reflexivity.
    + destruct (Z.ltb_spec 0 k) as [Hk|Hk].
      * apply (Hacq t w' eq_refl Hk).
      * apply Hcomp. right. exact Hk.
Qed.

(** Every run over a folder returns an overall evaluation of all the
    selected files, each evaluated on its own. *)
Lemma evaluate_folder_returns (fs : node) (ee ef : option (list string))
    (out : result OverallEvaluation.t) :
  len (get_code_files fs folder_path ee ef) < 2 ^ 48 ->
  Folder fs ee ef out ->
  exists o order,
    out = Ok o /\
    Permutation order (get_code_files fs folder_path ee ef) /\
    Forall2 (fun t evaluation => evaluate t = Ok evaluation)
      order (OverallEvaluation.file_evaluations o) /\
    OverallEvaluation.total_files o = len (OverallEvaluation.file_evaluations o) /\
    OverallEvaluation.total_files o = len (get_code_files fs folder_path ee ef) /\
    1 <= OverallEvaluation.score o <= 10.
Proof.
  intros Hlen Hrun. unfold evaluate_folder in Hrun.
  pose proof (selected_files_evaluate fs ee ef) as Hall.
  destruct (get_code_files fs folder_path ee ef) as [|f files] eqn:Hfiles.
  - subst out. exists no_files, []. cbn. repeat split; try lia; constructor.
  - destruct Hrun as (collected & Hg & Hout).
    destruct (gathers_all (f :: files) _ _ Hall Hg (invariant_start _))
      as (evs & order & Hc & Hperm & Hev).
    subst collected. cbn [bind] in Hout.
    assert (Hsame : len evs = len (f :: files)).
    { unfold len. rewrite <- (Forall2_length Hev).
      rewrite (Permutation_length Hperm). reflexivity. }
    assert (Hne : evs <> []).
    { intros E. subst evs. rewrite len_cons in Hsame.
      pose proof (len_nonneg files). unfold len in Hsame at 1.
      cbn [List.length] in Hsame. lia. }
    assert (Hb : Forall bounded evs).
    { eapply Forall_impl; [exact in_range_bounded|].
      exact (Forall2_in_range _ _ Hev). }
    rewrite (calculate_overall_score_spec evs Hne Hb ltac:(lia)) in Hout.
    subst out. eexists. exists order. split; [reflexivity|].
    cbn [OverallEvaluation.file_evaluations OverallEvaluation.total_files
         OverallEvaluation.score].
    repeat split; try assumption; unfold spec_score; lia.
Qed.

Lemma evaluate_folder_exists (fs : node) (ee ef : option (list string)) :
  Folder fs ee ef
    (evaluate_folder_fifo read_text chat_completions_create json_loads
       deployment_name folder_path fs ee ef).
Proof.
  unfold evaluate_folder, evaluate_folder_fifo.
  destruct (get_code_files fs folder_path ee ef) as [|f files] eqn:Hfiles;
    [reflexivity|].
  eexists. split; [|reflexivity].
  apply (run_fifo_gathers (f :: files)).
  - cbn [start waiting running List.length]. lia.
  - apply invariant_start.
Qed.

End SchedulerFacts.

(** * The specification's statements *)

Lemma rne_div_nearest (a b k : Z) :
  0 < b ->
  Z.abs (a - Float64.rne_div a b * b) <= Z.abs (a - k * b).
Proof.
  intros Hb. pose proof (Float64Facts.rne_div_bounds a b Hb) as H.
  set (r := Float64.rne_div a b) in *.
  destruct (Z.lt_trichotomy k r) as [Hk|[Hk|Hk]].
  - assert (k + 1 <= r) by lia. nia.
  - subst k. lia.
  - assert (r + 1 <= k) by lia. nia.
Qed.

(** C2.  For a non-empty sequence of evaluations the overall score is the
    arithmetic mean of the scores rounded to a nearest integer (on a tie,
    the even one) and clamped to [1, 10]; for the empty sequence it is 1,
    with an explanatory reason and no file evaluations; in every case it
    lies in [1, 10]. *)
Theorem overall_score_rounded_mean (evs : list FileEvaluation.t) :
  Forall bounded evs -> len evs < 2 ^ 48 ->
  exists o,
    calculate_overall_score evs = Ok o /\
    1 <= OverallEvaluation.score o <= 10 /\
    (evs = [] ->
       OverallEvaluation.score o = 1 /\
       OverallEvaluation.reason o = "No code files found to evaluate" /\
       OverallEvaluation.file_evaluations o = []) /\
    (evs <> [] ->
       exists r,
         OverallEvaluation.score o = Z.max 1 (Z.min 10 r) /\
         r = Float64.rne_div (total evs) (len evs) /\
         (forall k, Z.abs (total evs - r * len evs)
                    <= Z.abs (total evs - k * len evs)) /\
         (2 * Z.abs (total evs - r * len evs) = len evs -> Z.even r = true)).
Proof.
  intros Hr Hlen. destruct evs as [|e0 evs0].
  - eexists. split; [reflexivity|]. cbn. repeat split; try lia.
    intros H. congruence.
  - set (evs := e0 :: evs0) in *.
    assert (Hne : evs <> []) by discriminate.
    rewrite (calculate_overall_score_spec evs Hne Hr Hlen).
    eexists. split; [reflexivity|].
    cbn [OverallEvaluation.score OverallEvaluation.reason
         OverallEvaluation.file_evaluations].
    assert (Hn : 0 < len evs).
    { unfold evs. rewrite len_cons. pose proof (len_nonneg evs0). lia. }
    split; [unfold spec_score; lia|].
    split; [intros H; congruence|].
    intros _. exists (Float64.rne_div (total evs) (len evs)).
    split; [reflexivity|]. split; [reflexivity|]. split.
    + intros k. apply rne_div_nearest. exact Hn.
    + intros Htie.
      pose proof (Float64Facts.rne_div_bounds (total evs) (len evs) Hn) as Hb.
      set (r := Float64.rne_div (total evs) (len evs)) in *.
      destruct (Z_lt_le_dec (total evs) (r * len evs)) as [Hlt|Hge].
      * assert (Hk : 2 * total evs = (2 * (r - 1) + 1) * len evs) by lia.
        pose proof (Float64Facts.rne_div_tie _ _ _ Hn Hk) as Ht. fold r in Ht.
        destruct (Z.even (r - 1)) eqn:E; [lia|].
        replace r with (Z.succ (r - 1)) by lia.
        rewrite Z.even_succ, <- Z.negb_even, E. reflexivity.
      * assert (Hk : 2 * total evs = (2 * r + 1) * len evs) by lia.
        pose proof (Float64Facts.rne_div_tie _ _ _ Hn Hk) as Ht. fold r in Ht.
        destruct (Z.even r) eqn:E; [reflexivity|lia].
Qed.

Lemma overall_score_rounded_mean_witness :
  exists o,
    calculate_overall_score (map sample_evaluation [2; 3]) = Ok o /\
    OverallEvaluation.score o = 2.
Proof.
  destruct (overall_score_rounded_mean (map sample_evaluation [2; 3]))
    as (o & Ho & _).
  - apply (Forall_impl _ in_range_bounded).
    repeat constructor; unfold in_range; simpl; lia.
  - reflexivity.
  - exists o. split; [exact Ho|].
    vm_compute in Ho. inversion Ho. reflexivity.
Defined.

(** Scores outside the range are averaged as they are and the result
    clamped; a tie goes to the even neighbour. *)
Example overall_score_samples :
  map (fun scores =>
         o <- calculate_overall_score (map sample_evaluation scores) ;;
         Ok (OverallEvaluation.score o))
    [[15; 20]; [-3; 0]; [2; 3]; [3; 4]; [9; 9; 9; 9; 2]]
  = [Ok 10; Ok 1; Ok 2; Ok 4; Ok 8].
Proof. reflexivity. Qed.

(** C3.  For a non-empty sequence the reason follows the first matching
    rule over the counts of high (score >= 7), medium (4 <= score <= 6)
    and low (score <= 3) evaluations: with more than six tenths high it
    says that most files show strong indicators of AI generation and
    cites high/total; else with more than six tenths low it says that
    most files appear to be human-written and cites low/total; else it
    says that the results are mixed and cites the three counts. *)
Theorem overall_reason_by_thresholds (evs : list FileEvaluation.t) :
  evs <> [] -> Forall bounded evs -> len evs < 2 ^ 48 ->
  let n := len evs in
  let high := len (filter (fun e => 7 <=? FileEvaluation.score e) evs) in
  let medium := len (filter (fun e => (4 <=? FileEvaluation.score e)
                                      && (FileEvaluation.score e <=? 6)) evs) in
  let low := len (filter (fun e => FileEvaluation.score e <=? 3) evs) in
  exists o,
    calculate_overall_score evs = Ok o /\
    (10 * high > 6 * n ->
       OverallEvaluation.reason o
       = ("Most files (" ++ str_of_int high ++ "/" ++ str_of_int n
          ++ ") show strong indicators of AI generation")%string) /\
    (~ 10 * high > 6 * n -> 10 * low > 6 * n ->
       OverallEvaluation.reason o
       = ("Most files (" ++ str_of_int low ++ "/" ++ str_of_int n
          ++ ") appear to be human-written")%string) /\
    (~ 10 * high > 6 * n -> ~ 10 * low > 6 * n ->
       OverallEvaluation.reason o
       = ("Mixed results: " ++ str_of_int high ++ " likely AI-generated, "
          ++ str_of_int medium ++ " uncertain, "
          ++ str_of_int low ++ " likely human-written")%string).
Proof.
  intros Hne Hr Hlen n high medium low.
  rewrite (calculate_overall_score_spec evs Hne Hr Hlen).
  eexists. split; [reflexivity|].
  cbn [OverallEvaluation.reason]. unfold spec_reason.
  fold n. change (len (filter is_high evs)) with high.
  change (len (filter is_medium evs)) with medium.
  change (len (filter is_low evs)) with low.
  destruct (Z.ltb_spec (3 * n) (5 * high));
    destruct (Z.ltb_spec (3 * n) (5 * low));
    repeat split; intros; try reflexivity; lia.
Qed.

Lemma overall_reason_by_thresholds_witness :
  (exists o,
     calculate_overall_score (map sample_evaluation [9; 9; 9; 9; 2]) = Ok o /\
     OverallEvaluation.reason o
     = "Most files (4/5) show strong indicators of AI generation") /\
  (exists o,
     calculate_overall_score (map sample_evaluation [1; 2; 2; 3; 1]) = Ok o /\
     OverallEvaluation.reason o
     = "Most files (5/5) appear to be human-written") /\
  (exists o,
     calculate_overall_score
       (map sample_evaluation (repeat 9 12 ++ repeat 5 10 ++ repeat 2 11)%list)
     = Ok o /\
     OverallEvaluation.reason o
     = "Mixed results: 12 likely AI-generated, 10 uncertain, 11 likely human-written").
Proof.
  assert (Hb : forall scores,
            forallb (fun z => (1 <=? z) && (z <=? 10)) scores = true ->
            Forall bounded (map sample_evaluation scores)).
  { intros scores H. apply (Forall_impl _ in_range_bounded).
    apply Forall_forall. intros e He. apply in_map_iff in He.
    destruct He as (z & <- & Hz).
    rewrite forallb_forall in H. specialize (H z Hz).
    unfold in_range. simpl. lia. }
  split; [|split].
  - destruct (overall_reason_by_thresholds (map sample_evaluation [9; 9; 9; 9; 2]))
      as (o & Ho & Hhigh & _).
    + discriminate.
    + apply Hb. reflexivity.
    + reflexivity.
    + exists o. split; [exact Ho|]. rewrite Hhigh; [reflexivity|].
      vm_compute. reflexivity.
  - destruct (overall_reason_by_thresholds (map sample_evaluation [1; 2; 2; 3; 1]))
      as (o & Ho & _ & Hlow & _).
    + discriminate.
    + apply Hb. reflexivity.
    + reflexivity.
    + exists o. split; [exact Ho|]. rewrite Hlow; [reflexivity| |].
      * vm_compute. discriminate.
      * vm_compute. reflexivity.
  - destruct (overall_reason_by_thresholds
                (map sample_evaluation
                   (repeat 9 12 ++ repeat 5 10 ++ repeat 2 11)%list))
      as (o & Ho & _ & _ & Hmixed).
    + discriminate.
    + apply Hb. reflexivity.
    + reflexivity.
    + exists o. split; [exact Ho|]. rewrite Hmixed; [reflexivity| |].
      * vm_compute. discriminate.
      * vm_compute. discriminate.
Defined.

(** C6 fails on an exclusion that is not written in lower case: with
    [.PY] excluded, the file [b.PY] is selected all the same, because
    its suffix is lower-cased before it is looked up in the caller's
    set, and the set is taken as it is. *)
Lemma selection_as_stated_fails :
  get_code_files sample_fs ["/"; "home"; "proj"] (Some [".PY"]) None
  = [ ["/"; "home"; "proj"; "b.PY"];
      ["/"; "home"; "proj"; "src"; "main.rs"];
      ["/"; "home"; "proj"; "src"; "lib"; "u.ts"] ]
  /\ ~ selection_as_stated.
Proof.
  split; [reflexivity|]. intros H.
  assert (Hin : In ["/"; "home"; "proj"; "b.PY"]
                  (get_code_files sample_fs ["/"; "home"; "proj"]
                     (Some [".PY"]) None)) by (left; reflexivity).
  apply H in Hin. destruct Hin as (n & _ & _ & _ & Hexcluded & _).
  apply Hexcluded. exists ".PY". split; [left; reflexivity|reflexivity].
Qed.

(** C6, amended.  [get_code_files] returns exactly the entries below the
    root that are regular files of more than 0 bytes, whose suffix in
    lower case is one of the 25 code extensions and is not an element of
    the caller's exclusion set as that set is given, and no part of
    whose path, the root's parts included, starts with a dot, is one of
    the six default exclusions or is one of the caller's excluded
    folders. *)
Theorem selection_exact (fs : node) (folder_path : Path)
    (exclude_extensions exclude_folders : option (list string)) (p : Path) :
  In p (get_code_files fs folder_path exclude_extensions exclude_folders) <->
  exists n,
    In (p, n) (rglob folder_path fs) /\
    (exists sz, n = File sz /\ 0 < sz) /\
    In (lower (suffix p))
      [".py"; ".js"; ".ts"; ".jsx"; ".tsx"; ".java"; ".cpp"; ".c"; ".cs";
       ".go"; ".rs"; ".php"; ".rb"; ".swift"; ".kt"; ".scala"; ".sh";
       ".ps1"; ".sql"; ".html"; ".css"; ".vue"; ".dart"; ".r"; ".m"] /\
    ~ In (lower (suffix p))
        match exclude_extensions with Some set => set | None => [] end /\
    forall seg, In seg p ->
      (forall rest, seg <> String "."%char rest) /\
      ~ In seg [".git"; "node_modules"; "__pycache__"; "venv"; "env"; ".venv"] /\
      ~ In seg match exclude_folders with Some set => set | None => [] end.
Proof.
  rewrite get_code_files_In.
  assert (Hdot : forall seg,
            startswith_dot seg = false <-> forall rest, seg <> String "."%char rest).
  { intros seg. destruct seg as [|c seg]; simpl.
    - split; [discriminate|reflexivity].
    - destruct (Ascii.eqb_spec c "."%char) as [->|Hc].
      + split; [discriminate|]. intros H. exfalso. apply (H seg). reflexivity.
      + assert (Hf : match c with
                     | "."%char => true
                     | _ => false
                     end = false).
        { destruct c as [[] [] [] [] [] [] [] []]; try reflexivity.
          exfalso. apply Hc. reflexivity. }
        rewrite Hf. split; [|reflexivity].
        intros _ rest Heq. inversion Heq. contradiction. }
  split.
  - intros (n & Hin & Hsel). exists n. split; [exact Hin|].
    apply selected_spec in Hsel.
    destruct Hsel as (Hfile & Hext & Hexcl & Hsegs).
    split; [exact Hfile|]. split; [exact Hext|]. split; [exact Hexcl|].
    intros seg Hseg. destruct (Hsegs seg Hseg) as (H1 & H2 & H3).
    split; [apply Hdot, H1|]. split; [exact H2|exact H3].
  - intros (n & Hin & Hfile & Hext & Hexcl & Hsegs). exists n.
    split; [exact Hin|]. apply selected_spec.
    split; [exact Hfile|]. split; [exact Hext|]. split; [exact Hexcl|].
    intros seg Hseg. destruct (Hsegs seg Hseg) as (H1 & H2 & H3).
    split; [apply Hdot, H1|]. split; [exact H2|exact H3].
Qed.

Lemma selection_exact_witness :
  let root := ["/"; "home"; "proj"] in
  let found := get_code_files sample_fs root None (Some ["lib"]) in
  In (root ++ ["b.PY"])%list found /\
  In (root ++ ["src"; "main.rs"])%list found /\
  ~ In (root ++ [".env"])%list found /\
  ~ In (root ++ ["node_modules"; "x.js"])%list found /\
  ~ In (root ++ ["a.py"])%list found /\
  ~ In (root ++ ["a.txt"])%list found /\
  ~ In (root ++ ["src"; "lib"; "u.ts"])%list found.
Proof.
  intros root found. subst root found. cbn [app].
  assert (Hclear : forall p : Path,
            (forall seg, In seg p ->
               seg = "/" \/ seg = "home" \/ seg = "proj" \/ seg = "b.PY"
               \/ seg = "src" \/ seg = "main.rs") ->
            forall seg, In seg p ->
              (forall rest, seg <> String "."%char rest) /\
              ~ In seg [".git"; "node_modules"; "__pycache__"; "venv"; "env";
                        ".venv"] /\
              ~ In seg ["lib"]).
  { intros p Hp seg Hseg.
    destruct (Hp seg Hseg) as [-> | [-> | [-> | [-> | [-> | ->]]]]];
      (split; [intros rest; discriminate|]);
      (split; intros Hin; cbn [In] in Hin;
       repeat (destruct Hin as [Hin|Hin]; [discriminate|]); exact Hin). }
  split; [|split; [|split; [|split; [|split; [|split]]]]].
  - apply (proj2 (selection_exact sample_fs ["/"; "home"; "proj"] None
                    (Some ["lib"]) ["/"; "home"; "proj"; "b.PY"])).
    exists (File 3). split; [cbn; repeat (first [left; reflexivity | right])|].
    split; [exists 3; split; [reflexivity|lia]|].
    split; [cbn; repeat (first [left; reflexivity | right])|]. split; [intros []|].
    apply Hclear. intros seg Hseg. cbn [In] in Hseg.
    intuition (subst; auto 10).
  - apply (proj2 (selection_exact sample_fs ["/"; "home"; "proj"] None
                    (Some ["lib"]) ["/"; "home"; "proj"; "src"; "main.rs"])).
    exists (File 7). split; [cbn; repeat (first [left; reflexivity | right])|].
    split; [exists 7; split; [reflexivity|lia]|].
    split; [cbn; repeat (first [left; reflexivity | right])|]. split; [intros []|].
    apply Hclear. intros seg Hseg. cbn [In] in Hseg.
    intuition (subst; auto 10).
  - intros H.
    apply (proj1 (selection_exact sample_fs ["/"; "home"; "proj"] None
                    (Some ["lib"]) ["/"; "home"; "proj"; ".env"])) in H.
    destruct H as (n & _ & _ & _ & _ & Hsegs).
    destruct (Hsegs ".env") as (Hdot & _); [cbn [In]; tauto|].
    apply (Hdot "env"). reflexivity.
  - intros H.
    apply (proj1 (selection_exact sample_fs ["/"; "home"; "proj"] None
                    (Some ["lib"])
                    ["/"; "home"; "proj"; "node_modules"; "x.js"])) in H.
    destruct H as (n & _ & _ & _ & _ & Hsegs).
    destruct (Hsegs "node_modules") as (_ & Hdefault & _); [cbn [In]; tauto|].
    apply Hdefault. cbn [In]. tauto.
  - intros H.
    apply (proj1 (selection_exact sample_fs ["/"; "home"; "proj"] None
                    (Some ["lib"]) ["/"; "home"; "proj"; "a.py"])) in H.
    destruct H as (n & Hin & (sz & Hn & Hsz) & _).
    vm_compute in Hin.
    repeat (destruct Hin as [Hin|Hin];
            [first [discriminate Hin
                   | inversion Hin; subst;
                     match goal with
                     | H0 : File _ = File _ |- _ => inversion H0; lia
                     end]|]).
    exact Hin.
  - intros H.
    apply (proj1 (selection_exact sample_fs ["/"; "home"; "proj"] None
                    (Some ["lib"]) ["/"; "home"; "proj"; "a.txt"])) in H.
    destruct H as (n & _ & _ & Hext & _).
    vm_compute in Hext.
    repeat (destruct Hext as [Hext|Hext]; [discriminate|]). exact Hext.
  - intros H.
    apply (proj1 (selection_exact sample_fs ["/"; "home"; "proj"] None
                    (Some ["lib"])
                    ["/"; "home"; "proj"; "src"; "lib"; "u.ts"])) in H.
    destruct H as (n & _ & _ & _ & _ & Hsegs).
    destruct (Hsegs "lib") as (_ & _ & Huser); [cbn [In]; tauto|].
    apply Huser. left. reflexivity.
Defined.

(** The four files the specification names are left out, and the others
    of the sample tree are kept. *)
Example selection_sample :
  get_code_files sample_fs ["/"; "home"; "proj"] None None
  = [ ["/"; "home"; "proj"; "b.PY"];
      ["/"; "home"; "proj"; "src"; "main.rs"];
      ["/"; "home"; "proj"; "src"; "lib"; "u.ts"] ].
Proof. reflexivity. Qed.

(** C10 fails when the root is passed as a relative path: a folder
    [proj] scanned from inside [/home/.config] has a hidden part in its
    absolute path, and its files are selected all the same. *)
Lemma hidden_root_as_stated_fails :
  absolute ["/"; "home"; ".config"] ["proj"] = ["/"; "home"; ".config"; "proj"]
  /\ get_code_files sample_fs ["proj"] None None
     = [ ["proj"; "b.PY"]; ["proj"; "src"; "main.rs"];
         ["proj"; "src"; "lib"; "u.ts"] ]
  /\ ~ hidden_root_as_stated.
Proof.
  split; [reflexivity|]. split; [reflexivity|].
  intros H.
  specialize (H ["/"; "home"; ".config"] sample_fs ["proj"] None None ".config").
  assert (Hin : In ".config" (parts (absolute ["/"; "home"; ".config"] ["proj"])))
    by (simpl; tauto).
  specialize (H Hin (or_introl eq_refl)).
  vm_compute in H. discriminate.
Qed.

(** C10, amended.  When a part of the root's path, as it is passed,
    starts with a dot or is a default exclusion, nothing is selected,
    whatever the caller excludes: the test runs over every part of each
    candidate's path, those of the root included. *)
Theorem hidden_root_selects_nothing (fs : node) (folder_path : Path)
    (exclude_extensions exclude_folders : option (list string)) (seg : string) :
  In seg (parts folder_path) ->
  startswith_dot seg = true \/ In seg default_exclusions ->
  get_code_files fs folder_path exclude_extensions exclude_folders = [].
Proof.
  intros Hin Hseg.
  destruct (get_code_files fs folder_path exclude_extensions exclude_folders)
    as [|p rest] eqn:E; [reflexivity|]. exfalso.
  assert (Hp : In p (get_code_files fs folder_path exclude_extensions
                       exclude_folders)) by (rewrite E; left; reflexivity).
  apply get_code_files_In in Hp. destruct Hp as (n & Hr & Hs).
  apply selected_spec in Hs. destruct Hs as (_ & _ & _ & Hclear).
  destruct (rglob_below _ _ _ _ Hr) as (rel & _ & Hrel).
  assert (Hinp : In seg (parts p)).
  { rewrite Hrel. unfold parts, joinpath. apply in_or_app. left. exact Hin. }
  destruct (Hclear seg Hinp) as (Hdot & Hdef & _).
  destruct Hseg as [Hd|Hd]; [congruence|contradiction].
Qed.

Lemma hidden_root_selects_nothing_witness :
  get_code_files sample_fs ["/"; "home"; ".config"; "proj"] None None = []
  /\ get_code_files sample_fs ["/"; "srv"; "env"; "proj"] None (Some ["lib"]) = [].
Proof.
  split.
  - apply (hidden_root_selects_nothing _ _ _ _ ".config").
    + simpl. tauto.
    + left. reflexivity.
  - apply (hidden_root_selects_nothing _ _ _ _ "env").
    + simpl. tauto.
    + right. simpl. tauto.
Defined.

Lemma slice_to_length (k : Z) (s : string) :
  0 <= k -> Z.of_nat (String.length (slice_to k s)) = Z.min k (Z.of_nat (String.length s)).
Proof.
  intros Hk. unfold slice_to.
  assert (H : forall n s, String.length (substring 0 n s)
                          = Nat.min n (String.length s)).
  { clear. induction n as [|n IH]; intros [|c s]; simpl; try reflexivity.
    rewrite IH. reflexivity. }
  rewrite H. lia.
Qed.

Lemma slice_to_prefix (k : Z) (s : string) :
  exists rest, s = (slice_to k s ++ rest)%string.
Proof.
  unfold slice_to. generalize (Z.to_nat k) as n. clear k.
  intros n. revert s. induction n as [|n IH]; intros [|c s]; simpl.
  - exists "". reflexivity.
  - exists (String c s). reflexivity.
  - exists "". reflexivity.
  - destruct (IH s) as (rest & Hr). exists rest. rewrite <- Hr. reflexivity.
Qed.

(** C8.  [read_file_content] always returns a string: the content as it
    is when it has at most 8000 characters; its first 8000 characters
    followed by a line break and the marker [... (truncated)] when it is
    longer; and [Error reading file: ] with the error's description when
    reading raised. *)
Theorem content_loader_total (read_text : Path -> result string)
    (file_path : Path) :
  (exists s, read_file_content read_text file_path = Ok s) /\
  (forall content,
     read_text file_path = Ok content ->
     (8000 < Z.of_nat (String.length content) ->
        exists first rest,
          content = (first ++ rest)%string /\
          Z.of_nat (String.length first) = 8000 /\
          read_file_content read_text file_path
          = Ok (first ++ String "010"%char "... (truncated)")%string) /\
     (Z.of_nat (String.length content) <= 8000 ->
        read_file_content read_text file_path = Ok content)) /\
  (forall e,
     read_text file_path = Raise e ->
     read_file_content read_text file_path
     = Ok ("Error reading file: " ++ exn_str e)%string).
Proof.
  split; [|split].
  - eexists. apply read_file_content_total.
  - intros content H. rewrite read_file_content_total. unfold content_of.
    rewrite H. split; intros Hl.
    + destruct (Z.ltb_spec 8000 (Z.of_nat (String.length content))); [|lia].
      destruct (slice_to_prefix 8000 content) as (rest & Hrest).
      exists (slice_to 8000 content), rest.
      split; [exact Hrest|]. split; [|reflexivity].
      rewrite slice_to_length by lia. lia.
    + destruct (Z.ltb_spec 8000 (Z.of_nat (String.length content)));
        [lia|reflexivity].
  - intros e H. rewrite read_file_content_total. unfold content_of.
    rewrite H. reflexivity.
Qed.

(** C1 fails on a reply that is valid JSON but not an object: for the
    reply [[1, 2]] the reason is that of the outer handler. *)
Lemma parse_failure_as_stated_fails :
  evaluate_file sample_read_text (answering "[1, 2]") Json.loads
    ["proj"; "a.py"] "gpt-4o" ["proj"]
  = Ok {| FileEvaluation.filename := "a.py";
          FileEvaluation.score := 5;
          FileEvaluation.reason :=
            PyStr "Error during evaluation: 'list' object has no attribute 'get'";
          FileEvaluation.file_type := ".py" |}
  /\ ~ parse_failure_as_stated.
Proof.
  split; [reflexivity|].
  intros H.
  destruct (H sample_read_text (answering "[1, 2]") Json.loads
              ["proj"; "a.py"] "gpt-4o" ["proj"] ["a.py"] "[1, 2]"
              eq_refl eq_refl) as (ev & Hev & _ & k & Hreason).
  - intros (d & Hd). vm_compute in Hd. discriminate.
  - vm_compute in Hev. inversion Hev. subst ev.
    cbn in Hreason. discriminate.
Qed.

(** C1, amended.  When the reply is not JSON, the evaluation has score 5
    and the reason is the parse-failure indicator followed by the first
    200 characters of the reply; when the reply is JSON of another shape
    (not an object, or a score [int] rejects) the score is 5 as well and
    the reason is that of the outer handler, with the exception's
    message. *)
Theorem parse_failure_fallback
    (read_text : Path -> result string)
    (chat : Path -> string -> list (string * string) -> result response)
    (json_loads : string -> result py_value)
    (file_path : Path) (deployment_name : string) (base_path rel : Path)
    (text : string) :
  relative_to file_path base_path = Ok rel ->
  reply_text read_text chat file_path deployment_name = Ok text ->
  let evaluation (reason : string) :=
    Ok {| FileEvaluation.filename := str_of_path rel;
          FileEvaluation.score := 5;
          FileEvaluation.reason := PyStr reason;
          FileEvaluation.file_type := suffix file_path |} in
  let returned :=
    evaluate_file read_text chat json_loads file_path deployment_name base_path in
  (forall e, json_loads text = Raise e -> exn_class e = "JSONDecodeError" ->
     returned = evaluation ("Unable to parse AI response: " ++ slice_to 200 text)%string
     /\ Z.of_nat (String.length (slice_to 200 text)) <= 200
     /\ exists rest, text = (slice_to 200 text ++ rest)%string) /\
  (forall v, json_loads text = Ok v -> (forall d, v <> PyDict d) ->
     returned = evaluation ("Error during evaluation: '" ++ type_name v
                            ++ "' object has no attribute 'get'")%string) /\
  (forall d e, json_loads text = Ok (PyDict d) ->
     py_int (dict_get d "score" (PyInt 5)) = Raise e ->
     returned = evaluation ("Error during evaluation: " ++ exn_str e)%string).
Proof.
  intros Hrel Htext evaluation returned. subst returned.
  rewrite (evaluate_file_cases _ _ _ _ _ _ _ Hrel), Htext.
  split; [|split].
  - intros e He Hc. rewrite (parse_result_not_json _ _ _ He Hc).
    split; [reflexivity|]. split.
    + rewrite slice_to_length by lia. lia.
    + apply slice_to_prefix.
  - intros v Hv Hnd. rewrite (parse_result_not_dict _ _ _ Hv Hnd). reflexivity.
  - intros d e Hd He. rewrite (parse_result_bad_score _ _ _ _ Hd He).
    reflexivity.
Qed.

Lemma parse_failure_fallback_witness :
  evaluate_file sample_read_text (answering "not json") Json.loads
    ["proj"; "a.py"] "gpt-4o" ["proj"]
  = Ok {| FileEvaluation.filename := "a.py";
          FileEvaluation.score := 5;
          FileEvaluation.reason := PyStr "Unable to parse AI response: not json";
          FileEvaluation.file_type := ".py" |}.
Proof.
  destruct (parse_failure_fallback sample_read_text (answering "not json")
              Json.loads ["proj"; "a.py"] "gpt-4o" ["proj"] ["a.py"] "not json"
              eq_refl eq_refl) as (Hjson & _).
  destruct (Hjson (Json.decode_error "Expecting value") eq_refl eq_refl)
    as (Hret & _).
  exact Hret.
Defined.

(** C4 fails on a score that is not whole: for the reply
    [{"score": 7.9, "reason": "x"}] the recorded score is 7, the score
    cut to its integer part, and not 7.9 clamped. *)
Lemma parsed_score_as_stated_fails :
  evaluate_file sample_read_text (answering (q "{'score': 7.9, 'reason': 'x'}"))
    Json.loads ["proj"; "a.py"] "gpt-4o" ["proj"]
  = Ok {| FileEvaluation.filename := "a.py";
          FileEvaluation.score := 7;
          FileEvaluation.reason := PyStr "x";
          FileEvaluation.file_type := ".py" |}
  /\ ~ parsed_score_as_stated.
Proof.
  split; [vm_compute; reflexivity|].
  intros H.
  destruct (H sample_read_text (answering (q "{'score': 7.9, 'reason': 'x'}"))
              Json.loads ["proj"; "a.py"] "gpt-4o" ["proj"] ["a.py"]
              (q "{'score': 7.9, 'reason': 'x'}")
              [("score", PyFloat (Float64.FFinite 8894609264056730 (-50)));
               ("reason", PyStr "x")]
              (PyFloat (Float64.FFinite 8894609264056730 (-50)))
              8894609264056730 (2 ^ 50)
              eq_refl eq_refl eq_refl eq_refl eq_refl)
    as (evaluation & Hev & Hscore).
  vm_compute in Hev. inversion Hev as [Heq]. subst evaluation.
  vm_compute in Hscore. discriminate.
Qed.

(** C4, amended.  When the reply decodes to an object whose score is a
    number, the recorded score is [int] of that number clamped to
    [1, 10]: an integer as it is, a float cut toward zero to its integer
    part first; values above 10 give 10 and values below 1 give 1.  The
    reason is the one given or, when the field is absent, the
    placeholder. *)
Theorem parsed_score_clamped
    (read_text : Path -> result string)
    (chat : Path -> string -> list (string * string) -> result response)
    (json_loads : string -> result py_value)
    (file_path : Path) (deployment_name : string) (base_path rel : Path)
    (text : string) (d : list (string * py_value)) (v : py_value) :
  relative_to file_path base_path = Ok rel ->
  reply_text read_text chat file_path deployment_name = Ok text ->
  json_loads text = Ok (PyDict d) ->
  dict_lookup d "score" = Some v ->
  let records (z : Z) :=
    exists evaluation,
      evaluate_file read_text chat json_loads file_path deployment_name base_path
      = Ok evaluation /\
      FileEvaluation.filename evaluation = str_of_path rel /\
      FileEvaluation.score evaluation = Z.max 1 (Z.min 10 z) /\
      (10 < z -> FileEvaluation.score evaluation = 10) /\
      (z < 1 -> FileEvaluation.score evaluation = 1) /\
      (1 <= z <= 10 -> FileEvaluation.score evaluation = z) /\
      (dict_lookup d "reason" = None ->
         FileEvaluation.reason evaluation = PyStr "No reason provided") /\
      (forall r, dict_lookup d "reason" = Some r ->
         FileEvaluation.reason evaluation = r) in
  (forall z, v = PyInt z -> records z) /\
  (forall m e, v = PyFloat (Float64.FFinite m e) ->
     records (if 0 <=? e then m * 2 ^ e else Z.quot m (2 ^ (- e)))).
Proof.
  intros Hrel Htext Hd Hv records.
  assert (Hgen : forall z, py_int v = Ok z -> records z).
  { intros z Hz. subst records.
    assert (Hint : py_int (dict_get d "score" (PyInt 5)) = Ok z).
    { rewrite dict_get_lookup, Hv. exact Hz. }
    rewrite (evaluate_file_cases _ _ _ _ _ _ _ Hrel), Htext.
    rewrite (parse_result_dict _ _ _ _ Hd Hint).
    eexists. split; [reflexivity|].
    cbn [FileEvaluation.filename FileEvaluation.score FileEvaluation.reason
         fst snd].
    unfold clamp. rewrite dict_get_lookup.
    repeat split; try lia.
    - intros Hn. rewrite Hn. reflexivity.
    - intros r Hsome. rewrite Hsome. reflexivity. }
  split.
  - intros z ->. apply Hgen. reflexivity.
  - intros m e ->. apply Hgen. reflexivity.
Qed.

Lemma parsed_score_clamped_witness :
  (exists evaluation,
     evaluate_file sample_read_text (answering (q "{'score': 15, 'reason': 'x'}"))
       Json.loads ["proj"; "a.py"] "gpt-4o" ["proj"] = Ok evaluation /\
     FileEvaluation.score evaluation = 10 /\
     FileEvaluation.reason evaluation = PyStr "x") /\
  (exists evaluation,
     evaluate_file sample_read_text (answering (q "{'score': -3}"))
       Json.loads ["proj"; "a.py"] "gpt-4o" ["proj"] = Ok evaluation /\
     FileEvaluation.score evaluation = 1 /\
     FileEvaluation.reason evaluation = PyStr "No reason provided") /\
  (exists evaluation,
     evaluate_file sample_read_text (answering (q "{'score': 7.9, 'reason': 'x'}"))
       Json.loads ["proj"; "a.py"] "gpt-4o" ["proj"] = Ok evaluation /\
     FileEvaluation.score evaluation = 7 /\
     FileEvaluation.reason evaluation = PyStr "x").
Proof.
  split; [|split].
  - destruct (parsed_score_clamped sample_read_text
                (answering (q "{'score': 15, 'reason': 'x'}")) Json.loads
                ["proj"; "a.py"] "gpt-4o" ["proj"] ["a.py"]
                (q "{'score': 15, 'reason': 'x'}")
                [("score", PyInt 15); ("reason", PyStr "x")] (PyInt 15)
                eq_refl eq_refl eq_refl eq_refl) as (Hint & _).
    destruct (Hint 15 eq_refl)
      as (ev & Hev & _ & _ & Hhigh & _ & _ & _ & Hreason).
    exists ev. split; [exact Hev|]. split.
    + apply Hhigh. lia.
    + apply Hreason. reflexivity.
  - destruct (parsed_score_clamped sample_read_text
                (answering (q "{'score': -3}")) Json.loads
                ["proj"; "a.py"] "gpt-4o" ["proj"] ["a.py"]
                (q "{'score': -3}") [("score", PyInt (-3))] (PyInt (-3))
                eq_refl eq_refl eq_refl eq_refl) as (Hint & _).
    destruct (Hint (-3) eq_refl)
      as (ev & Hev & _ & _ & _ & Hlow & _ & Hnone & _).
    exists ev. split; [exact Hev|]. split.
    + apply Hlow. lia.
    + apply Hnone. reflexivity.
  - destruct (parsed_score_clamped sample_read_text
                (answering (q "{'score': 7.9, 'reason': 'x'}")) Json.loads
                ["proj"; "a.py"] "gpt-4o" ["proj"] ["a.py"]
                (q "{'score': 7.9, 'reason': 'x'}")
                [("score", PyFloat (Float64.FFinite 8894609264056730 (-50)));
                 ("reason", PyStr "x")]
                (PyFloat (Float64.FFinite 8894609264056730 (-50)))
                eq_refl eq_refl eq_refl eq_refl) as (_ & Hfloat).
    destruct (Hfloat 8894609264056730 (-50) eq_refl)
      as (ev & Hev & _ & Hscore & _ & _ & _ & _ & Hreason).
    exists ev. split; [exact Hev|]. split.
    + rewrite Hscore. reflexivity.
    + apply Hreason. reflexivity.
Defined.

(** C5.  When the request for a file raises, [evaluate_file] returns an
    evaluation with score 5 and the failure's message in the reason
    instead of raising; an evaluation depends on the replies to its own
    file only; and every run over a folder returns, with one evaluation
    for each selected file. *)
Theorem oracle_failure_contained
    (read_text : Path -> result string)
    (chat : Path -> string -> list (string * string) -> result response)
    (json_loads : string -> result py_value)
    (deployment_name : string) (folder_path : Path) :
  (forall file_path rel e,
     relative_to file_path folder_path = Ok rel ->
     reply read_text chat file_path deployment_name = Raise e ->
     evaluate_file read_text chat json_loads file_path deployment_name folder_path
     = Ok {| FileEvaluation.filename := str_of_path rel;
             FileEvaluation.score := 5;
             FileEvaluation.reason :=
               PyStr ("Error during evaluation: " ++ exn_str e)%string;
             FileEvaluation.file_type := suffix file_path |}) /\
  (forall chat' file_path,
     (forall deployment messages,
        chat' file_path deployment messages = chat file_path deployment messages) ->
     evaluate_file read_text chat' json_loads file_path deployment_name folder_path
     = evaluate_file read_text chat json_loads file_path deployment_name
         folder_path) /\
  (forall fs exclude_extensions exclude_folders,
     let files := get_code_files fs folder_path exclude_extensions
                    exclude_folders in
     len files < 2 ^ 48 ->
     (exists out,
        evaluate_folder read_text chat json_loads deployment_name folder_path
          fs exclude_extensions exclude_folders out) /\
     (forall out,
        evaluate_folder read_text chat json_loads deployment_name folder_path
          fs exclude_extensions exclude_folders out ->
        exists o order,
          out = Ok o /\ Permutation order files /\
          Forall2 (fun t evaluation =>
                     evaluate_file read_text chat json_loads t deployment_name
                       folder_path = Ok evaluation)
            order (OverallEvaluation.file_evaluations o))).
Proof.
  split; [|split].
  - intros file_path rel e Hrel Hreply.
    rewrite (evaluate_file_cases _ _ _ _ _ _ _ Hrel).
    unfold reply_text. rewrite Hreply. reflexivity.
  - intros chat' file_path Hsame. unfold evaluate_file.
    rewrite !read_file_content_total. cbn [bind].
    rewrite Hsame. reflexivity.
  - intros fs ee ef files Hlen. split.
    + eexists. apply evaluate_folder_exists.
    + intros out Hrun.
      destruct (evaluate_folder_returns _ _ _ _ _ _ _ _ _ Hlen Hrun)
        as (o & order & Hout & Hperm & Hev & _).
      exists o, order. repeat split; assumption.
Qed.

Lemma oracle_failure_contained_witness :
  evaluate_file sample_read_text
    (failing (mk_exn "APITimeoutError" "Request timed out.")) Json.loads
    ["proj"; "a.py"] "gpt-4o" ["proj"]
  = Ok {| FileEvaluation.filename := "a.py";
          FileEvaluation.score := 5;
          FileEvaluation.reason :=
            PyStr "Error during evaluation: Request timed out.";
          FileEvaluation.file_type := ".py" |}.
Proof.
  destruct (oracle_failure_contained sample_read_text
              (failing (mk_exn "APITimeoutError" "Request timed out."))
              Json.loads "gpt-4o" ["proj"]) as (Hraise & _).
  apply (Hraise ["proj"; "a.py"] ["a.py"]
           (mk_exn "APITimeoutError" "Request timed out.") eq_refl eq_refl).
Defined.

(** C7.  The overall evaluation [calculate_overall_score] builds has
    [total_files] equal to the length of [file_evaluations], and so has
    the one every run over a folder returns. *)
Theorem total_files_is_length :
  (forall evs o,
     calculate_overall_score evs = Ok o ->
     OverallEvaluation.total_files o = len (OverallEvaluation.file_evaluations o)) /\
  (forall read_text chat json_loads deployment_name folder_path fs
          exclude_extensions exclude_folders out,
     len (get_code_files fs folder_path exclude_extensions exclude_folders)
     < 2 ^ 48 ->
     evaluate_folder read_text chat json_loads deployment_name folder_path
       fs exclude_extensions exclude_folders out ->
     exists o,
       out = Ok o /\
       OverallEvaluation.total_files o
       = len (OverallEvaluation.file_evaluations o)).
Proof.
  split.
  - intros evs o. unfold calculate_overall_score.
    destruct evs as [|e0 evs0].
    + intros H. inversion H. reflexivity.
    + destruct (Float64.true_div _ _) as [f|e]; cbn [bind]; [|discriminate].
      destruct (Float64.py_round f) as [r|e]; cbn [bind]; [|discriminate].
      destruct (times_0_6 _) as [th|e]; cbn [bind]; [|discriminate].
      intros H. inversion H. reflexivity.
  - intros read_text chat json_loads d folder_path fs ee ef out Hlen Hrun.
    destruct (evaluate_folder_returns _ _ _ _ _ _ _ _ _ Hlen Hrun)
      as (o & order & Hout & _ & _ & Htotal & _).
    exists o. split; assumption.
Qed.

Lemma total_files_is_length_witness :
  exists o,
    evaluate_folder_fifo sample_read_text (answering (q "{'score': 8}"))
      Json.loads "gpt-4o" ["proj"] sample_fs None None = Ok o /\
    OverallEvaluation.total_files o = 3 /\
    len (OverallEvaluation.file_evaluations o) = 3.
Proof.
  destruct total_files_is_length as (_ & Hrun).
  destruct (Hrun sample_read_text (answering (q "{'score': 8}")) Json.loads
              "gpt-4o" ["proj"] sample_fs None None _ eq_refl
              (evaluate_folder_exists _ _ _ _ _ _ _ _))
    as (o & Hout & Htotal).
  exists o. split; [exact Hout|].
  vm_compute in Hout. inversion Hout. split; reflexivity.
Defined.


(** A run over the sample folder with the schedule of [run_fifo]. *)
Example evaluate_folder_sample :
  evaluate_folder_fifo sample_read_text (answering (q "{'score': 8}"))
    Json.loads "gpt-4o" ["proj"] sample_fs None None
  = Ok {| OverallEvaluation.score := 8;
          OverallEvaluation.reason :=
            "Most files (3/3) show strong indicators of AI generation";
          OverallEvaluation.total_files := 3;
          OverallEvaluation.file_evaluations :=
            map (fun file =>
                   {| FileEvaluation.filename := fst file;
                      FileEvaluation.score := 8;
                      FileEvaluation.reason := PyStr "No reason provided";
                      FileEvaluation.file_type := snd file |})
              [("b.PY", ".PY"); ("src/main.rs", ".rs"); ("src/lib/u.ts", ".ts")] |}.
Proof. reflexivity. Qed.

(** A fractional score goes through [int], which truncates, before the
    clamp; a score that is no number is handled by the outer handler. *)
Example fractional_score_sample :
  map (fun text =>
         evaluation <- evaluate_file sample_read_text (answering (q text))
                         Json.loads ["proj"; "a.py"] "gpt-4o" ["proj"] ;;
         Ok (FileEvaluation.score evaluation, FileEvaluation.reason evaluation))
    ["{'score': 7.9, 'reason': 'x'}"; "{'reason': 'y'}";
     "{'score': 'high'}"; "{'score': null}"]
  = [Ok (7, PyStr "x"); Ok (5, PyStr "y");
     Ok (5, PyStr "Error during evaluation: invalid literal for int() with base 10: 'high'");
     Ok (5, PyStr "Error during evaluation: int() argument must be a string, a bytes-like object or a real number, not 'NoneType'")].
Proof. reflexivity. Qed.

(** * Further properties of the aggregation *)

Lemma count_if_cons {A : Type} (p : A -> bool) (x : A) (l : list A) :
  count_if p (x :: l) = (if p x then 1 else 0) + count_if p l.
Proof.
  rewrite !count_if_filter. simpl filter. destruct (p x).
  - rewrite len_cons. reflexivity.
  - lia.
Qed.

Lemma count_if_permutation {A : Type} (p : A -> bool) (l l' : list A) :
  Permutation l l' -> count_if p l = count_if p l'.
Proof.
  induction 1 as [|x l l' _ IH|x y l|l l' l'' _ IH1 _ IH2].
  - reflexivity.
  - rewrite !count_if_cons, IH. reflexivity.
  - rewrite !count_if_cons. lia.
  - congruence.
Qed.

Lemma total_permutation (evs evs' : list FileEvaluation.t) :
  Permutation evs evs' -> total evs = total evs'.
Proof.
  unfold total.
  induction 1 as [|x l l' _ IH|x y l|l l' l'' _ IH1 _ IH2]; simpl map.
  - reflexivity.
  - rewrite !sum_cons, IH. reflexivity.
  - rewrite !sum_cons. lia.
  - congruence.
Qed.

Lemma len_permutation {A : Type} (l l' : list A) :
  Permutation l l' -> len l = len l'.
Proof. intros H. unfold len. rewrite (Permutation_length H). reflexivity. Qed.

(** X1.  Every score falls in exactly one of the three classes: the
    counts of high, medium and low evaluations add up to the number of
    evaluations, so the rules "most high" and "most low" never both
    apply. *)
Theorem score_classes_partition (evs : list FileEvaluation.t) :
  count_if is_high evs + count_if is_medium evs + count_if is_low evs = len evs
  /\ (0 < len evs ->
      ~ (10 * count_if is_high evs > 6 * len evs
         /\ 10 * count_if is_low evs > 6 * len evs)).
Proof.
  assert (Hsum : count_if is_high evs + count_if is_medium evs
                 + count_if is_low evs = len evs).
  { induction evs as [|e evs IH]; [reflexivity|].
    rewrite !count_if_cons, len_cons, <- IH.
    unfold is_high, is_medium, is_low.
    destruct (Z.leb_spec 7 (FileEvaluation.score e));
      destruct (Z.leb_spec 4 (FileEvaluation.score e));
      destruct (Z.leb_spec (FileEvaluation.score e) 6);
      destruct (Z.leb_spec (FileEvaluation.score e) 3);
      cbn [andb]; lia. }
  split; [exact Hsum|].
  intros Hn [Hh Hl].
  assert (0 <= count_if is_medium evs).
  { rewrite count_if_filter. apply len_filter_le. }
  lia.
Qed.

Lemma summary_permutation (evs evs' : list FileEvaluation.t) :
  Permutation evs evs' ->
  (o <- calculate_overall_score evs ;; Ok (summary o))
  = (o <- calculate_overall_score evs' ;; Ok (summary o)).
Proof.
  intros Hperm.
  destruct evs as [|e0 evs0]; destruct evs' as [|e0' evs0'].
  - reflexivity.
  - apply Permutation_nil in Hperm. discriminate.
  - apply Permutation_sym, Permutation_nil in Hperm. discriminate.
  - unfold calculate_overall_score.
    change (sum (map FileEvaluation.score (e0 :: evs0))) with (total (e0 :: evs0)).
    change (sum (map FileEvaluation.score (e0' :: evs0')))
      with (total (e0' :: evs0')).
    rewrite (total_permutation _ _ Hperm), (len_permutation _ _ Hperm),
      (count_if_permutation is_high _ _ Hperm),
      (count_if_permutation is_medium _ _ Hperm),
      (count_if_permutation is_low _ _ Hperm).
    destruct (Float64.true_div _ _) as [f|e]; cbn [bind]; [|reflexivity].
    destruct (Float64.py_round f) as [r|e]; cbn [bind]; [|reflexivity].
    destruct (times_0_6 _) as [th|e]; cbn [bind]; reflexivity.
Qed.

(** X2.  The score, the reason and the file count of the overall
    evaluation do not depend on the order of the evaluations: two lists
    that are permutations of each other give the same three, or raise
    alike. *)
Theorem overall_summary_order_independent (evs evs' : list FileEvaluation.t) :
  Permutation evs evs' ->
  (o <- calculate_overall_score evs ;; Ok (summary o))
  = (o <- calculate_overall_score evs' ;; Ok (summary o)).
Proof. exact (summary_permutation evs evs'). Qed.

Lemma overall_summary_order_independent_witness :
  (o <- calculate_overall_score (map sample_evaluation [9; 2; 4]) ;;
   Ok (summary o))
  = (o <- calculate_overall_score (map sample_evaluation [4; 9; 2]) ;;
     Ok (summary o)).
Proof.
  apply overall_summary_order_independent.
  simpl map.
  eapply Permutation_trans; [apply perm_skip, perm_swap|apply perm_swap].
Defined.

Lemma total_between (a b : Z) (evs : list FileEvaluation.t) :
  Forall (fun e => a <= FileEvaluation.score e <= b) evs ->
  a * len evs <= total evs <= b * len evs.
Proof.
  unfold total. induction 1 as [|e evs He _ IH].
  - cbn. lia.
  - simpl map. rewrite sum_cons, len_cons. lia.
Qed.

(** X3.  The overall score stays within the scores it averages: when
    every evaluation scores between [a] and [b] (inside [1, 10]), so does
    the overall evaluation. *)
Theorem overall_score_between (a b : Z) (evs : list FileEvaluation.t) :
  evs <> [] -> len evs < 2 ^ 48 -> 1 <= a -> b <= 10 ->
  Forall (fun e => a <= FileEvaluation.score e <= b) evs ->
  exists o,
    calculate_overall_score evs = Ok o /\ a <= OverallEvaluation.score o <= b.
Proof.
  intros Hne Hlen Ha Hb Hall.
  assert (Hr : Forall bounded evs).
  { eapply Forall_impl; [|exact Hall]. intros e He. apply in_range_bounded.
    unfold in_range. cbv beta in He. lia. }
  rewrite (calculate_overall_score_spec evs Hne Hr Hlen).
  eexists. split; [reflexivity|]. cbn [OverallEvaluation.score].
  pose proof (total_between a b evs Hall) as Ht.
  assert (Hn : 0 < len evs).
  { destruct evs as [|e evs']; [congruence|]. rewrite len_cons.
    pose proof (len_nonneg evs'). lia. }
  pose proof (Float64Facts.rne_div_ge (total evs) (len evs) a Hn ltac:(lia)).
  pose proof (Float64Facts.rne_div_le (total evs) (len evs) b Hn ltac:(lia)).
  unfold spec_score. lia.
Qed.

Lemma overall_score_between_witness :
  exists o,
    calculate_overall_score (map sample_evaluation [7; 9; 8; 7]) = Ok o /\
    7 <= OverallEvaluation.score o <= 9.
Proof.
  apply (overall_score_between 7 9).
  - discriminate.
  - reflexivity.
  - lia.
  - lia.
  - repeat constructor; simpl; lia.
Defined.

Lemma round_pos_overflow (p q : Z) :
  0 < p -> 0 < q -> q * 2 ^ 1024 <= p ->
  Float64.round_pos p q = Float64.FInf false.
Proof.
  intros Hp Hq Hbig.
  destruct (Float64Facts.ilog2_ratio_spec p q Hp Hq) as [_ Hhi].
  pose proof (Float64Facts.scaled_lower p q Hp Hq) as Hlow.
  set (L := Float64.ilog2_ratio p q) in *.
  assert (HL : 1024 <= L).
  { destruct (Z_le_gt_dec 1024 L) as [|Hlt]; [assumption|]. exfalso.
    assert (H1024 : Float64.ge_pow2 p q 1024 = true).
    { unfold Float64.ge_pow2.
      destruct (Z.leb_spec 0 1024); [|lia]. apply Z.leb_le. exact Hbig. }
    pose proof (Float64Facts.ge_pow2_antitone p q (L + 1) 1024 Hq
                  ltac:(lia) H1024). congruence. }
  unfold Float64.round_pos. fold L. rewrite Z.max_l by lia.
  set (m := Float64.scaled p q (L - 52)) in *.
  assert (Hlog : 52 <= Z.log2 m).
  { apply (Z.le_trans _ (Z.log2 (2 ^ 52))); [reflexivity|].
    apply Z.log2_le_mono. exact Hlow. }
  destruct (Z.leb_spec 1024 (L - 52 + Z.log2 m)); [reflexivity|lia].
Qed.

(** X4.  Scores are not clamped before they are averaged: when the mean
    of the scores reaches [2^1024], the division raises [OverflowError]
    and no overall evaluation is returned. *)
Theorem overall_score_overflow (evs : list FileEvaluation.t) :
  evs <> [] -> len evs * 2 ^ 1024 <= total evs ->
  calculate_overall_score evs
  = Raise (mk_exn "OverflowError"
             "integer division result too large for a float").
Proof.
  intros Hne Hbig.
  destruct evs as [|e0 evs0]; [congruence|].
  set (evs := e0 :: evs0) in *.
  assert (Hn : 0 < len evs).
  { unfold evs. rewrite len_cons. pose proof (len_nonneg evs0). lia. }
  assert (Hp : 0 < 2 ^ 1024) by (apply Z.pow_pos_nonneg; lia).
  assert (Ht : 0 < total evs) by nia.
  unfold calculate_overall_score. fold evs. fold (total evs).
  unfold Float64.true_div.
  destruct (Z.eqb_spec (len evs) 0); [lia|].
  destruct (Z.ltb_spec 0 (len evs)); [|lia].
  unfold Float64.round_q.
  destruct (Z.eqb_spec (total evs) 0); [lia|].
  destruct (Z.ltb_spec 0 (total evs)); [|lia].
  rewrite (round_pos_overflow _ _ Ht Hn Hbig). reflexivity.
Qed.

Lemma overall_score_overflow_witness :
  calculate_overall_score [sample_evaluation (2 ^ 1024); sample_evaluation (2 ^ 1024)]
  = Raise (mk_exn "OverflowError"
             "integer division result too large for a float").
Proof.
  apply overall_score_overflow.
  - discriminate.
  - vm_compute. discriminate.
Defined.

(** * Further properties of content loading and scoring *)

Lemma relative_to_strip_prefix (p base rel : Path) :
  relative_to p base = Ok rel -> strip_prefix base p = Some rel.
Proof.
  unfold relative_to. destruct base as [|b base].
  - destruct (is_absolute p); [discriminate|]. intros H. inversion H. reflexivity.
  - destruct (strip_prefix (b :: base) p); [|discriminate].
    intros H. inversion H. reflexivity.
Qed.

Lemma relative_to_raises (p base : Path) (e : exn) :
  relative_to p base = Raise e ->
  exn_class e = "ValueError" /\
  (strip_prefix base p = None \/ (base = [] /\ is_absolute p = true)).
Proof.
  unfold relative_to. destruct base as [|b base].
  - destruct (is_absolute p); [|discriminate].
    intros H. inversion H. split; [reflexivity|]. right. split; reflexivity.
  - destruct (strip_prefix (b :: base) p); [discriminate|].
    intros H. inversion H. split; [reflexivity|]. left. reflexivity.
Qed.

(** X5.  Every evaluation [evaluate_file] returns is well formed: its
    score lies in [1, 10], its file type is the path's suffix and its
    file name is the path relative to the base path, whatever the file
    holds and whatever the service and the decoder answer. *)
Theorem evaluation_well_formed
    (read_text : Path -> result string)
    (chat : Path -> string -> list (string * string) -> result response)
    (json_loads : string -> result py_value)
    (file_path : Path) (deployment_name : string) (base_path : Path)
    (evaluation : FileEvaluation.t) :
  evaluate_file read_text chat json_loads file_path deployment_name base_path
  = Ok evaluation ->
  1 <= FileEvaluation.score evaluation <= 10 /\
  FileEvaluation.file_type evaluation = suffix file_path /\
  exists rel,
    strip_prefix base_path file_path = Some rel /\
    FileEvaluation.filename evaluation = str_of_path rel.
Proof.
  intros H.
  pose proof (evaluate_file_in_range _ _ _ _ _ _ _ H) as Hrange.
  split; [exact Hrange|].
  destruct (relative_to file_path base_path) as [rel|e] eqn:Hrel.
  - rewrite (evaluate_file_cases _ _ _ _ _ _ _ Hrel) in H. inversion H as [Hev].
    assert (Hs : strip_prefix base_path file_path = Some rel)
      by exact (relative_to_strip_prefix _ _ _ Hrel).
    destruct (reply_text read_text chat file_path deployment_name) as [text|e].
    + destruct (parse_result json_loads text) as [sr|e];
        (split; [reflexivity|exists rel; split; [exact Hs|reflexivity]]).
    + split; [reflexivity|exists rel; split; [exact Hs|reflexivity]].
  - rewrite (evaluate_file_outside _ _ _ _ _ _ _ Hrel) in H. discriminate.
Qed.

Lemma evaluation_well_formed_witness :
  1 <= 10 <= 10 /\ ".rs" = suffix ["proj"; "src"; "main.rs"] /\
  exists rel,
    strip_prefix ["proj"] ["proj"; "src"; "main.rs"] = Some rel /\
    "src/main.rs" = str_of_path rel.
Proof.
  apply (evaluation_well_formed sample_read_text
           (answering (q "{'score': 15, 'reason': 'x'}")) Json.loads
           ["proj"; "src"; "main.rs"] "gpt-4o" ["proj"]
           {| FileEvaluation.filename := "src/main.rs";
              FileEvaluation.score := 10;
              FileEvaluation.reason := PyStr "x";
              FileEvaluation.file_type := ".rs" |}).
  reflexivity.
Defined.

(** X6.  The only exception that leaves [evaluate_file] is the one
    [relative_to] raises: the call raises exactly when [relative_to]
    refuses the file for the base path, with that very exception, a
    [ValueError], whether or not the request succeeded.  [relative_to]
    refuses the file when the parts of the base path do not start the
    parts of the file's path, and when the base path is empty and the
    file's path absolute; a returned evaluation is named after the parts
    that follow the base's. *)
Theorem evaluate_file_raises_only_outside
    (read_text : Path -> result string)
    (chat : Path -> string -> list (string * string) -> result response)
    (json_loads : string -> result py_value)
    (file_path : Path) (deployment_name : string) (base_path : Path) :
  let returned :=
    evaluate_file read_text chat json_loads file_path deployment_name base_path in
  let outside :=
    strip_prefix base_path file_path = None
    \/ (base_path = [] /\ is_absolute file_path = true) in
  (forall e, returned = Raise e <-> relative_to file_path base_path = Raise e) /\
  (forall e, returned = Raise e -> exn_class e = "ValueError") /\
  ((exists e, returned = Raise e) <-> outside) /\
  (forall evaluation, returned = Ok evaluation ->
     exists rel, (base_path ++ rel)%list = file_path /\
                 FileEvaluation.filename evaluation = str_of_path rel).
Proof.
  intros returned outside. subst returned outside.
  assert (Hiff : forall e,
            evaluate_file read_text chat json_loads file_path deployment_name
              base_path = Raise e
            <-> relative_to file_path base_path = Raise e).
  { intros e. destruct (relative_to file_path base_path) as [rel|e'] eqn:Hrel.
    - rewrite (evaluate_file_cases _ _ _ _ _ _ _ Hrel).
      split; discriminate.
    - rewrite (evaluate_file_outside _ _ _ _ _ _ _ Hrel).
      split; intros H; inversion H; reflexivity. }
  split; [exact Hiff|]. split; [|split].
  - intros e He. apply Hiff in He.
    exact (proj1 (relative_to_raises _ _ _ He)).
  - split.
    + intros (e & He). apply Hiff in He.
      exact (proj2 (relative_to_raises _ _ _ He)).
    + intros Hout.
      destruct (relative_to file_path base_path) as [rel|e] eqn:Hrel.
      * exfalso. pose proof (relative_to_strip_prefix _ _ _ Hrel) as Hs.
        destruct Hout as [Hnone|[Hbase Habs]]; [congruence|].
        subst base_path. unfold relative_to in Hrel. rewrite Habs in Hrel.
        discriminate.
      * exists e. apply Hiff. reflexivity.
  - intros evaluation Hret.
    destruct (relative_to file_path base_path) as [rel|e] eqn:Hrel.
    + exists rel. split.
      * apply relative_to_strip_prefix in Hrel. clear - Hrel.
        revert file_path rel Hrel.
        induction base_path as [|b base IH]; intros p rel H; simpl in H.
        -- inversion H. reflexivity.
        -- destruct p as [|x p]; [discriminate|].
           destruct (String.eqb_spec b x) as [->|]; [|discriminate].
           cbn [app]. f_equal. apply IH, H.
      * rewrite (evaluate_file_cases _ _ _ _ _ _ _ Hrel) in Hret.
        inversion Hret.
        destruct (reply_text read_text chat file_path deployment_name);
          [destruct (parse_result json_loads _)|]; reflexivity.
    + rewrite (evaluate_file_outside _ _ _ _ _ _ _ Hrel) in Hret. discriminate.
Qed.

(** The file outside the base path, and the absolute file under the
    empty base path. *)
Example evaluate_file_outside_samples :
  map (fun paths =>
         evaluation <- evaluate_file sample_read_text
                         (answering (q "{'score': 8}")) Json.loads
                         (fst paths) "gpt-4o" (snd paths) ;;
         Ok (FileEvaluation.filename evaluation))
    [ (["/"; "x"; "a.py"], ["/"; "y"]); (["/"; "a.py"], []);
      (["a.py"], []); (["/"; "x"; "a.py"], ["/"; "x"]) ]
  = [ Raise (mk_exn "ValueError"
        "'/x/a.py' is not in the subpath of '/y' OR one path is relative and the other is absolute.");
      Raise (mk_exn "ValueError"
        "'/a.py' is not in the subpath of '' OR one path is relative and the other is absolute.");
      Ok "a.py"; Ok "a.py" ].
Proof. vm_compute. reflexivity. Qed.

(** X7.  A reply that is a JSON object without a score gets the score 5;
    its reason is kept. *)
Theorem missing_score_defaults_to_five
    (read_text : Path -> result string)
    (chat : Path -> string -> list (string * string) -> result response)
    (json_loads : string -> result py_value)
    (file_path : Path) (deployment_name : string) (base_path rel : Path)
    (text : string) (d : list (string * py_value)) :
  relative_to file_path base_path = Ok rel ->
  reply_text read_text chat file_path deployment_name = Ok text ->
  json_loads text = Ok (PyDict d) ->
  dict_lookup d "score" = None ->
  evaluate_file read_text chat json_loads file_path deployment_name base_path
  = Ok {| FileEvaluation.filename := str_of_path rel;
          FileEvaluation.score := 5;
          FileEvaluation.reason :=
            match dict_lookup d "reason" with
            | Some r => r
            | None => PyStr "No reason provided"
            end;
          FileEvaluation.file_type := suffix file_path |}.
Proof.
  intros Hrel Htext Hd Hnone.
  assert (Hint : py_int (dict_get d "score" (PyInt 5)) = Ok 5).
  { rewrite dict_get_lookup, Hnone. reflexivity. }
  rewrite (evaluate_file_cases _ _ _ _ _ _ _ Hrel), Htext.
  rewrite (parse_result_dict _ _ _ _ Hd Hint).
  cbn [fst snd]. rewrite dict_get_lookup. reflexivity.
Qed.

Lemma missing_score_defaults_to_five_witness :
  evaluate_file sample_read_text (answering (q "{'reason': 'looks typed'}"))
    Json.loads ["proj"; "a.py"] "gpt-4o" ["proj"]
  = Ok {| FileEvaluation.filename := "a.py";
          FileEvaluation.score := 5;
          FileEvaluation.reason := PyStr "looks typed";
          FileEvaluation.file_type := ".py" |}.
Proof.
  apply (missing_score_defaults_to_five sample_read_text
           (answering (q "{'reason': 'looks typed'}")) Json.loads
           ["proj"; "a.py"] "gpt-4o" ["proj"] ["a.py"]
           (q "{'reason': 'looks typed'}") [("reason", PyStr "looks typed")]);
    reflexivity.
Defined.

(** X8.  The score may come in any form [int] accepts: whatever value
    the score field holds, if [int] turns it into [z] the recorded score
    is [z] clamped; so a JSON boolean always gives 1, a finite float is
    truncated toward zero first, and a string counts as the number
    [int] reads in it. *)
Theorem lenient_score
    (read_text : Path -> result string)
    (chat : Path -> string -> list (string * string) -> result response)
    (json_loads : string -> result py_value)
    (file_path : Path) (deployment_name : string) (base_path rel : Path)
    (text : string) (d : list (string * py_value)) (v : py_value) :
  relative_to file_path base_path = Ok rel ->
  reply_text read_text chat file_path deployment_name = Ok text ->
  json_loads text = Ok (PyDict d) ->
  dict_lookup d "score" = Some v ->
  let recorded :=
    r <- evaluate_file read_text chat json_loads file_path deployment_name
           base_path ;;
    Ok (FileEvaluation.score r) in
  (forall z, py_int v = Ok z -> recorded = Ok (Z.max 1 (Z.min 10 z))) /\
  (forall b, v = PyBool b -> recorded = Ok 1) /\
  (forall m e, v = PyFloat (Float64.FFinite m e) -> e < 0 ->
     recorded = Ok (Z.max 1 (Z.min 10 (Z.quot m (2 ^ (- e)))))) /\
  (forall s z, v = PyStr s -> int_of_str s = Ok z ->
     recorded = Ok (Z.max 1 (Z.min 10 z))).
Proof.
  intros Hrel Htext Hd Hv recorded.
  assert (Hgen : forall z, py_int v = Ok z ->
            recorded = Ok (Z.max 1 (Z.min 10 z))).
  { intros z Hz. subst recorded.
    assert (Hint : py_int (dict_get d "score" (PyInt 5)) = Ok z).
    { rewrite dict_get_lookup, Hv. exact Hz. }
    rewrite (evaluate_file_cases _ _ _ _ _ _ _ Hrel), Htext.
    rewrite (parse_result_dict _ _ _ _ Hd Hint). reflexivity. }
  split; [exact Hgen|]. split; [|split].
  - intros b Hb. subst v.
    rewrite (Hgen (if b then 1 else 0) eq_refl). destruct b; reflexivity.
  - intros m e Hf He. subst v. apply Hgen. simpl.
    destruct (Z.leb_spec 0 e); [lia|reflexivity].
  - intros s z Hs Hz. subst v. apply Hgen. exact Hz.
Qed.

Lemma lenient_score_witness :
  (r <- evaluate_file sample_read_text (answering (q "{'score': ' 8 '}"))
          Json.loads ["proj"; "a.py"] "gpt-4o" ["proj"] ;;
   Ok (FileEvaluation.score r)) = Ok 8.
Proof.
  destruct (lenient_score sample_read_text (answering (q "{'score': ' 8 '}"))
              Json.loads ["proj"; "a.py"] "gpt-4o" ["proj"] ["a.py"]
              (q "{'score': ' 8 '}") [("score", PyStr " 8 ")] (PyStr " 8 ")
              eq_refl eq_refl eq_refl eq_refl) as (_ & _ & _ & Hstr).
  apply (Hstr " 8 " 8 eq_refl eq_refl).
Defined.

(** What [int] reads in a string: blanks around the literal, a sign and
    single underscores are accepted; the separator U+001C is not a blank
    for it, and more than 4300 digits are refused. *)
Example int_of_str_samples :
  map int_of_str [" 8 "; "+7"; "-0"; "1_0"; "0012"]
  = [Ok 8; Ok 7; Ok 0; Ok 10; Ok 12] /\
  map (fun s => match int_of_str s with Ok _ => "" | Raise e => exn_str e end)
    [String (ascii_of_nat 28) "8"; "1__0"; "8x"; "- 5"; times "1" 4301]
  = ["invalid literal for int() with base 10: '\x1c8'";
     "invalid literal for int() with base 10: '1__0'";
     "invalid literal for int() with base 10: '8x'";
     "invalid literal for int() with base 10: '- 5'";
     "Exceeds the limit (4300 digits) for integer string conversion: value has 4301 digits; use sys.set_int_max_str_digits() to increase the limit"] /\
  (exists z, int_of_str (times "1" 4300) = Ok z) /\
  map (fun text =>
         evaluation <- evaluate_file sample_read_text (answering text)
                         Json.loads ["proj"; "a.py"] "gpt-4o" ["proj"] ;;
         Ok (FileEvaluation.score evaluation))
    [q "{'score': ' 8 '}"; q "{'score': '1_2'}"; q "{'score': '8x'}";
     q "{'score': true}"; q "{'score': 0.5}"]
  = [Ok 8; Ok 10; Ok 5; Ok 1; Ok 1].
Proof.
  split; [vm_compute; reflexivity|]. split; [vm_compute; reflexivity|].
  split; [|vm_compute; reflexivity].
  destruct (int_of_str (times "1" 4300)) as [z|e] eqn:E.
  - exists z. reflexivity.
  - vm_compute in E. discriminate.
Qed.

(** X9.  A response without choices, or whose first choice has no
    content, does not abort the evaluation: the failure of the attribute
    access is caught like any other and reported in the reason, with
    score 5; only the first choice is ever read. *)
Theorem malformed_response_contained
    (read_text : Path -> result string)
    (chat : Path -> string -> list (string * string) -> result response)
    (json_loads : string -> result py_value)
    (file_path : Path) (deployment_name : string) (base_path rel : Path)
    (r : response) :
  relative_to file_path base_path = Ok rel ->
  reply read_text chat file_path deployment_name = Ok r ->
  let returned :=
    evaluate_file read_text chat json_loads file_path deployment_name base_path in
  let failed (message : string) :=
    Ok {| FileEvaluation.filename := str_of_path rel;
          FileEvaluation.score := 5;
          FileEvaluation.reason :=
            PyStr ("Error during evaluation: " ++ message)%string;
          FileEvaluation.file_type := suffix file_path |} in
  (choices r = [] -> returned = failed "list index out of range") /\
  (forall rest, choices r = None :: rest ->
     returned = failed "'NoneType' object has no attribute 'strip'") /\
  (forall content rest rest',
     choices r = Some content :: rest ->
     forall chat',
       reply read_text chat' file_path deployment_name
       = Ok (mk_response (Some content :: rest')) ->
       evaluate_file read_text chat' json_loads file_path deployment_name
         base_path = returned).
Proof.
  intros Hrel Hreply returned failed. subst returned failed.
  rewrite (evaluate_file_cases _ _ _ _ _ _ _ Hrel).
  unfold reply_text. rewrite Hreply. cbn [bind]. unfold result_text_of.
  split; [|split].
  - intros Hc. rewrite Hc. reflexivity.
  - intros rest Hc. rewrite Hc. reflexivity.
  - intros content rest rest' Hc chat' Hreply'.
    rewrite (evaluate_file_cases _ _ _ _ _ _ _ Hrel).
    unfold reply_text. rewrite Hreply'. cbn [bind]. unfold result_text_of.
    rewrite Hc. reflexivity.
Qed.

Lemma malformed_response_contained_witness :
  evaluate_file sample_read_text (fun _ _ _ => Ok (mk_response []))
    Json.loads ["proj"; "a.py"] "gpt-4o" ["proj"]
  = Ok {| FileEvaluation.filename := "a.py";
          FileEvaluation.score := 5;
          FileEvaluation.reason :=
            PyStr "Error during evaluation: list index out of range";
          FileEvaluation.file_type := ".py" |}.
Proof.
  destruct (malformed_response_contained sample_read_text
              (fun _ _ _ => Ok (mk_response [])) Json.loads
              ["proj"; "a.py"] "gpt-4o" ["proj"] ["a.py"] (mk_response [])
              eq_refl eq_refl) as (Hempty & _).
  apply Hempty. reflexivity.
Defined.

Lemma length_append (s t : string) :
  String.length (s ++ t)%string = (String.length s + String.length t)%nat.
Proof.
  induction s as [|c s IH]; simpl; [reflexivity|]. rewrite IH. reflexivity.
Qed.

Lemma slice_to_slice_to_app (k : Z) (s t : string) :
  k <= Z.of_nat (String.length s) ->
  slice_to k (slice_to k s ++ t) = slice_to k s.
Proof.
  unfold slice_to. intros Hk.
  assert (Hn : (Z.to_nat k <= String.length s)%nat) by lia.
  revert Hn. generalize (Z.to_nat k) as n. clear Hk k.
  intros n. revert s. induction n as [|n IH]; intros [|c s] Hn; simpl in *.
  - destruct t; reflexivity.
  - destruct t; reflexivity.
  - lia.
  - rewrite IH by lia. reflexivity.
Qed.

(** X10.  What [read_file_content] returns for a file it could read is
    never longer than 8016 characters, is exactly that long when the
    content had to be cut, and starts with the first 8000 characters of
    the content. *)
Theorem loaded_content_bounded (read_text : Path -> result string)
    (file_path : Path) (content : string) :
  read_text file_path = Ok content ->
  exists loaded,
    read_file_content read_text file_path = Ok loaded /\
    Z.of_nat (String.length loaded) <= 8016 /\
    (8000 < Z.of_nat (String.length content) ->
       Z.of_nat (String.length loaded) = 8016) /\
    slice_to 8000 loaded = slice_to 8000 content.
Proof.
  intros Hread. rewrite read_file_content_total. unfold content_of.
  rewrite Hread. eexists. split; [reflexivity|].
  destruct (Z.ltb_spec 8000 (Z.of_nat (String.length content))) as [Hlong|Hshort].
  - assert (Hlen : Z.of_nat (String.length
                     (slice_to 8000 content ++ truncation_marker)%string) = 8016).
    { rewrite length_append, Nat2Z.inj_add, slice_to_length by lia.
      change (Z.of_nat (String.length truncation_marker)) with 16. lia. }
    split; [lia|]. split; [intros _; exact Hlen|].
    apply slice_to_slice_to_app. lia.
  - split; [lia|]. split; [lia|reflexivity].
Qed.

Lemma loaded_content_bounded_witness :
  exists loaded,
    read_file_content sample_read_text ["proj"; "a.py"] = Ok loaded /\
    Z.of_nat (String.length loaded) <= 8016 /\
    (8000 < Z.of_nat (String.length "print(1)") ->
       Z.of_nat (String.length loaded) = 8016) /\
    slice_to 8000 loaded = slice_to 8000 "print(1)".
Proof.
  apply (loaded_content_bounded sample_read_text ["proj"; "a.py"] "print(1)").
  reflexivity.
Defined.

(** * Further properties of the file selection *)

Lemma filter_length_implies {A : Type} (f g : A -> bool) (l : list A) :
  (forall x, In x l -> f x = true -> g x = true) ->
  (List.length (filter f l) <= List.length (filter g l))%nat.
Proof.
  induction l as [|x l IH]; intros H; simpl; [lia|].
  assert (IH' := IH (fun y Hy => H y (or_intror Hy))).
  pose proof (H x (or_introl eq_refl)) as Hx.
  destruct (f x), (g x); simpl; try lia.
  all: specialize (Hx eq_refl); discriminate.
Qed.

Lemma spec_selected_antitone (ee ef ee' ef' : option (list string))
    (p : Path) (n : node) :
  incl (elements ee) (elements ee') -> incl (elements ef) (elements ef') ->
  spec_selected ee' ef' p n -> spec_selected ee ef p n.
Proof.
  intros He Hf (Hfile & Hcode & Hext & Hsegs).
  split; [exact Hfile|]. split; [exact Hcode|]. split.
  - intros Hin. apply Hext, He, Hin.
  - intros seg Hseg. destruct (Hsegs seg Hseg) as (Hdot & Hdef & Huser).
    split; [exact Hdot|]. split; [exact Hdef|].
    intros Hin. apply Huser, Hf, Hin.
Qed.

(** X11.  Exclusions only remove files: with more excluded extensions
    and more excluded folders, every file still selected was selected
    before, and the selection is no longer. *)
Theorem exclusions_only_remove (fs : node) (folder_path : Path)
    (ee ef ee' ef' : option (list string)) :
  incl (elements ee) (elements ee') ->
  incl (elements ef) (elements ef') ->
  incl (get_code_files fs folder_path ee' ef')
       (get_code_files fs folder_path ee ef) /\
  len (get_code_files fs folder_path ee' ef')
  <= len (get_code_files fs folder_path ee ef).
Proof.
  intros He Hf. split.
  - intros p Hp. apply get_code_files_In in Hp. destruct Hp as (n & Hr & Hs).
    apply get_code_files_In. exists n. split; [exact Hr|].
    apply selected_spec. apply selected_spec in Hs.
    exact (spec_selected_antitone _ _ _ _ _ _ He Hf Hs).
  - unfold get_code_files, len. rewrite !length_map. apply inj_le.
    apply filter_length_implies. intros [q n] _ Hs.
    apply selected_spec. apply selected_spec in Hs.
    exact (spec_selected_antitone _ _ _ _ _ _ He Hf Hs).
Qed.

Lemma exclusions_only_remove_witness :
  incl (get_code_files sample_fs ["/"; "home"; "proj"] (Some [".rs"])
          (Some ["lib"]))
       (get_code_files sample_fs ["/"; "home"; "proj"] None None) /\
  len (get_code_files sample_fs ["/"; "home"; "proj"] (Some [".rs"])
         (Some ["lib"]))
  <= len (get_code_files sample_fs ["/"; "home"; "proj"] None None).
Proof.
  apply (exclusions_only_remove sample_fs ["/"; "home"; "proj"]
           None None (Some [".rs"]) (Some ["lib"])).
  - intros x H. destruct H.
  - intros x H. destruct H.
Defined.

Lemma mem_filter (x : string) (f : string -> bool) (xs : list string) :
  f x = true -> mem x (filter f xs) = mem x xs.
Proof.
  intros Hx. unfold mem. induction xs as [|y xs IH]; simpl; [reflexivity|].
  destruct (f y) eqn:Hy; simpl.
  - rewrite IH. reflexivity.
  - rewrite IH. destruct (String.eqb_spec x y) as [->|_]; [congruence|reflexivity].
Qed.

Lemma is_code_file_Some (p : Path) (ee : list string) :
  is_code_file p (Some ee)
  = mem (lower (suffix p)) CODE_EXTENSIONS && negb (mem (lower (suffix p)) ee).
Proof.
  unfold is_code_file. destruct ee as [|x ee]; cbn [truthy elements andb].
  - unfold mem at 2. cbn [existsb negb]. rewrite andb_true_r. reflexivity.
  - destruct (mem (lower (suffix p)) (x :: ee)); cbn [negb].
    + rewrite andb_false_r. reflexivity.
    + rewrite andb_true_r. reflexivity.
Qed.

Lemma CODE_EXTENSIONS_lower (x : string) :
  mem x CODE_EXTENSIONS = true -> lower x = x /\ startswith_dot x = true.
Proof.
  intros H. apply mem_In in H. unfold CODE_EXTENSIONS in H. cbn [In] in H.
  repeat (destruct H as [H|H]; [subst x; split; reflexivity|]). destruct H.
Qed.

(** X12.  Only exclusions that spell one of the code extensions as the
    catalogue has it take effect: the selection is the same with every
    other entry of [exclude_extensions] dropped, and an entry with an
    upper-case letter or without the leading dot is such an entry. *)
Theorem extension_exclusions_outside_catalogue (fs : node) (folder_path : Path)
    (ee : list string) (ef : option (list string)) :
  get_code_files fs folder_path (Some ee) ef
  = get_code_files fs folder_path
      (Some (filter (fun x => mem x CODE_EXTENSIONS) ee)) ef /\
  (forall x, lower x <> x \/ startswith_dot x = false ->
     filter (fun x => mem x CODE_EXTENSIONS) (x :: ee)
     = filter (fun x => mem x CODE_EXTENSIONS) ee).
Proof.
  split.
  - unfold get_code_files. f_equal. apply filter_ext. intros [p n].
    unfold selected. rewrite !is_code_file_Some.
    destruct (mem (lower (suffix p)) CODE_EXTENSIONS) eqn:Hc.
    + rewrite (mem_filter _ (fun x => mem x CODE_EXTENSIONS) ee Hc). reflexivity.
    + reflexivity.
  - intros x Hx. cbn [filter].
    destruct (mem x CODE_EXTENSIONS) eqn:Hc; [|reflexivity].
    destruct (CODE_EXTENSIONS_lower x Hc) as (Hl & Hd).
    destruct Hx as [Hx|Hx]; [contradiction|congruence].
Qed.

(** X13.  A scan root with a segment named in [exclude_folders] selects
    nothing at all: the exclusion is tested on every part of the whole
    path, the root's own parts included. *)
Theorem excluded_root_selects_nothing (fs : node) (folder_path : Path)
    (exclude_extensions exclude_folders : option (list string)) (seg : string) :
  In seg (parts folder_path) ->
  In seg (elements exclude_folders) ->
  get_code_files fs folder_path exclude_extensions exclude_folders = [].
Proof.
  intros Hin Hseg.
  destruct (get_code_files fs folder_path exclude_extensions exclude_folders)
    as [|p rest] eqn:E; [reflexivity|]. exfalso.
  assert (Hp : In p (get_code_files fs folder_path exclude_extensions
                       exclude_folders)) by (rewrite E; left; reflexivity).
  apply get_code_files_In in Hp. destruct Hp as (n & Hr & Hs).
  apply selected_spec in Hs. destruct Hs as (_ & _ & _ & Hclear).
  destruct (rglob_below _ _ _ _ Hr) as (rel & _ & Hrel).
  assert (Hinp : In seg (parts p)).
  { rewrite Hrel. unfold parts, joinpath. apply in_or_app. left. exact Hin. }
  destruct (Hclear seg Hinp) as (_ & _ & Huser). contradiction.
Qed.

Lemma excluded_root_selects_nothing_witness :
  get_code_files sample_fs ["/"; "home"; "proj"] None (Some ["home"]) = [].
Proof.
  apply (excluded_root_selects_nothing sample_fs ["/"; "home"; "proj"]
           None (Some ["home"]) "home").
  - simpl. tauto.
  - simpl. tauto.
Defined.

(** X14.  The second guard of the loop of [get_code_files], on the
    parent folder, never skips anything: an entry whose parent
    [should_exclude_folder] rejects has already been skipped by the test
    on the parts of its path, so the selection is that of the loop
    without the guard. *)
Theorem parent_guard_never_fires (ee ef : option (list string))
    (p : Path) (n : node) :
  let skipped :=
    existsb (fun part => startswith_dot part
                         || mem part (all_excluded_folders ef)) (parts p) in
  (should_exclude_folder (parent p) ef = true -> skipped = true) /\
  selected ee ef (p, n)
  = negb skipped && (is_file n && is_code_file p ee && (0 <? st_size n)).
Proof.
  intros skipped. subst skipped. split.
  - intros H.
    destruct (existsb _ (parts p)) eqn:E; [reflexivity|].
    rewrite (should_exclude_folder_redundant ef p E) in H. discriminate.
  - unfold selected.
    destruct (existsb _ (parts p)) eqn:E; [reflexivity|].
    rewrite (should_exclude_folder_redundant ef p E). reflexivity.
Qed.

(** * Further properties of the bounded fan-out *)

Lemma Forall2_evaluate_map {A B : Type} (f : A -> result B)
    (order : list A) (evs : list B) :
  Forall2 (fun t evaluation => f t = Ok evaluation) order evs ->
  map f order = map Ok evs.
Proof.
  induction 1 as [|t ev order evs H _ IH]; simpl; [reflexivity|].
  rewrite H, IH. reflexivity.
Qed.

Lemma map_Ok_inj {B : Type} (l l' : list B) :
  map (@Ok B) l = map (@Ok B) l' -> l = l'.
Proof.
  revert l'. induction l as [|x l IH]; intros [|y l'] H; simpl in H;
    try discriminate; [reflexivity|].
  inversion H. f_equal. apply IH. assumption.
Qed.

Lemma Forall2_evaluate_permutation {A B : Type} (f : A -> result B)
    (order order' : list A) (evs evs' : list B) :
  Permutation order order' ->
  Forall2 (fun t evaluation => f t = Ok evaluation) order evs ->
  Forall2 (fun t evaluation => f t = Ok evaluation) order' evs' ->
  Permutation evs evs'.
Proof.
  intros Hperm H H'.
  apply Forall2_evaluate_map in H. apply Forall2_evaluate_map in H'.
  pose proof (Permutation_map f Hperm) as Hm. rewrite H, H' in Hm.
  destruct (Permutation_map_inv _ _ Hm) as (l3 & Heq & Hp).
  apply map_Ok_inj in Heq. subst l3. apply Permutation_sym. exact Hp.
Qed.

(** X15.  The semaphore is balanced in every state a run can reach: the
    free permits are five less the evaluations in flight, never negative
    and never more than five, all five are free again once the run has
    finished, and no task is lost or doubled: those waiting, in flight
    and collected add up to the tasks of the run. *)
Theorem semaphore_balanced
    (read_text : Path -> result string)
    (chat : Path -> string -> list (string * string) -> result response)
    (json_loads : string -> result py_value)
    (deployment_name : string) (folder_path : Path)
    (tasks : list Path) (s : sched) :
  steps read_text chat json_loads deployment_name folder_path (start tasks) s ->
  permits s = 5 - len (running s) /\
  0 <= permits s <= 5 /\
  (finished s -> permits s = 5) /\
  len (waiting s) + len (running s) + len (file_evaluations s) = len tasks.
Proof.
  intros Hs.
  pose proof (invariant_steps _ _ _ _ _ _ _ _ Hs
                (invariant_start read_text chat json_loads deployment_name
                   folder_path tasks)) as Hinv.
  destruct Hinv as (Hsum & Hpos & done & Hperm & Hev).
  unfold semaphore_limit in Hsum.
  pose proof (len_nonneg (running s)) as Hr.
  split; [lia|]. split; [lia|]. split.
  - intros [_ Hrun]. rewrite Hrun in Hsum. unfold len in Hsum. simpl in Hsum. lia.
  - unfold len in *. rewrite <- (Permutation_length Hperm), !length_app,
      (Forall2_length Hev). lia.
Qed.

Lemma semaphore_balanced_witness :
  let s := {| waiting := [];
              running := [["proj"; "a.py"]; ["proj"; "b.py"]; ["proj"; "d.py"];
                          ["proj"; "e.py"]; ["proj"; "f.py"]];
              permits := 0;
              file_evaluations := [scored "c.py" 8 ".py"] |} in
  permits s = 5 - len (running s)
  /\ 0 <= permits s <= 5
  /\ (finished s -> permits s = 5)
  /\ len (waiting s) + len (running s) + len (file_evaluations s) = 6.
Proof.
  set (a := ["proj"; "a.py"]). set (b := ["proj"; "b.py"]).
  set (c := ["proj"; "c.py"]). set (d := ["proj"; "d.py"]).
  set (e := ["proj"; "e.py"]). set (f := ["proj"; "f.py"]).
  set (acquire := step_acquire sample_read_text (answering (q "{'score': 8}"))
                    Json.loads "gpt-4o" ["proj"]).
  apply (semaphore_balanced sample_read_text (answering (q "{'score': 8}"))
           Json.loads "gpt-4o" ["proj"] [a; b; c; d; e; f]).
  (* five wrappers enter, the third completes, the sixth enters *)
  apply (steps_step _ _ _ _ _ _ (mk_sched [b; c; d; e; f] [a] 4 [])).
  { exact (acquire [] [b; c; d; e; f] [] a 5 [] eq_refl). }
  apply (steps_step _ _ _ _ _ _ (mk_sched [c; d; e; f] [a; b] 3 [])).
  { exact (acquire [] [c; d; e; f] [a] b 4 [] eq_refl). }
  apply (steps_step _ _ _ _ _ _ (mk_sched [d; e; f] [a; b; c] 2 [])).
  { exact (acquire [] [d; e; f] [a; b] c 3 [] eq_refl). }
  apply (steps_step _ _ _ _ _ _ (mk_sched [e; f] [a; b; c; d] 1 [])).
  { exact (acquire [] [e; f] [a; b; c] d 2 [] eq_refl). }
  apply (steps_step _ _ _ _ _ _ (mk_sched [f] [a; b; c; d; e] 0 [])).
  { exact (acquire [] [f] [a; b; c; d] e 1 [] eq_refl). }
  apply (steps_step _ _ _ _ _ _
           (mk_sched [f] [a; b; d; e] 1 [scored "c.py" 8 ".py"])).
  { exact (step_complete sample_read_text (answering (q "{'score': 8}"))
             Json.loads "gpt-4o" ["proj"] [f] [a; b] [d; e] c 0 []
             (scored "c.py" 8 ".py") eq_refl). }
  apply (steps_step _ _ _ _ _ _
           (mk_sched [] [a; b; d; e; f] 0 [scored "c.py" 8 ".py"])).
  { exact (acquire [] [] [a; b; d; e] f 1 [scored "c.py" 8 ".py"] eq_refl). }
  apply steps_refl.
Defined.

(** X16.  What [evaluate_folder] returns does not depend on the order in
    which the evaluations complete: two runs over the same folder return
    the same score, reason and file count, and the same evaluations up
    to their order. *)
Theorem evaluate_folder_schedule_independent
    (read_text : Path -> result string)
    (chat : Path -> string -> list (string * string) -> result response)
    (json_loads : string -> result py_value)
    (deployment_name : string) (folder_path : Path) (fs : node)
    (exclude_extensions exclude_folders : option (list string))
    (out out' : result OverallEvaluation.t) :
  len (get_code_files fs folder_path exclude_extensions exclude_folders)
  < 2 ^ 48 ->
  evaluate_folder read_text chat json_loads deployment_name folder_path
    fs exclude_extensions exclude_folders out ->
  evaluate_folder read_text chat json_loads deployment_name folder_path
    fs exclude_extensions exclude_folders out' ->
  exists o o',
    out = Ok o /\ out' = Ok o' /\ summary o = summary o' /\
    Permutation (OverallEvaluation.file_evaluations o)
                (OverallEvaluation.file_evaluations o').
Proof.
  intros Hlen Hout Hout'. unfold evaluate_folder in Hout, Hout'.
  pose proof (selected_files_evaluate read_text chat json_loads deployment_name
                folder_path fs exclude_extensions exclude_folders) as Hall.
  destruct (get_code_files fs folder_path exclude_extensions exclude_folders)
    as [|f files] eqn:Hfiles.
  - subst out out'. exists no_files, no_files.
    repeat split; constructor.
  - destruct Hout as (collected & Hg & Hout).
    destruct Hout' as (collected' & Hg' & Hout').
    destruct (gathers_all _ _ _ _ _ _ _ _ Hall Hg
                (invariant_start _ _ _ _ _ (f :: files)))
      as (evs & order & Hc & Hperm & Hev).
    destruct (gathers_all _ _ _ _ _ _ _ _ Hall Hg'
                (invariant_start _ _ _ _ _ (f :: files)))
      as (evs' & order' & Hc' & Hperm' & Hev').
    subst collected collected'. cbn [bind] in Hout, Hout'.
    assert (Hp : Permutation evs evs').
    { apply (Forall2_evaluate_permutation
               (fun t => evaluate_file read_text chat json_loads t
                           deployment_name folder_path)
               order order' evs evs'); trivial.
      apply (Permutation_trans Hperm). apply Permutation_sym. exact Hperm'. }
    assert (Hspec : forall l order0, Permutation order0 (f :: files) ->
              Forall2 (fun t evaluation =>
                         evaluate_file read_text chat json_loads t
                           deployment_name folder_path = Ok evaluation)
                order0 l ->
              calculate_overall_score l
              = Ok {| OverallEvaluation.score := spec_score l;
                      OverallEvaluation.reason := spec_reason l;
                      OverallEvaluation.total_files := len l;
                      OverallEvaluation.file_evaluations := l |}).
    { intros l order0 Hperm0 Hev0.
      assert (Hl : List.length l = List.length (f :: files)).
      { rewrite <- (Forall2_length Hev0). apply Permutation_length, Hperm0. }
      apply calculate_overall_score_spec.
      - intros ->. discriminate Hl.
      - apply (Forall_impl _ in_range_bounded).
        exact (Forall2_in_range _ _ _ _ _ _ _ Hev0).
      - unfold len in *. rewrite Hl. exact Hlen. }
    pose proof (summary_permutation evs evs' Hp) as Hsum.
    rewrite (Hspec evs order Hperm Hev) in Hout, Hsum.
    rewrite (Hspec evs' order' Hperm' Hev') in Hout', Hsum.
    cbn [bind] in Hsum. inversion Hsum as [Hsummary].
    eexists. eexists. split; [exact Hout|]. split; [exact Hout'|].
    split; [|exact Hp]. unfold summary. cbn. congruence.
Qed.

Lemma evaluate_folder_schedule_independent_witness :
  let first_in_first_out :=
    evaluate_folder_fifo sample_read_text answering_by_suffix Json.loads
      "gpt-4o" ["proj"] sample_fs None None in
  let last_in_first_out :=
    calculate_overall_score
      [scored "src/lib/u.ts" 2 ".ts"; scored "src/main.rs" 9 ".rs";
       scored "b.PY" 6 ".PY"] in
  exists o o',
    first_in_first_out = Ok o /\ last_in_first_out = Ok o' /\
    summary o = summary o' /\
    Permutation (OverallEvaluation.file_evaluations o)
                (OverallEvaluation.file_evaluations o').
Proof.
  set (b := ["proj"; "b.PY"]). set (m := ["proj"; "src"; "main.rs"]).
  set (u := ["proj"; "src"; "lib"; "u.ts"]).
  set (eb := scored "b.PY" 6 ".PY"). set (em := scored "src/main.rs" 9 ".rs").
  set (eu := scored "src/lib/u.ts" 2 ".ts").
  set (acquire := step_acquire sample_read_text answering_by_suffix Json.loads
                    "gpt-4o" ["proj"]).
  set (complete := step_complete sample_read_text answering_by_suffix Json.loads
                     "gpt-4o" ["proj"]).
  apply (evaluate_folder_schedule_independent sample_read_text
           answering_by_suffix Json.loads "gpt-4o" ["proj"] sample_fs None None).
  - reflexivity.
  - apply evaluate_folder_exists.
  - (* the three wrappers enter in turn and complete in the reverse order *)
    unfold evaluate_folder.
    change (get_code_files sample_fs ["proj"] None None) with [b; m; u].
    cbv beta iota zeta. exists (Ok [eu; em; eb]). split; [|reflexivity].
    apply (gathers_step _ _ _ _ _ _ (mk_sched [m; u] [b] 4 [])).
    { exact (acquire [] [m; u] [] b 5 [] eq_refl). }
    apply (gathers_step _ _ _ _ _ _ (mk_sched [u] [b; m] 3 [])).
    { exact (acquire [] [u] [b] m 4 [] eq_refl). }
    apply (gathers_step _ _ _ _ _ _ (mk_sched [] [b; m; u] 2 [])).
    { exact (acquire [] [] [b; m] u 3 [] eq_refl). }
    apply (gathers_step _ _ _ _ _ _ (mk_sched [] [b; m] 3 [eu])).
    { exact (complete [] [b; m] [] u 2 [] eu eq_refl). }
    apply (gathers_step _ _ _ _ _ _ (mk_sched [] [b] 4 [eu; em])).
    { exact (complete [] [b] [] m 3 [eu] em eq_refl). }
    apply (gathers_step _ _ _ _ _ _ (mk_sched [] [] 5 [eu; em; eb])).
    { exact (complete [] [] [] b 4 [eu; em] eb eq_refl). }
    apply (gathers_done _ _ _ _ _ (mk_sched [] [] 5 [eu; em; eb])).
    split; reflexivity.
Defined.

(** The two runs of the sample folder: the same score, reason and count,
    the evaluations in opposite orders. *)
Example schedule_samples :
  evaluate_folder_fifo sample_read_text answering_by_suffix Json.loads
    "gpt-4o" ["proj"] sample_fs None None
  = Ok {| OverallEvaluation.score := 6;
          OverallEvaluation.reason :=
            "Mixed results: 1 likely AI-generated, 1 uncertain, 1 likely human-written";
          OverallEvaluation.total_files := 3;
          OverallEvaluation.file_evaluations :=
            [scored "b.PY" 6 ".PY"; scored "src/main.rs" 9 ".rs";
             scored "src/lib/u.ts" 2 ".ts"] |}
  /\ calculate_overall_score
       [scored "src/lib/u.ts" 2 ".ts"; scored "src/main.rs" 9 ".rs";
        scored "b.PY" 6 ".PY"]
     = Ok {| OverallEvaluation.score := 6;
             OverallEvaluation.reason :=
               "Mixed results: 1 likely AI-generated, 1 uncertain, 1 likely human-written";
             OverallEvaluation.total_files := 3;
             OverallEvaluation.file_evaluations :=
               [scored "src/lib/u.ts" 2 ".ts"; scored "src/main.rs" 9 ".rs";
                scored "b.PY" 6 ".PY"] |}.
Proof. split; vm_compute; reflexivity. Qed.

Lemma all_five (evs : list FileEvaluation.t) :
  Forall (fun evaluation => FileEvaluation.score evaluation = 5) evs ->
  total evs = 5 * len evs /\
  filter is_high evs = [] /\ filter is_low evs = [] /\
  filter is_medium evs = evs.
Proof.
  induction 1 as [|e evs He _ (Ht & Hh & Hl & Hm)].
  - repeat split; reflexivity.
  - unfold total in *. cbn [map filter]. rewrite sum_cons, len_cons, Ht.
    unfold is_high, is_low, is_medium in *. rewrite He.
    cbn [Z.leb Z.compare Pos.compare Pos.compare_cont andb].
    rewrite Hh, Hl, Hm. repeat split; try reflexivity. lia.
Qed.

(** X17.  When every request to the service fails, the folder is still
    evaluated: every file gets the score 5, and the overall result is the
    score 5 with the "mixed results" reason that counts every file as
    uncertain. *)
Theorem outage_scores_five
    (read_text : Path -> result string)
    (chat : Path -> string -> list (string * string) -> result response)
    (json_loads : string -> result py_value)
    (deployment_name : string) (folder_path : Path) (fs : node)
    (exclude_extensions exclude_folders : option (list string))
    (out : result OverallEvaluation.t) :
  let files := get_code_files fs folder_path exclude_extensions exclude_folders in
  (forall file deployment messages,
     exists e, chat file deployment messages = Raise e) ->
  files <> [] -> len files < 2 ^ 48 ->
  evaluate_folder read_text chat json_loads deployment_name folder_path
    fs exclude_extensions exclude_folders out ->
  exists o,
    out = Ok o /\
    OverallEvaluation.score o = 5 /\
    OverallEvaluation.reason o = reason_mixed 0 (len files) 0 /\
    OverallEvaluation.total_files o = len files /\
    Forall (fun evaluation => FileEvaluation.score evaluation = 5)
      (OverallEvaluation.file_evaluations o).
Proof.
  intros files Hdown Hne Hlen Hout.
  destruct (evaluate_folder_returns _ _ _ _ _ _ _ _ _ Hlen Hout)
    as (o & order & Ho & Hperm & Hev & Htot & Htot' & _).
  fold files in Hperm, Htot'.
  assert (Hfive : Forall (fun evaluation => FileEvaluation.score evaluation = 5)
                    (OverallEvaluation.file_evaluations o)).
  { clear - Hev Hdown.
    induction Hev as [|t ev order evs Ht _ IH]; constructor; [|exact IH].
    destruct (relative_to t folder_path) as [rel|e] eqn:Hrel.
    - rewrite (evaluate_file_cases _ _ _ _ _ _ _ Hrel) in Ht.
      unfold reply_text, reply in Ht.
      destruct (Hdown t deployment_name
                  [("system", system_message);
                   ("user", prompt_for (name t) (suffix t)
                              (content_of read_text t))]) as (e & He).
      rewrite He in Ht. cbn [bind] in Ht. inversion Ht. reflexivity.
    - rewrite (evaluate_file_outside _ _ _ _ _ _ _ Hrel) in Ht. discriminate. }
  exists o. split; [exact Ho|].
  unfold evaluate_folder in Hout. fold files in Hout.
  destruct files as [|f rest] eqn:Hfiles; [congruence|].
  destruct Hout as (collected & Hg & Hout).
  rewrite Ho in Hout. destruct collected as [evs|e]; [|discriminate].
  cbn [bind] in Hout.
  assert (Hevs : evs = OverallEvaluation.file_evaluations o).
  { destruct evs as [|e0 evs0].
    - simpl in Hout. inversion Hout. reflexivity.
    - unfold calculate_overall_score in Hout.
      destruct (Float64.true_div _ _); cbn [bind] in Hout; [|discriminate].
      destruct (Float64.py_round _); cbn [bind] in Hout; [|discriminate].
      destruct (times_0_6 _); cbn [bind] in Hout; [|discriminate].
      inversion Hout. reflexivity. }
  rewrite <- Hevs in Hfive, Htot.
  assert (Hn : len evs = len (f :: rest)) by congruence.
  assert (Hpos : 0 < len evs).
  { rewrite Hn, len_cons. pose proof (len_nonneg rest). lia. }
  assert (Hnil : evs <> []).
  { intros ->. unfold len in Hpos. simpl in Hpos. lia. }
  assert (Hb : Forall bounded evs).
  { apply (Forall_impl _ in_range_bounded).
    apply (Forall_impl (P := fun evaluation => FileEvaluation.score evaluation = 5));
      [|exact Hfive].
    intros a Ha. unfold in_range. lia. }
  rewrite (calculate_overall_score_spec evs Hnil Hb ltac:(lia)) in Hout.
  inversion Hout as [Ho']. cbn.
  destruct (all_five evs Hfive) as (Ht & Hh & Hl & Hm).
  unfold spec_score, spec_reason. rewrite Ht, Hh, Hl, Hm.
  rewrite (Float64Facts.rne_div_exact 5 (len evs) Hpos).
  change (len (@nil FileEvaluation.t)) with 0.
  destruct (Z.ltb_spec (3 * len evs) (5 * 0)); [lia|].
  rewrite Hn. repeat split; try reflexivity. exact Hfive.
Qed.

Lemma outage_scores_five_witness :
  exists o,
    evaluate_folder_fifo sample_read_text
      (failing (mk_exn "APIConnectionError" "Connection error.")) Json.loads
      "gpt-4o" ["proj"] sample_fs None None = Ok o /\
    OverallEvaluation.score o = 5 /\
    OverallEvaluation.reason o
    = "Mixed results: 0 likely AI-generated, 3 uncertain, 0 likely human-written" /\
    OverallEvaluation.total_files o = 3 /\
    Forall (fun evaluation => FileEvaluation.score evaluation = 5)
      (OverallEvaluation.file_evaluations o).
Proof.
  apply (outage_scores_five sample_read_text
           (failing (mk_exn "APIConnectionError" "Connection error."))
           Json.loads "gpt-4o" ["proj"] sample_fs None None).
  - intros file deployment messages. eexists. reflexivity.
  - discriminate.
  - reflexivity.
  - apply evaluate_folder_exists.
Defined.

(** * Properties of the report *)

Lemma insert_by_score_permutation (e : FileEvaluation.t)
    (l : list FileEvaluation.t) :
  Permutation (insert_by_score e l) (e :: l).
Proof.
  induction l as [|x l IH]; simpl; [apply Permutation_refl|].
  destruct (FileEvaluation.score x <=? FileEvaluation.score e).
  - apply Permutation_refl.
  - apply (Permutation_trans (perm_skip x IH)). apply perm_swap.
Qed.

Lemma sorted_by_score_permutation (l : list FileEvaluation.t) :
  Permutation (sorted_by_score l) l.
Proof.
  induction l as [|e l IH]; simpl; [constructor|].
  apply (Permutation_trans (insert_by_score_permutation e _)).
  apply perm_skip, IH.
Qed.

Lemma insert_by_score_sorted (e : FileEvaluation.t) (l : list FileEvaluation.t) :
  StronglySorted (fun a b => FileEvaluation.score b <= FileEvaluation.score a) l ->
  StronglySorted (fun a b => FileEvaluation.score b <= FileEvaluation.score a)
    (insert_by_score e l).
Proof.
  induction 1 as [|x l Hs IH Hx]; simpl.
  - constructor; constructor.
  - destruct (Z.leb_spec (FileEvaluation.score x) (FileEvaluation.score e)) as [Hle|Hgt].
    + constructor; [constructor; assumption|].
      constructor; [exact Hle|].
      apply (Forall_impl (P := fun b => FileEvaluation.score b
                                        <= FileEvaluation.score x)); [|exact Hx].
      intros b Hb. lia.
    + constructor; [exact IH|].
      apply (Permutation_Forall
               (Permutation_sym (insert_by_score_permutation e l))).
      constructor; [lia|exact Hx].
Qed.

Lemma insert_by_score_filter (k : Z) (e : FileEvaluation.t)
    (l : list FileEvaluation.t) :
  filter (fun x => FileEvaluation.score x =? k) (insert_by_score e l)
  = filter (fun x => FileEvaluation.score x =? k) (e :: l).
Proof.
  induction l as [|x l IH]; [reflexivity|]. cbn [insert_by_score].
  destruct (Z.leb_spec (FileEvaluation.score x) (FileEvaluation.score e)) as [Hle|Hgt];
    [reflexivity|].
  cbn [filter] in *. rewrite IH.
  destruct (Z.eqb_spec (FileEvaluation.score x) k) as [Hx|Hx];
    destruct (Z.eqb_spec (FileEvaluation.score e) k) as [He|He];
    try reflexivity.
  lia.
Qed.

(** X18.  [print_results] echoes the header and then every file
    evaluation exactly once, as a block of five lines, by descending
    score; evaluations of equal score appear in the order in which they
    were collected. *)
Theorem report_lists_by_score (format_value : py_value -> string)
    (evaluation : OverallEvaluation.t) :
  let evs := OverallEvaluation.file_evaluations evaluation in
  exists shown,
    print_results format_value evaluation
    = (report_header evaluation
       ++ match shown with
          | [] => []
          | _ :: _ =>
              [ (nl ++ "INDIVIDUAL FILE SCORES:")%string; times "-" 80 ]
              ++ flat_map (file_lines format_value) shown
          end)%list /\
    Permutation shown evs /\
    StronglySorted
      (fun a b => FileEvaluation.score b <= FileEvaluation.score a) shown /\
    (forall k,
       filter (fun e => FileEvaluation.score e =? k) shown
       = filter (fun e => FileEvaluation.score e =? k) evs) /\
    len (print_results format_value evaluation)
    = if len evs =? 0 then 6 else 8 + 5 * len evs.
Proof.
  destruct evaluation as [sc rs tf evs]. cbv zeta.
  cbn [OverallEvaluation.file_evaluations]. exists (sorted_by_score evs).
  assert (Hperm := sorted_by_score_permutation evs).
  split; [|split; [exact Hperm|split; [|split]]].
  - unfold print_results. cbn [OverallEvaluation.file_evaluations].
    destruct evs as [|e l]; [reflexivity|].
    destruct (sorted_by_score (e :: l)) eqn:Es; [|reflexivity].
    apply Permutation_nil in Hperm. discriminate.
  - clear Hperm. induction evs as [|e l IH]; simpl; [constructor|].
    apply insert_by_score_sorted, IH.
  - intros k. clear Hperm. induction evs as [|e l IH]; [reflexivity|].
    cbn [sorted_by_score fold_right]. fold (sorted_by_score l).
    rewrite insert_by_score_filter. cbn [filter]. rewrite IH. reflexivity.
  - unfold print_results. cbn [OverallEvaluation.file_evaluations].
    unfold len. rewrite length_app.
    destruct evs as [|e l]; [reflexivity|].
    rewrite length_app.
    assert (Hblocks : forall l0, List.length (flat_map (file_lines format_value) l0)
                                 = (5 * List.length l0)%nat).
    { induction l0 as [|x l0 IH]; [reflexivity|].
      cbn [flat_map]. rewrite length_app, IH. cbn [file_lines List.length]. lia. }
    rewrite Hblocks, (Permutation_length Hperm).
    cbn [report_header List.length].
    destruct (Z.eqb_spec (Z.of_nat (S (List.length l))) 0); lia.
Qed.

(** * Properties of the pull-request download *)

Section Download.

Import ADOService.

Lemma list_ascii_app (s t : string) :
  list_ascii_of_string (s ++ t)
  = (list_ascii_of_string s ++ list_ascii_of_string t)%list.
Proof. induction s as [|a s IH]; simpl; [reflexivity|]. rewrite IH. reflexivity. Qed.

Lemma contains_char_cons (c a : ascii) (s : string) :
  contains_char c (String a s) = false ->
  Ascii.eqb a c = false /\ contains_char c s = false.
Proof.
  unfold contains_char. simpl. intros H. apply orb_false_elim in H.
  destruct H as [H1 H2]. rewrite Ascii.eqb_sym. split; assumption.
Qed.

Lemma str_split_free (c : ascii) (x : string) :
  contains_char c x = false -> str_split c x = [x].
Proof.
  induction x as [|a x IH]; intros H; [reflexivity|].
  apply contains_char_cons in H. destruct H as [Ha Hx].
  simpl. rewrite Ha, (IH Hx). reflexivity.
Qed.

Lemma str_split_app (c : ascii) (x s : string) :
  contains_char c x = false ->
  str_split c (x ++ String c s) = x :: str_split c s.
Proof.
  induction x as [|a x IH]; intros H.
  - simpl. rewrite Ascii.eqb_refl. reflexivity.
  - apply contains_char_cons in H. destruct H as [Ha Hx].
    simpl. rewrite Ha, (IH Hx). reflexivity.
Qed.

Lemma str_split_concat (c : ascii) (segs : list string) :
  segs <> [] -> Forall (fun seg => contains_char c seg = false) segs ->
  str_split c (String.concat (String c EmptyString) segs) = segs.
Proof.
  induction segs as [|x segs IH]; intros Hne Hfree; [congruence|].
  inversion Hfree as [|? ? Hx Hrest]; subst.
  destruct segs as [|y segs].
  - simpl. apply str_split_free, Hx.
  - change (String.concat (String c EmptyString) (x :: y :: segs))
      with (x ++ String c (String.concat (String c EmptyString) (y :: segs)))%string.
    rewrite (str_split_app _ _ _ Hx), IH; [reflexivity|discriminate|exact Hrest].
Qed.

Lemma lstrip_char_id (c : ascii) (l : list ascii) :
  match l with a :: _ => Ascii.eqb a c = false | [] => True end ->
  lstrip_char c l = l.
Proof. destruct l as [|a l]; intros H; simpl; [reflexivity|]. rewrite H. reflexivity. Qed.

Lemma lstrip_char_head (c : ascii) (l : list ascii) :
  match lstrip_char c l with a :: _ => Ascii.eqb a c = false | [] => True end.
Proof.
  induction l as [|a l IH]; simpl; [exact I|].
  destruct (Ascii.eqb a c) eqn:E; [exact IH|exact E].
Qed.

Lemma startswith_head (c : ascii) (s : string) :
  startswith c s = false <->
  match list_ascii_of_string s with a :: _ => Ascii.eqb a c = false | [] => True end.
Proof. destruct s as [|a s]; simpl; tauto. Qed.

Lemma strip_body (c : ascii) (body : string) :
  startswith c body = false -> endswith c body = false ->
  strip c (String c body) = body.
Proof.
  intros Hs He. unfold strip. simpl list_ascii_of_string.
  cbn [lstrip_char]. rewrite Ascii.eqb_refl.
  rewrite (lstrip_char_id c (list_ascii_of_string body))
    by (apply startswith_head; exact Hs).
  rewrite lstrip_char_id.
  - rewrite rev_involutive. apply string_of_list_ascii_of_string.
  - unfold endswith in He.
    destruct (rev (list_ascii_of_string body)); [exact I|exact He].
Qed.

Lemma concat_last (sep : string) (segs : list string) :
  segs <> [] ->
  exists pre, String.concat sep segs = (pre ++ last segs "")%string.
Proof.
  induction segs as [|x segs IH]; intros Hne; [congruence|].
  destruct segs as [|y segs].
  - exists "". reflexivity.
  - destruct (IH ltac:(discriminate)) as (pre & Hpre).
    exists (x ++ sep ++ pre)%string.
    change (String.concat sep (x :: y :: segs))
      with (x ++ sep ++ String.concat sep (y :: segs))%string.
    change (last (x :: y :: segs) "") with (last (y :: segs) "").
    rewrite Hpre.
    assert (Hassoc : forall a b d : string, ((a ++ b) ++ d = a ++ b ++ d)%string).
    { induction a as [|ch a IHa]; intros b d; simpl; [reflexivity|].
      rewrite IHa. reflexivity. }
    rewrite <- !Hassoc. reflexivity.
Qed.

Lemma endswith_free (c : ascii) (pre z : string) :
  z <> "" -> contains_char c z = false -> endswith c (pre ++ z) = false.
Proof.
  intros Hz Hfree. unfold endswith. rewrite list_ascii_app, rev_app_distr.
  destruct (rev (list_ascii_of_string z)) as [|a r] eqn:Er.
  - exfalso. apply Hz.
    rewrite <- (string_of_list_ascii_of_string z),
      <- (rev_involutive (list_ascii_of_string z)), Er. reflexivity.
  - cbn [app]. unfold contains_char in Hfree.
    assert (Hin : In a (list_ascii_of_string z)).
    { apply in_rev. rewrite Er. left. reflexivity. }
    destruct (Ascii.eqb_spec a c) as [->|Hneq]; [|reflexivity].
    assert (Hex : existsb (Ascii.eqb c) (list_ascii_of_string z) = true).
    { apply existsb_exists. exists c. split; [exact Hin|apply Ascii.eqb_refl]. }
    congruence.
Qed.

Lemma last_In {A : Type} (l : list A) (d : A) : l <> [] -> In (last l d) l.
Proof.
  induction l as [|x l IH]; intros Hne; [congruence|].
  destruct l as [|y l]; [left; reflexivity|].
  right. apply IH. discriminate.
Qed.

Lemma pr_coordinates_segments (org rest : string) (segs : list string) :
  contains_char "." org = false ->
  Forall (fun seg => contains_char "/" seg = false) segs ->
  hd "" segs <> "" -> last segs "" <> "" ->
  pr_coordinates (mk_ParseResult (org ++ "." ++ rest)
                    ("/" ++ String.concat "/" segs))
  = (project <- item segs 0 ;;
     repo_name <- item segs 2 ;;
     pr_id_text <- item segs 4 ;;
     pr_id <- int_of_str pr_id_text ;;
     Ok (org, project, repo_name, pr_id)).
Proof.
  intros Horg Hfree Hhd Hlast.
  assert (Hne : segs <> []) by (intros ->; apply Hhd; reflexivity).
  unfold pr_coordinates. cbn [netloc path].
  change (org ++ "." ++ rest)%string with (org ++ String "." rest)%string.
  rewrite (str_split_app _ _ _ Horg).
  change ("/" ++ String.concat "/" segs)%string
    with (String "/" (String.concat "/" segs)).
  rewrite strip_body.
  - rewrite (str_split_concat "/" segs Hne Hfree). reflexivity.
  - destruct segs as [|x segs]; [congruence|]. cbn [hd] in Hhd.
    inversion Hfree as [|? ? Hx _]; subst.
    destruct x as [|a x]; [congruence|].
    apply contains_char_cons in Hx. destruct Hx as [Ha _].
    destruct segs; simpl; exact Ha.
  - destruct (concat_last "/" segs Hne) as (pre & Hpre). rewrite Hpre.
    apply endswith_free; [exact Hlast|].
    rewrite Forall_forall in Hfree. apply Hfree, last_In, Hne.
Qed.

(** X19.  The coordinates of the pull request are read off the URL by
    position alone: the organization is the host name up to its first
    dot, the project, the repository and the id are the first, third and
    fifth segment of the path; what the second and the fourth segment
    say is not looked at, and with fewer segments the lookup raises. *)
Theorem pr_coordinates_by_position (org rest : string) (segs : list string) :
  contains_char "." org = false ->
  Forall (fun seg => contains_char "/" seg = false) segs ->
  hd "" segs <> "" -> last segs "" <> "" ->
  pr_coordinates (mk_ParseResult (org ++ "." ++ rest)
                    ("/" ++ String.concat "/" segs))
  = (project <- item segs 0 ;;
     repo_name <- item segs 2 ;;
     pr_id_text <- item segs 4 ;;
     pr_id <- int_of_str pr_id_text ;;
     Ok (org, project, repo_name, pr_id)).
Proof. exact (pr_coordinates_segments org rest segs). Qed.

Lemma pr_coordinates_by_position_witness :
  pr_coordinates (mk_ParseResult "contoso.visualstudio.com"
                    "/Fabrikam/_git/web/pullrequest/42")
  = Ok ("contoso", "Fabrikam", "web", 42).
Proof.
  apply (pr_coordinates_by_position "contoso" "visualstudio.com"
           ["Fabrikam"; "_git"; "web"; "pullrequest"; "42"]).
  - reflexivity.
  - repeat constructor.
  - discriminate.
  - discriminate.
Defined.

(** X20.  A pull-request URL of the form
    [https://dev.azure.com/{organization}/{project}/_git/{repository}/pullrequest/{id}]
    is rejected before any request is made: the fifth segment of its
    path is the word [pullrequest], and [int] raises a [ValueError]
    on it. *)
Theorem dev_azure_url_rejected (organization project repository pr_id : string) :
  organization <> "" -> pr_id <> "" ->
  Forall (fun seg => contains_char "/" seg = false)
    [organization; project; repository; pr_id] ->
  pr_coordinates
    (mk_ParseResult "dev.azure.com"
       ("/" ++ organization ++ "/" ++ project ++ "/_git/" ++ repository
        ++ "/pullrequest/" ++ pr_id))
  = Raise (mk_exn "ValueError"
             "invalid literal for int() with base 10: 'pullrequest'").
Proof.
  intros Horg Hid Hfree.
  inversion Hfree as [|? ? H1 Hf1]; subst.
  inversion Hf1 as [|? ? H2 Hf2]; subst.
  inversion Hf2 as [|? ? H3 Hf3]; subst.
  inversion Hf3 as [|? ? H4 _]; subst.
  change ("/" ++ organization ++ "/" ++ project ++ "/_git/" ++ repository
          ++ "/pullrequest/" ++ pr_id)%string
    with ("/" ++ String.concat "/"
                   [organization; project; "_git"; repository; "pullrequest";
                    pr_id])%string.
  change "dev.azure.com" with ("dev" ++ "." ++ "azure.com")%string.
  rewrite pr_coordinates_segments.
  - reflexivity.
  - reflexivity.
  - repeat (constructor; [first [assumption|reflexivity]|]). constructor.
  - exact Horg.
  - exact Hid.
Qed.

Lemma dev_azure_url_rejected_witness :
  pr_coordinates
    (mk_ParseResult "dev.azure.com" "/contoso/Fabrikam/_git/web/pullrequest/42")
  = Raise (mk_exn "ValueError"
             "invalid literal for int() with base 10: 'pullrequest'").
Proof.
  apply (dev_azure_url_rejected "contoso" "Fabrikam" "web" "42").
  - discriminate.
  - discriminate.
  - repeat constructor.
Defined.

Lemma prefix_app (a b : string) : prefix a (a ++ b) = true.
Proof.
  induction a as [|c a IH]; simpl; [destruct b; reflexivity|].
  destruct (ascii_dec c c); [exact IH|congruence].
Qed.

(** X21.  A changed file is always written below the temporary folder:
    the leading slashes of its repository path are dropped before the
    join, so the join never replaces the folder by the file's own path,
    and the target is the folder, one separator unless the folder ends
    with one, and the path without its leading slashes. *)
Theorem full_path_under_temp_dir (temp_dir file_path : string) :
  startswith "/" (lstrip "/" file_path) = false /\
  full_path temp_dir file_path
  = (temp_dir
     ++ (if (temp_dir =? "")%string || endswith "/" temp_dir then "" else "/")
     ++ lstrip "/" file_path)%string /\
  prefix temp_dir (full_path temp_dir file_path) = true /\
  full_path temp_dir ("/" ++ file_path) = full_path temp_dir file_path.
Proof.
  assert (Hs : startswith "/" (lstrip "/" file_path) = false).
  { unfold lstrip.
    pose proof (lstrip_char_head "/" (list_ascii_of_string file_path)) as H.
    destruct (lstrip_char "/" (list_ascii_of_string file_path)); simpl;
      [reflexivity|exact H]. }
  assert (Heq : full_path temp_dir file_path
                = (temp_dir
                   ++ (if (temp_dir =? "")%string || endswith "/" temp_dir
                       then "" else "/")
                   ++ lstrip "/" file_path)%string).
  { unfold full_path, os_path_join. rewrite Hs.
    destruct ((temp_dir =? "")%string || endswith "/" temp_dir); reflexivity. }
  split; [exact Hs|]. split; [exact Heq|]. split.
  - rewrite Heq. apply prefix_app.
  - reflexivity.
Qed.

End Download.
